(** * NixieClock firmware: a shallow embedding of the control plane

    The development follows the C sources of the clock firmware:
    [clock.c] (timekeeper), [event.c] (event queue), [nixie.c] (display
    streams, refresh and crossfade), [player.c] (music player),
    [rotary.c] (quadrature decoder), [timer.c] (software timers and the
    tick interrupt) and [button.c] (debouncing and chords).

    Conventions.  C integers are modelled as [Z] with the wrap-around of
    each assignment written out ([uint8], [uint16], [sint8]); the target is
    an 8-bit AVR, so [int] is 16 bits wide.  Arrays are lists updated by
    index; module-level and function-static variables become record fields
    that are threaded through the functions. *)

From Stdlib Require Import ZArith List Lia Bool String Ascii.
From stdpp Require Import base list.

Open Scope Z_scope.

(** ** Fixed-width integers *)

Definition uint8 (x : Z) : Z := x mod 256.
Definition uint16 (x : Z) : Z := x mod 65536.
Definition uint32 (x : Z) : Z := x mod 4294967296.
(** Conversion to a signed 8-bit type, reducing modulo 2^8 as gcc does. *)
Definition sint8 (x : Z) : Z := (x + 128) mod 256 - 128.

(** Character constants: [chr "A"] is the C constant ['A']. *)
Definition chr (a : ascii) : Z := Z.of_N (N_of_ascii a).

(** The bytes of a string literal (without the terminating null byte). *)
Definition bytes_of_string (s : string) : list Z :=
  map chr (list_ascii_of_string s).

(** C truth value of an integer. *)
Definition nonzero (x : Z) : bool := negb (x =? 0).

(** * clock.c: time and date *)

Module Clock.

Record time_t := mk_time { hour : Z; minute : Z; second : Z }.

Record date_t := mk_date { year : Z; month : Z; day : Z }.

(** The module variables [time], [date] and [run]. *)
Record clock := mk_clock { time : time_t; date : date_t; run : Z }.

Definition days_month : list Z :=
  [00; 31; 28; 31; 30; 31; 30; 31; 31; 30; 31; 30; 31].

(** [pgm_read_byte(&days_month[month])]; an index outside the table would
    read unrelated program memory, modelled as 0. *)
Definition days_in_month (month year : Z) : Z :=
  let ret := nth (Z.to_nat month) days_month 0 in
  if (month =? 2) && (Z.land year 3 =? 0) && negb (year mod 100 =? 0)
  then uint8 (ret + 1)
  else ret.

Definition set_time_24 (t : time_t) (c : clock) : clock :=
  mk_clock t (date c) (run c).

Definition set_date (d : date_t) (c : clock) : clock :=
  mk_clock (time c) d (run c).

Definition clock_run (run_flag : Z) (c : clock) : clock :=
  mk_clock (time c) (date c) run_flag.

Definition time_date_init (c : clock) : clock :=
  set_date (mk_date 2009 1 1) (set_time_24 (mk_time 12 0 0) c).

Definition time_date_update (c : clock) : clock :=
  if negb (nonzero (run c)) then c
  else
    let t := time c in
    let d := date c in
    let second1 := uint8 (second t + 1) in
    if second1 >=? 60 then
      let minute1 := uint8 (minute t + 1) in
      if minute1 >=? 60 then
        let hour1 := uint8 (hour t + 1) in
        if hour1 >=? 24 then
          let day1 := uint8 (day d + 1) in
          if day1 >? days_in_month (month d) (year d) then
            let month1 := uint8 (month d + 1) in
            if month1 >? 12 then
              mk_clock (mk_time 0 0 0)
                       (mk_date (uint16 (year d + 1)) 1 day1) (run c)
            else
              mk_clock (mk_time 0 0 0) (mk_date (year d) month1 day1) (run c)
          else
            mk_clock (mk_time 0 0 0) (mk_date (year d) (month d) day1) (run c)
        else mk_clock (mk_time hour1 0 0) d (run c)
      else mk_clock (mk_time (hour t) minute1 0) d (run c)
    else mk_clock (mk_time (hour t) (minute t) second1) d (run c).

(** The last second of a month, with the clock running. *)
Definition month_end (m y : Z) : clock :=
  mk_clock (mk_time 23 59 59) (mk_date y m (days_in_month m y)) 1.

(** ** 12-hour time and the accessors *)

(** [hour_24_to_12]: the pair [( *hour_12, *am_pm )]. *)
Definition hour_24_to_12 (hour_24 : Z) : Z * Z :=
  let am_pm := if hour_24 >=? 12 then 1 else 0 in
  let hour_12 :=
    if hour_24 =? 0 then 12
    else if hour_24 >? 12 then uint8 (hour_24 - 12)
    else hour_24 in
  (hour_12, am_pm).

Definition get_time_24 (c : clock) : time_t := time c.

Definition get_time_12 (c : clock) : time_t * Z :=
  let t := time c in
  let '(hour_12, am_pm) := hour_24_to_12 (hour t) in
  (mk_time hour_12 (minute t) (second t), am_pm).

Definition set_time_12 (t : time_t) (am_pm : Z) (c : clock) : clock :=
  let hour1 := uint8 (hour t - 1) in
  let hour2 := if nonzero am_pm then uint8 (hour1 + 12) else hour1 in
  mk_clock (mk_time hour2 (minute t) (second t)) (date c) (run c).

Definition get_date (c : clock) : date_t := date c.

(** A time of day with every field in range. *)
Definition time_valid (t : time_t) : Prop :=
  0 <= hour t < 24 /\ 0 <= minute t < 60 /\ 0 <= second t < 60.

(** Seconds since midnight. *)
Definition second_of_day (t : time_t) : Z :=
  3600 * hour t + 60 * minute t + second t.

End Clock.

(** * event.c: the event queue *)

Module Event.

Definition EVENT_QUEUE_SIZE : Z := 16.

(** [event_id] is a C enumeration used in index arithmetic, so its values
    are kept as integers. *)
Definition event_id := Z.

Definition NO_EVENT : event_id := 0.
Definition BUTTON0_PRESSED : event_id := 1.
Definition BUTTON0_RELEASED : event_id := 2.
Definition BUTTON0_SHORT : event_id := 3.
Definition BUTTON0_LONG : event_id := 4.
Definition LAST_BUTTON_EVENT : event_id := 33.
Definition BUTTON_CHORD : event_id := 34.
Definition RIGHT_ROTARY_MOVED : event_id := 35.
Definition LEFT_ROTARY_MOVED : event_id := 36.
Definition TIMER_EXPIRED : event_id := 37.
Definition ONE_SECOND_ELAPSED : event_id := 38.

Record event_t := mk_event { event : event_id; data : Z }.

(** The module variables [event_queue_head], [event_queue_tail] and
    [event_queue]. *)
Record queue := mk_queue {
  event_queue_head : Z;
  event_queue_tail : Z;
  event_queue : list event_t
}.

Definition clear_events (q : queue) : queue :=
  mk_queue 0 0 (event_queue q).

Definition add_event (ev : event_id) (dat : Z) (q : queue) : queue :=
  let slots :=
    <[Z.to_nat (event_queue_head q) := mk_event ev dat]> (event_queue q) in
  let head1 := uint8 (event_queue_head q + 1) in
  let head2 := if head1 >=? EVENT_QUEUE_SIZE then 0 else head1 in
  let tail1 :=
    if head2 =? event_queue_tail q then uint8 (event_queue_tail q + 1)
    else event_queue_tail q in
  mk_queue head2 tail1 slots.

(** What the button, rotary and timer modules hand to one run of
    [scan_for_events]: the latched bitmaps and counters it reads and
    clears there. *)
Record sources := mk_sources {
  pressed : Z;
  released : Z;
  bshort : Z;
  blong : Z;
  debounced : Z;
  chord : Z;
  right_rotary : Z;
  left_rotary : Z;
  timer_status : Z
}.

Definition no_sources : sources := mk_sources 0 0 0 0 0 0 0 0 0.

(** The loop over the eight button columns. *)
Fixpoint scan_buttons (n : nat) (s : sources) (ev mask : Z) (q : queue)
  : queue :=
  match n with
  | O => q
  | S n' =>
      let q1 := if nonzero (Z.land (pressed s) mask)
                then add_event (ev + BUTTON0_PRESSED) (debounced s) q else q in
      let q2 := if nonzero (Z.land (released s) mask)
                then add_event (ev + BUTTON0_RELEASED) (debounced s) q1
                else q1 in
      let q3 := if nonzero (Z.land (bshort s) mask)
                then add_event (ev + BUTTON0_SHORT) (debounced s) q2 else q2 in
      let q4 := if nonzero (Z.land (blong s) mask)
                then add_event (ev + BUTTON0_LONG) (debounced s) q3 else q3 in
      scan_buttons n' s (ev + 4) (uint8 (Z.shiftl mask 1)) q4
  end.

(** The loop over the timer-expired bitmap; [mask] is a byte, so eight
    rounds always empty it. *)
Fixpoint scan_timers (n : nat) (mask index : Z) (q : queue) : queue :=
  match n with
  | O => q
  | S n' =>
      if nonzero mask then
        let q1 := if nonzero (Z.land mask 1)
                  then add_event TIMER_EXPIRED (uint8 index) q else q in
        scan_timers n' (Z.shiftr mask 1) (sint8 (index + 1)) q1
      else q
  end.

Definition scan_for_events (s : sources) (q : queue) : queue :=
  let q1 := scan_buttons 8 s 0 1 q in
  let q2 := if nonzero (chord s) then add_event BUTTON_CHORD (chord s) q1
            else q1 in
  let q3 := if nonzero (sint8 (right_rotary s))
            then add_event RIGHT_ROTARY_MOVED (uint8 (right_rotary s)) q2
            else q2 in
  let q4 := if nonzero (sint8 (left_rotary s))
            then add_event LEFT_ROTARY_MOVED (uint8 (left_rotary s)) q3
            else q3 in
  scan_timers 8 (uint8 (timer_status s)) 0 q4.

(** Result of reading [event_queue[i]]: the slot, or a read outside the
    16-entry array. *)
Inductive slot_read :=
| Slot (e : event_t)
| OutOfBounds (index : Z).

Definition read_slot (q : queue) (i : Z) : slot_read :=
  if (0 <=? i) && (i <? EVENT_QUEUE_SIZE) then
    match event_queue q !! Z.to_nat i with
    | Some e => Slot e
    | None => OutOfBounds i
    end
  else OutOfBounds i.

Definition get_next_event (s : sources) (q : queue) : queue * slot_read :=
  let q1 := scan_for_events s q in
  if negb (event_queue_head q1 =? event_queue_tail q1) then
    let r := read_slot q1 (event_queue_tail q1) in
    let tail1 := uint8 (event_queue_tail q1 + 1) in
    let tail2 := if tail1 >=? EVENT_QUEUE_SIZE then 0 else tail1 in
    (mk_queue (event_queue_head q1) tail2 (event_queue q1), r)
  else (q1, Slot (mk_event NO_EVENT 0)).

(** [n] calls of [add_event] in a row, the k-th carrying data [k]. *)
Fixpoint add_events (n : nat) (ev : event_id) (k : Z) (q : queue) : queue :=
  match n with
  | O => q
  | S n' => add_events n' ev (k + 1) (add_event ev k q)
  end.

Definition empty_slots : list event_t := replicate 16 (mk_event NO_EVENT 0).

(** ** Event classification and peeking *)

Definition RIGHT_BUTTON_PRESSED : event_id := 25.
Definition LEFT_BUTTON_PRESSED : event_id := 29.

Definition is_button_pressed_event (e : event_id) : bool :=
  (e <? LAST_BUTTON_EVENT) && negb (nonzero (Z.land (e - BUTTON0_PRESSED) 3)).

Definition is_button_released_event (e : event_id) : bool :=
  (e <? LAST_BUTTON_EVENT) && negb (nonzero (Z.land (e - BUTTON0_RELEASED) 3)).

Definition is_button_short_event (e : event_id) : bool :=
  (e <? LAST_BUTTON_EVENT) && negb (nonzero (Z.land (e - BUTTON0_SHORT) 3)).

Definition is_button_long_event (e : event_id) : bool :=
  (e <? LAST_BUTTON_EVENT) && negb (nonzero (Z.land (e - BUTTON0_LONG) 3)).

Definition is_button_chord_event (e : event_id) : bool := e =? BUTTON_CHORD.

Definition is_button_event (e : event_id) : bool :=
  (e <? LAST_BUTTON_EVENT) || (e =? BUTTON_CHORD).

Definition is_left_rotary_event (e : event_id) : bool := e =? LEFT_ROTARY_MOVED.

Definition is_right_rotary_event (e : event_id) : bool :=
  e =? RIGHT_ROTARY_MOVED.

Definition is_rotary_event (e : event_id) : bool :=
  (e =? LEFT_ROTARY_MOVED) || (e =? RIGHT_ROTARY_MOVED).

Definition is_timer_event (e : event_id) : bool :=
  (e =? TIMER_EXPIRED) || (e =? ONE_SECOND_ELAPSED).

(** [unget_next_event]: the next event, left in the queue. *)
Definition unget_next_event (s : sources) (q : queue) : queue * slot_read :=
  let q1 := scan_for_events s q in
  if negb (event_queue_head q1 =? event_queue_tail q1)
  then (q1, read_slot q1 (event_queue_tail q1))
  else (q1, Slot (mk_event NO_EVENT 0)).

(** Both indices inside a 16-slot array. *)
Definition queue_ok (q : queue) : Prop :=
  0 <= event_queue_head q < EVENT_QUEUE_SIZE /\
  0 <= event_queue_tail q < EVENT_QUEUE_SIZE /\
  length (event_queue q) = Z.to_nat EVENT_QUEUE_SIZE.

Definition slot_at (q : queue) (i : Z) : event_t :=
  nth (Z.to_nat i) (event_queue q) (mk_event NO_EVENT 0).

(** Number of events waiting in the queue. *)
Definition pending_count (q : queue) : Z :=
  (event_queue_head q - event_queue_tail q) mod EVENT_QUEUE_SIZE.

(** The events waiting in the queue, oldest first: the slots from the
    tail index up to the head index, going round the array. *)
Definition pending (q : queue) : list event_t :=
  map (fun k : nat =>
         slot_at q ((event_queue_tail q + Z.of_nat k) mod EVENT_QUEUE_SIZE))
      (seq 0 (Z.to_nat (pending_count q))).

(** The events of a list added one after the other. *)
Definition add_event_list (l : list event_t) (q : queue) : queue :=
  fold_left (fun q1 e => add_event (event e) (data e) q1) l q.

(** [n] calls of [get_next_event] while the sources stay quiet: what they
    return, first call first, and the queue they leave. *)
Fixpoint get_events (n : nat) (q : queue) : list slot_read * queue :=
  match n with
  | O => ([], q)
  | S n' =>
      let '(q1, r) := get_next_event no_sources q in
      let '(rs, q2) := get_events n' q1 in
      (r :: rs, q2)
  end.

(** Sources in which a single latch holds a single button bit: [phase] 0
    is the pressed latch, 1 released, 2 short, 3 long. *)
Definition one_button_latch (i phase debounced_now : Z) : sources :=
  mk_sources (if phase =? 0 then Z.shiftl 1 i else 0)
             (if phase =? 1 then Z.shiftl 1 i else 0)
             (if phase =? 2 then Z.shiftl 1 i else 0)
             (if phase =? 3 then Z.shiftl 1 i else 0)
             debounced_now 0 0 0 0.

End Event.

(** * nixie.c: display streams, refresh and crossfade *)

Module Nixie.

Definition NIXIE_SEGMENTS : Z := 64.
Definition NIXIE_SEGMENTS_PER_DIGIT : Z := 10.
Definition NIXIE_DISPLAY_WIDTH : Z := 6.
Definition MAX_NIXIE_INTENSITY : Z := 9.
Definition NOMINAL_NIXIE_INTENSITY : Z := 9.
Definition MAX_NIXIE_CROSSFADE_RATE : Z := 3.
Definition NIXIE_LEFT_LAMP : Z := NIXIE_DISPLAY_WIDTH + 0.
Definition NIXIE_RIGHT_LAMP : Z := NIXIE_DISPLAY_WIDTH + 1.
Definition NIXIE_AUX_A : Z := NIXIE_DISPLAY_WIDTH + 2.
Definition NIXIE_AUX_B : Z := NIXIE_DISPLAY_WIDTH + 3.

(** The named one-bit lanes of [control_t]; the three unused bits are
    never set, so [control.all = 0] is [control_clear]. *)
Record control_t := mk_control {
  no_cursor_inc : bool;
  single_no_inc : bool;
  overlay : bool;
  single_overlay : bool;
  no_cursor_wrap : bool
}.

Definition control_clear : control_t := mk_control false false false false false.

Inductive state_t := NORMAL_OUTPUT | SET_INTENSITY | SET_CURSOR_POS.

(** A virtual display.  [segdata] is the 64-byte intensity buffer the C
    structure points to. *)
Record nixie_stream_t := mk_stream {
  segdata : list Z;
  cursor : Z;
  intensity : Z;
  state : state_t;
  control : control_t
}.

Definition set_segdata (v : list Z) (p : nixie_stream_t) : nixie_stream_t :=
  mk_stream v (cursor p) (intensity p) (state p) (control p).
Definition set_cursor (v : Z) (p : nixie_stream_t) : nixie_stream_t :=
  mk_stream (segdata p) v (intensity p) (state p) (control p).
Definition set_intensity (v : Z) (p : nixie_stream_t) : nixie_stream_t :=
  mk_stream (segdata p) (cursor p) v (state p) (control p).
Definition set_state (v : state_t) (p : nixie_stream_t) : nixie_stream_t :=
  mk_stream (segdata p) (cursor p) (intensity p) v (control p).
Definition set_control (v : control_t) (p : nixie_stream_t) : nixie_stream_t :=
  mk_stream (segdata p) (cursor p) (intensity p) (state p) v.

Definition set_no_cursor_inc (v : bool) (p : nixie_stream_t) : nixie_stream_t :=
  let c := control p in
  set_control (mk_control v (single_no_inc c) (overlay c) (single_overlay c)
                          (no_cursor_wrap c)) p.
Definition set_single_no_inc (v : bool) (p : nixie_stream_t) : nixie_stream_t :=
  let c := control p in
  set_control (mk_control (no_cursor_inc c) v (overlay c) (single_overlay c)
                          (no_cursor_wrap c)) p.
Definition set_overlay (v : bool) (p : nixie_stream_t) : nixie_stream_t :=
  let c := control p in
  set_control (mk_control (no_cursor_inc c) (single_no_inc c) v
                          (single_overlay c) (no_cursor_wrap c)) p.
Definition set_single_overlay (v : bool) (p : nixie_stream_t) : nixie_stream_t :=
  let c := control p in
  set_control (mk_control (no_cursor_inc c) (single_no_inc c) (overlay c) v
                          (no_cursor_wrap c)) p.
Definition set_no_cursor_wrap (v : bool) (p : nixie_stream_t) : nixie_stream_t :=
  let c := control p in
  set_control (mk_control (no_cursor_inc c) (single_no_inc c) (overlay c)
                          (single_overlay c) v) p.

Definition nixie_digit_offset : list Z :=
  [0; 10; 21; 32; 43; 53; 20; 42; 31; 63].

Definition digit_offset (digit : Z) : Z :=
  nth (Z.to_nat digit) nixie_digit_offset 0.

(** [count] consecutive bytes set to 0, starting at index [pos]. *)
Fixpoint clear_segments (count pos : nat) (seg : list Z) : list Z :=
  match count with
  | O => seg
  | S c => clear_segments c (S pos) (<[pos := 0]> seg)
  end.

Definition clear_nixie_display (seg : list Z) : list Z :=
  clear_segments (Z.to_nat NIXIE_SEGMENTS) 0 seg.

Definition clear_nixie_digit (seg : list Z) (digit : Z) : list Z :=
  let count :=
    if digit <? NIXIE_DISPLAY_WIDTH then NIXIE_SEGMENTS_PER_DIGIT else 1 in
  clear_segments (Z.to_nat count) (Z.to_nat (digit_offset digit)) seg.

Definition set_nixie_segment (seg : list Z) (digit segment intens : Z)
  : list Z :=
  <[Z.to_nat (digit_offset digit + segment) := intens]> seg.

Definition nixie_control_init (p : nixie_stream_t) : nixie_stream_t :=
  mk_stream (clear_nixie_display (segdata p)) 0 MAX_NIXIE_INTENSITY
            NORMAL_OUTPUT control_clear.

(** [nixie_stream_init] links the caller's buffer to the stream and
    initialises the control data; what the stream held before is
    overwritten. *)
Definition nixie_stream_init (buffer : list Z) : nixie_stream_t :=
  nixie_control_init (mk_stream buffer 0 0 NORMAL_OUTPUT control_clear).

Definition inc_cursor (p : nixie_stream_t) (char_mode : bool)
  : nixie_stream_t :=
  if char_mode && (no_cursor_inc (control p) || single_no_inc (control p))
  then set_single_no_inc false p
  else
    let cursor1 := uint8 (cursor p + 1) in
    if no_cursor_wrap (control p) then
      if cursor1 >? NIXIE_DISPLAY_WIDTH
      then set_cursor NIXIE_DISPLAY_WIDTH p
      else set_cursor cursor1 p
    else if cursor1 >=? NIXIE_DISPLAY_WIDTH then set_cursor 0 p
    else set_cursor cursor1 p.

Definition dec_cursor (p : nixie_stream_t) : nixie_stream_t :=
  let cursor1 := uint8 (cursor p - 1) in
  if nonzero (Z.land cursor1 128) then
    if no_cursor_wrap (control p) then set_cursor 0 p
    else set_cursor (NIXIE_DISPLAY_WIDTH - 1) p
  else set_cursor cursor1 p.

(** The value a byte has in a variable of plain [char] type.  Whether
    plain [char] is signed is the compiler's choice: avr-gcc makes it
    signed unless it is run with [-funsigned-char], so the choice is a
    parameter of [nixie_out]. *)
Definition plain_char (signed_char : bool) (x : Z) : Z :=
  if signed_char then sint8 x else uint8 x.

(** The part of [nixie_out] that handles a displayable character of type
    [char_type] (1: digit, 2: digit plus segment 0, 3: space), [ch] being
    the segment number already. *)
Definition put_displayable (signed_char : bool) (char_type ch : Z)
  (p : nixie_stream_t) : nixie_stream_t :=
  let seg :=
    if cursor p <? NIXIE_DISPLAY_WIDTH then
      let seg0 :=
        if negb (overlay (control p) || single_overlay (control p))
        then clear_nixie_digit (segdata p) (cursor p)
        else segdata p in
      let seg1 :=
        if char_type =? 2
        then set_nixie_segment seg0 (cursor p) 0 (intensity p)
        else seg0 in
      let ch1 :=
        if char_type =? 2 then plain_char signed_char (ch + 1) else ch in
      if negb (char_type =? 3)
      then set_nixie_segment seg1 (cursor p) (uint8 ch1) (intensity p)
      else seg1
    else segdata p in
  set_single_overlay false (inc_cursor (set_segdata seg p) true).

(** The [switch] over the control characters. *)
Definition put_control (ch : Z) (p : nixie_stream_t) : nixie_stream_t :=
  if ch =? chr "<" then
    set_segdata (set_nixie_segment (segdata p) NIXIE_LEFT_LAMP 0 (intensity p)) p
  else if ch =? chr ">" then
    set_segdata (set_nixie_segment (segdata p) NIXIE_RIGHT_LAMP 0 (intensity p)) p
  else if ch =? chr "(" then
    set_segdata (set_nixie_segment (segdata p) NIXIE_LEFT_LAMP 0 0) p
  else if ch =? chr ")" then
    set_segdata (set_nixie_segment (segdata p) NIXIE_RIGHT_LAMP 0 0) p
  else if ch =? chr "`" then
    set_segdata
      (set_nixie_segment (set_nixie_segment (segdata p) NIXIE_LEFT_LAMP 0 0)
                         NIXIE_RIGHT_LAMP 0 0) p
  else if ch =? chr "." then
    if (cursor p =? 2) || (cursor p =? 3) then
      set_segdata
        (set_nixie_segment (segdata p) NIXIE_LEFT_LAMP 0 (intensity p)) p
    else if cursor p >? 3 then
      set_segdata
        (set_nixie_segment (segdata p) NIXIE_RIGHT_LAMP 0 (intensity p)) p
    else p
  else if ch =? chr "," then
    if (cursor p =? 0) || (cursor p =? 1) then
      set_segdata
        (set_nixie_segment (segdata p) NIXIE_LEFT_LAMP 0 (intensity p)) p
    else if cursor p <? 4 then
      set_segdata
        (set_nixie_segment (segdata p) NIXIE_RIGHT_LAMP 0 (intensity p)) p
    else p
  else if ch =? chr "X" then
    set_segdata (set_nixie_segment (segdata p) NIXIE_AUX_A 0 (intensity p)) p
  else if ch =? chr "x" then
    set_segdata (set_nixie_segment (segdata p) NIXIE_AUX_A 0 0) p
  else if ch =? chr "Y" then
    set_segdata (set_nixie_segment (segdata p) NIXIE_AUX_B 0 (intensity p)) p
  else if ch =? chr "y" then
    set_segdata (set_nixie_segment (segdata p) NIXIE_AUX_B 0 0) p
  else if ch =? chr "[" then
    if nonzero (intensity p) then set_intensity (uint8 (intensity p - 1)) p
    else p
  else if ch =? chr "]" then
    if intensity p <? MAX_NIXIE_INTENSITY
    then set_intensity (uint8 (intensity p + 1)) p
    else p
  else if ch =? chr "*" then set_state SET_INTENSITY p
  else if ch =? chr "~" then set_intensity NOMINAL_NIXIE_INTENSITY p
  else if ch =? chr "$" then set_no_cursor_inc false p
  else if ch =? chr "#" then set_no_cursor_inc true p
  else if ch =? chr "!" then set_single_no_inc true p
  else if ch =? chr "&" then set_overlay false p
  else if ch =? chr "|" then set_overlay true p
  else if ch =? chr "_" then set_single_overlay true p
  else if ch =? chr "^" then set_single_overlay true (dec_cursor p)
  else if ch =? chr "@" then set_state SET_CURSOR_POS p
  else if ch =? chr "{" then set_no_cursor_wrap true p
  else if ch =? chr "}" then set_no_cursor_wrap false p
  else if ch =? 12 (* \f *) then
    set_cursor 0 (set_segdata (clear_nixie_display (segdata p)) p)
  else if ch =? 13 (* \r *) then set_cursor 0 p
  else if ch =? 10 (* \n *) then
    set_segdata (clear_nixie_display (segdata p)) p
  else if ch =? 8 (* \b *) then dec_cursor p
  else if ch =? 9 (* \t *) then inc_cursor p false
  else if ch =? 11 (* \v *) then
    set_control control_clear (set_cursor 0 (set_intensity MAX_NIXIE_INTENSITY p))
  else p.

Definition nixie_out (signed_char : bool) (byte : Z) (p : nixie_stream_t)
  : nixie_stream_t :=
  let ch := plain_char signed_char byte in
  match state p with
  | SET_INTENSITY =>
      let ch1 := plain_char signed_char (ch - chr "0") in
      set_state NORMAL_OUTPUT
        (if ch1 <=? MAX_NIXIE_INTENSITY then set_intensity (uint8 ch1) p else p)
  | SET_CURSOR_POS =>
      let ch1 := plain_char signed_char (ch - chr "0") in
      set_state NORMAL_OUTPUT
        (if ch1 <=? NIXIE_DISPLAY_WIDTH then set_cursor (uint8 ch1) p else p)
  | NORMAL_OUTPUT =>
      if (ch >=? chr "0") && (ch <=? chr "9") then
        put_displayable signed_char 1 (plain_char signed_char (ch - chr "0")) p
      else if (ch >=? chr "A") && (ch <=? chr "I") then
        put_displayable signed_char 2 (plain_char signed_char (ch - chr "A")) p
      else if (ch >=? chr "a") && (ch <=? chr "i") then
        put_displayable signed_char 2 (plain_char signed_char (ch - chr "a")) p
      else if ch =? chr " " then put_displayable signed_char 3 ch p
      else put_control ch p
  end.

(** A sequence of bytes written to a stream, first byte first. *)
Definition nixie_write (signed_char : bool) (bytes : list Z)
  (p : nixie_stream_t) : nixie_stream_t :=
  fold_left (fun q b => nixie_out signed_char b q) bytes p.

(** The range invariant of a virtual display. *)
Definition stream_in_range (p : nixie_stream_t) : Prop :=
  0 <= cursor p <= NIXIE_DISPLAY_WIDTH /\
  0 <= intensity p <= MAX_NIXIE_INTENSITY /\
  Forall (fun v => 0 <= v <= MAX_NIXIE_INTENSITY) (segdata p) /\
  length (segdata p) = Z.to_nat NIXIE_SEGMENTS.

(** ** Refresh engine and crossfade *)

(** [nixie_control_t]: two 2-bit counters and three of the flags. *)
Record nixie_control_t := mk_nixie_control {
  crossfade_rate : Z;
  crossfade_count : Z;
  one_cycle_done : bool;
  one_cycle_only : bool;
  refresh_enable : bool
}.

(** The display engine: the buffer [nixie_segment_ptr] points to, the
    control flags and the PWM sub-cycle counter of the refresh routine. *)
Record display := mk_display {
  active : list Z;
  nixie_control : nixie_control_t;
  intensity_count : Z
}.

Definition set_active (v : list Z) (d : display) : display :=
  mk_display v (nixie_control d) (intensity_count d).

Definition set_crossfade_rate (v : Z) (d : display) : display :=
  let c := nixie_control d in
  mk_display (active d)
    (mk_nixie_control v (crossfade_count c) (one_cycle_done c)
                      (one_cycle_only c) (refresh_enable c))
    (intensity_count d).
Definition set_crossfade_count (v : Z) (d : display) : display :=
  let c := nixie_control d in
  mk_display (active d)
    (mk_nixie_control (crossfade_rate c) v (one_cycle_done c)
                      (one_cycle_only c) (refresh_enable c))
    (intensity_count d).
Definition set_one_cycle_done (v : bool) (d : display) : display :=
  let c := nixie_control d in
  mk_display (active d)
    (mk_nixie_control (crossfade_rate c) (crossfade_count c) v
                      (one_cycle_only c) (refresh_enable c))
    (intensity_count d).
Definition set_one_cycle_only (v : bool) (d : display) : display :=
  let c := nixie_control d in
  mk_display (active d)
    (mk_nixie_control (crossfade_rate c) (crossfade_count c)
                      (one_cycle_done c) v (refresh_enable c))
    (intensity_count d).
Definition set_refresh_enable (v : bool) (d : display) : display :=
  let c := nixie_control d in
  mk_display (active d)
    (mk_nixie_control (crossfade_rate c) (crossfade_count c)
                      (one_cycle_done c) (one_cycle_only c) v)
    (intensity_count d).
Definition set_intensity_count (v : Z) (d : display) : display :=
  mk_display (active d) (nixie_control d) v.

(** One entry of the tick interrupt into [nixie_display_refresh].  The 64
    bits shifted out to the driver do not change the state and are left
    out. *)
Definition nixie_display_refresh (d : display) : display :=
  if negb (refresh_enable (nixie_control d)) then d
  else
    let count1 := uint8 (intensity_count d + 1) in
    if count1 >=? MAX_NIXIE_INTENSITY then
      let d1 := set_one_cycle_done true (set_intensity_count 0 d) in
      if one_cycle_only (nixie_control d1) then set_refresh_enable false d1
      else d1
    else set_intensity_count count1 d.

Definition nixie_display_enable (enable : Z) (d : display) : display :=
  if nonzero enable
  then set_refresh_enable true (set_one_cycle_only false d)
  else set_refresh_enable false d.

Definition nixie_show_stream (p : nixie_stream_t) (d : display) : display :=
  set_active (segdata p) d.

Definition nixie_crossfade_rate (rate : Z) (d : display) : display :=
  set_crossfade_rate
    (if rate <=? MAX_NIXIE_CROSSFADE_RATE then rate
     else MAX_NIXIE_CROSSFADE_RATE) d.

(** [while (! nixie_control.one_cycle_done) ;] -- the tick interrupt runs
    the refresh routine until the flag is set.  With refresh disabled the
    flag is never set and the loop does not end: no amount of fuel gives a
    result. *)
Fixpoint wait_one_cycle (fuel : nat) (d : display) : option display :=
  if one_cycle_done (nixie_control d) then Some d
  else
    match fuel with
    | O => None
    | S f => wait_one_cycle f (nixie_display_refresh d)
    end.

(** One segment of the fade loop: the new value of [*p_from] and whether
    it changed. *)
Definition fade_segment (from to : Z) : Z * bool :=
  if nonzero to then
    if from <? to then (uint8 (from + 1), true) else (from, false)
  else if nonzero from then (uint8 (from - 1), true)
  else (from, false).

(** The [for] loop over the segments, [p_from] and [p_to] advancing
    together; [activity] is a byte counter. *)
Fixpoint fade_segments (count : nat) (p_from p_to : list Z) (activity : Z)
  : list Z * Z :=
  match count, p_from, p_to with
  | S c, from :: p_from', to :: p_to' =>
      let '(from1, changed) := fade_segment from to in
      let activity1 := if changed then uint8 (activity + 1) else activity in
      let '(rest, activity2) := fade_segments c p_from' p_to' activity1 in
      (from1 :: rest, activity2)
  | _, _, _ => (p_from, activity)
  end.

(** The [do ... while (activity)] loop of [nixie_crossfade].  [cycles]
    counts the completed waits for a PWM cycle; [ticks] bounds the tick
    interrupts of one wait and [fuel] the rounds of the loop. *)
Fixpoint crossfade_loop (ticks fuel : nat) (to : list Z) (cycles : Z)
  (d : display) : option (display * Z) :=
  match fuel with
  | O => None
  | S f =>
      match wait_one_cycle ticks d with
      | None => None
      | Some d1 =>
          let d2 := set_one_cycle_done false d1 in
          let c := nixie_control d2 in
          if crossfade_count c <? crossfade_rate c then
            crossfade_loop ticks f to (cycles + 1)
              (set_crossfade_count ((crossfade_count c + 1) mod 4)
                 (set_refresh_enable true d2))
          else
            let '(from1, activity) :=
              fade_segments (Z.to_nat NIXIE_SEGMENTS) (active d2) to 0 in
            let d3 :=
              set_crossfade_count 0
                (set_refresh_enable true (set_active from1 d2)) in
            if nonzero activity then crossfade_loop ticks f to (cycles + 1) d3
            else Some (d3, cycles + 1)
      end
  end.

(** [nixie_crossfade(to_stream)]: the final display state and the number
    of PWM cycles waited for, or [None] when [fuel] rounds do not finish
    it.  Only the application context writes the two buffers, and it is
    blocked in this call, so they change nowhere else meanwhile. *)
Definition nixie_crossfade (fuel : nat) (to : list Z) (d : display)
  : option (display * Z) :=
  let d0 :=
    set_crossfade_count 3
      (set_one_cycle_done false (set_one_cycle_only true d)) in
  match crossfade_loop fuel fuel to 0 d0 with
  | None => None
  | Some (d1, cycles) => Some (set_one_cycle_only false d1, cycles)
  end.

(** Where [nixie_crossfade] leaves a segment that starts at [from] and
    has [to] in the target buffer. *)
Definition fade_result (from to : Z) : Z :=
  if nonzero to then (if from <? to then to else from) else 0.

(** Number of fade steps a segment still needs. *)
Definition fade_distance (from to : Z) : Z :=
  if nonzero to then (if from <? to then to - from else 0) else from.

(** An intensity of 0..I_max. *)
Definition intensity_ok (v : Z) : Prop := 0 <= v <= MAX_NIXIE_INTENSITY.

(** A value a byte of the segment buffer can hold. *)
Definition byte_ok (v : Z) : Prop := 0 <= v < 256.

(** The display state at the top of a round of the crossfade loop:
    refresh enabled in one-cycle mode, no cycle reported yet. *)
Definition loop_state (from : list Z) (rate count ic : Z) : display :=
  mk_display from (mk_nixie_control rate count false true true) ic.

(** The state the tick interrupt leaves when the PWM cycle is over. *)
Definition cycle_done_state (from : list Z) (rate count : Z) : display :=
  mk_display from (mk_nixie_control rate count true true false) 0.

(** A segment that needs at most [k] more fade steps. *)
Definition within (k : Z) (from to : Z) : Prop := fade_distance from to <= k.

(** A display showing every segment at full intensity. *)
Definition full_display (rate ic : Z) : display :=
  mk_display (replicate 64 MAX_NIXIE_INTENSITY)
             (mk_nixie_control rate 0 false false true) ic.

(** Active and target buffers that exercise the three cases. *)
Definition fade_from : list Z := [2; 7; 7; 0] ++ replicate 60 4.
Definition fade_to : list Z := [5; 0; 3; 0] ++ replicate 60 9.

Definition fade_display : display :=
  mk_display fade_from (mk_nixie_control 1 0 false false true) 0.

(** Whether buffer index [s] is one of the ten cathodes of tube
    [digit]. *)
Definition in_tube (digit s : Z) : bool :=
  (digit_offset digit <=? s)
  && (s <? digit_offset digit + NIXIE_SEGMENTS_PER_DIGIT).

(** The byte at index [s] of a segment buffer. *)
Definition segment_at (seg : list Z) (s : Z) : Z := nth (Z.to_nat s) seg 0.

(** ** The bits shifted out by the refresh routine *)

(** The loop of [nixie_display_refresh] over the segments, which runs
    before the sub-cycle counter is advanced: a segment is on in this
    sub-cycle when its intensity is above the counter, and every eight
    bits go out as one byte; [sent] collects the bytes written to SPDR.
    A buffer shorter than the index would be read past its end, modelled
    as 0. *)
Fixpoint shift_out (n segment_index : nat) (seg : list Z)
  (count nixie_data bit_mask : Z) (sent : list Z) : list Z :=
  match n with
  | O => sent
  | S n' =>
      let data1 := if nth segment_index seg 0 >? count
                   then Z.lor nixie_data bit_mask else nixie_data in
      if nonzero (Z.land bit_mask 128)
      then shift_out n' (S segment_index) seg count 0 1 (sent ++ [data1])
      else shift_out n' (S segment_index) seg count data1
             (uint8 (Z.shiftl bit_mask 1)) sent
  end.

(** The bytes one entry of [nixie_display_refresh] sends to the display
    driver. *)
Definition spi_bytes (d : display) : list Z :=
  if negb (refresh_enable (nixie_control d)) then []
  else shift_out (Z.to_nat NIXIE_SEGMENTS) 0 (active d) (intensity_count d)
         0 1 [].

(** Whether the output for segment [s] is on in the bytes sent. *)
Definition segment_on (d : display) (s : nat) : bool :=
  Z.testbit (nth (s / 8) (spi_bytes d) 0) (Z.of_nat (s mod 8)).

(** In how many of the next [n] entries of the refresh routine segment
    [s] is on. *)
Definition lit_subcycles (d : display) (s n : nat) : nat :=
  length
    (List.filter (fun k => segment_on (Nat.iter k nixie_display_refresh d) s)
       (seq 0 n)).

(** Eight on/off bits as a byte, the first in bit 0. *)
Fixpoint pack_bits (bits : list bool) : Z :=
  match bits with
  | [] => 0
  | b :: rest => (if b then 1 else 0) + 2 * pack_bits rest
  end.

End Nixie.

(** * player.c: the music player *)

Module Player.

Definition OCTAVES : Z := 10.
Definition NOTES_PER_OCTAVE : Z := 12.
Definition NUM_BOOKMARKS : Z := 10.
Definition DEFAULT_TEMPO : Z := 120.
Definition DEFAULT_BEAT : Z := 4.
Definition PLAYER_TICKS_PER_SECOND : Z := 625.
Definition F_CPU : Z := 16000000.

(** ** Character classes *)

Definition is_separator (c : Z) : bool := (c =? chr " ") || (c =? chr ":").
Definition is_digit (c : Z) : bool := (c >=? chr "0") && (c <=? chr "9").
Definition is_note (c : Z) : bool := (c >=? chr "A") && (c <=? chr "G").
Definition is_rest (c : Z) : bool := (c =? chr "R") || (c =? chr ",").
Definition is_repeat_note (c : Z) : bool := c =? chr "!".
Definition is_octave_mod (c : Z) : bool := (c >=? chr "0") && (c <=? chr "9").
Definition is_flat (c : Z) : bool := c =? chr "-".
Definition is_natural (c : Z) : bool := (c =? chr "N") || (c =? chr "=").
Definition is_sharp (c : Z) : bool := (c =? chr "+") || (c =? chr "#").
Definition is_dotted (c : Z) : bool := c =? chr ".".
Definition is_triplet (c : Z) : bool := c =? chr "/".
Definition is_tied (c : Z) : bool := (c =? chr "|") || (c =? chr ",").
Definition is_staccato (c : Z) : bool := c =? chr "^".
Definition is_whole (c : Z) : bool := c =? chr "W".
Definition is_half (c : Z) : bool := c =? chr "H".
Definition is_quarter (c : Z) : bool := c =? chr "Q".
Definition is_8th (c : Z) : bool := c =? chr "I".
Definition is_16th (c : Z) : bool := c =? chr "S".
Definition is_32nd (c : Z) : bool := c =? chr "Y".
Definition is_octave_up (c : Z) : bool := c =? chr ">".
Definition is_octave_down (c : Z) : bool := c =? chr "<".
Definition is_octave_cmd (c : Z) : bool := c =? chr "O".
Definition is_ratio_cmd (c : Z) : bool := c =? chr "M".
Definition is_volume_cmd (c : Z) : bool := c =? chr "V".
Definition is_tempo_cmd (c : Z) : bool := c =? chr "T".
Definition is_transpose_cmd (c : Z) : bool := c =? chr "P".
Definition is_key_cmd (c : Z) : bool := c =? chr "K".
Definition is_bookmark (c : Z) : bool := c =? chr "[".
Definition is_goto_mark (c : Z) : bool := c =? chr "]".
Definition is_reset_cmd (c : Z) : bool := c =? chr "*".

Definition MOD_DOTTED : Z := 1.
Definition MOD_TRIPLET : Z := 2.
Definition MOD_TIED : Z := 4.
Definition MOD_STACCATO : Z := 8.

Definition ACCIDENTAL_FLAT : Z := -1.
Definition ACCIDENTAL_NATURAL : Z := 0.
Definition ACCIDENTAL_SHARP : Z := 1.

Definition NOTE_WHOLE : Z := 1.
Definition NOTE_HALF : Z := 2.
Definition NOTE_QUARTER : Z := 4.
Definition NOTE_8TH : Z := 8.
Definition NOTE_16TH : Z := 16.
Definition NOTE_32ND : Z := 32.

Definition PLAYER_STOP : Z := 0.
Definition PLAYER_RUN : Z := 1.
Definition PLAYER_INIT : Z := 2.

Definition NOTE_IS_REST : Z := 255.

(** [prescale_t] *)
Definition PRESCALE_STOP : Z := 0.
Definition PRESCALE_1 : Z := 1.
Definition PRESCALE_8 : Z := 2.

Inductive player_state_t :=
| STATE_RESET
| STATE_GET_NOTE
| STATE_GET_MODIFIER
| STATE_START_NOTE
| STATE_WAIT_NOTE
| STATE_START_REST
| STATE_WAIT_REST
| STATE_GET_DIGIT
| STATE_GET_NUMBER
| STATE_GET_NUMBER_2
| STATE_SET_OCTAVE
| STATE_SET_NOTE_RATIO
| STATE_SET_VOLUME
| STATE_SET_TRANSPOSITION
| STATE_SET_KEY
| STATE_SET_KEY_2
| STATE_SET_TEMPO
| STATE_SET_TEMPO_2
| STATE_SET_BOOKMARK
| STATE_SET_BOOKMARK_2
| STATE_GOTO_BOOKMARK
| STATE_STOP.

Inductive player_space_t :=
| PLAYER_MEM_RAM
| PLAYER_MEM_PGM
| PLAYER_MEM_EEPROM
| PLAYER_MEM_UNKNOWN.

Record note_t := mk_note { period : Z; prescale : Z }.

(** A bookmark.  [position] points into the play string: [Some i] is the
    address of its i-th byte and [None] the null pointer. *)
Record bookmark_t := mk_bookmark { position : option Z; repeat : Z }.

(** ** The note table *)

(** [NOTE_PERIOD(freq, prescale)] is [F_CPU / freq / prescale / 2 - 0.5],
    evaluated by the compiler and converted to [uint16_t], which drops the
    fraction.  [F_CPU] is [16000000UL], so the type of [freq] decides how
    the quotient is formed.

    Where [freq] is written with a decimal point (octaves 0 to 5) the
    whole expression is floating point.  The frequency is given here in
    hundredths of a hertz, which makes the value the integer part of an
    exact quotient. *)
Definition NOTE_PERIOD (freq100 divisor : Z) : Z :=
  uint16 ((F_CPU * 100 - freq100 * divisor) / (2 * freq100 * divisor)).

(** Where [freq] is an integer literal (octaves 6 to 9) the three
    divisions are [unsigned long] divisions, each dropping its remainder;
    only the subtraction of 0.5 is floating point, and the conversion
    truncates [n - 0.5] towards zero. *)
Definition NOTE_PERIOD_UL (freq divisor : Z) : Z :=
  uint16 (Z.quot (2 * (F_CPU / freq / divisor / 2) - 1) 2).

Definition note_table : list (list note_t) :=
[
  [
    mk_note (NOTE_PERIOD 1635 8) PRESCALE_8;    (* C0 *)
    mk_note (NOTE_PERIOD 1732 8) PRESCALE_8;    (* C#0 *)
    mk_note (NOTE_PERIOD 1835 8) PRESCALE_8;    (* D0 *)
    mk_note (NOTE_PERIOD 1944 8) PRESCALE_8;    (* D#0 *)
    mk_note (NOTE_PERIOD 2060 8) PRESCALE_8;    (* E0 *)
    mk_note (NOTE_PERIOD 2182 8) PRESCALE_8;    (* F0 *)
    mk_note (NOTE_PERIOD 2312 8) PRESCALE_8;    (* F#0 *)
    mk_note (NOTE_PERIOD 2450 8) PRESCALE_8;    (* G0 *)
    mk_note (NOTE_PERIOD 2595 8) PRESCALE_8;    (* G#0 *)
    mk_note (NOTE_PERIOD 2750 8) PRESCALE_8;    (* A0 *)
    mk_note (NOTE_PERIOD 2913 8) PRESCALE_8;    (* A#0 *)
    mk_note (NOTE_PERIOD 3086 8) PRESCALE_8     (* B0 *)
  ];
  [
    mk_note (NOTE_PERIOD 3270 8) PRESCALE_8;    (* C1 *)
    mk_note (NOTE_PERIOD 3465 8) PRESCALE_8;    (* C#1 *)
    mk_note (NOTE_PERIOD 3671 8) PRESCALE_8;    (* D1 *)
    mk_note (NOTE_PERIOD 3889 8) PRESCALE_8;    (* D#1 *)
    mk_note (NOTE_PERIOD 4120 8) PRESCALE_8;    (* E1 *)
    mk_note (NOTE_PERIOD 4365 8) PRESCALE_8;    (* F1 *)
    mk_note (NOTE_PERIOD 4625 8) PRESCALE_8;    (* F#1 *)
    mk_note (NOTE_PERIOD 4900 8) PRESCALE_8;    (* G1 *)
    mk_note (NOTE_PERIOD 5191 8) PRESCALE_8;    (* G#1 *)
    mk_note (NOTE_PERIOD 5500 8) PRESCALE_8;    (* A1 *)
    mk_note (NOTE_PERIOD 5827 8) PRESCALE_8;    (* A#1 *)
    mk_note (NOTE_PERIOD 6173 8) PRESCALE_8     (* B1 *)
  ];
  [
    mk_note (NOTE_PERIOD 6541 8) PRESCALE_8;    (* C2 *)
    mk_note (NOTE_PERIOD 6930 8) PRESCALE_8;    (* C#2 *)
    mk_note (NOTE_PERIOD 7342 8) PRESCALE_8;    (* D2 *)
    mk_note (NOTE_PERIOD 7778 8) PRESCALE_8;    (* D#2 *)
    mk_note (NOTE_PERIOD 8241 8) PRESCALE_8;    (* E2 *)
    mk_note (NOTE_PERIOD 8731 8) PRESCALE_8;    (* F2 *)
    mk_note (NOTE_PERIOD 9250 8) PRESCALE_8;    (* F#2 *)
    mk_note (NOTE_PERIOD 9800 8) PRESCALE_8;    (* G2 *)
    mk_note (NOTE_PERIOD 10380 8) PRESCALE_8;   (* G#2 *)
    mk_note (NOTE_PERIOD 11000 8) PRESCALE_8;   (* A2 *)
    mk_note (NOTE_PERIOD 11650 8) PRESCALE_8;   (* A#2 *)
    mk_note (NOTE_PERIOD 12350 1) PRESCALE_1    (* B2 *)
  ];
  [
    mk_note (NOTE_PERIOD 13080 1) PRESCALE_1;   (* C3 *)
    mk_note (NOTE_PERIOD 13860 1) PRESCALE_1;   (* C#3 *)
    mk_note (NOTE_PERIOD 14680 1) PRESCALE_1;   (* D3 *)
    mk_note (NOTE_PERIOD 15560 1) PRESCALE_1;   (* D#3 *)
    mk_note (NOTE_PERIOD 16480 1) PRESCALE_1;   (* E3 *)
    mk_note (NOTE_PERIOD 17460 1) PRESCALE_1;   (* F3 *)
    mk_note (NOTE_PERIOD 18500 1) PRESCALE_1;   (* F#3 *)
    mk_note (NOTE_PERIOD 19600 1) PRESCALE_1;   (* G3 *)
    mk_note (NOTE_PERIOD 20770 1) PRESCALE_1;   (* G#3 *)
    mk_note (NOTE_PERIOD 22000 1) PRESCALE_1;   (* A3 *)
    mk_note (NOTE_PERIOD 23310 1) PRESCALE_1;   (* A#3 *)
    mk_note (NOTE_PERIOD 24690 1) PRESCALE_1    (* B3 *)
  ];
  [
    mk_note (NOTE_PERIOD 26160 1) PRESCALE_1;   (* C4 *)
    mk_note (NOTE_PERIOD 27720 1) PRESCALE_1;   (* C#4 *)
    mk_note (NOTE_PERIOD 29370 1) PRESCALE_1;   (* D4 *)
    mk_note (NOTE_PERIOD 31110 1) PRESCALE_1;   (* D#4 *)
    mk_note (NOTE_PERIOD 32960 1) PRESCALE_1;   (* E4 *)
    mk_note (NOTE_PERIOD 34920 1) PRESCALE_1;   (* F4 *)
    mk_note (NOTE_PERIOD 37000 1) PRESCALE_1;   (* F#4 *)
    mk_note (NOTE_PERIOD 39200 1) PRESCALE_1;   (* G4 *)
    mk_note (NOTE_PERIOD 41530 1) PRESCALE_1;   (* G#4 *)
    mk_note (NOTE_PERIOD 44000 1) PRESCALE_1;   (* A4 *)
    mk_note (NOTE_PERIOD 46620 1) PRESCALE_1;   (* A#4 *)
    mk_note (NOTE_PERIOD 49390 1) PRESCALE_1    (* B4 *)
  ];
  [
    mk_note (NOTE_PERIOD 52330 1) PRESCALE_1;   (* C5 *)
    mk_note (NOTE_PERIOD 55440 1) PRESCALE_1;   (* C#5 *)
    mk_note (NOTE_PERIOD 58730 1) PRESCALE_1;   (* D5 *)
    mk_note (NOTE_PERIOD 62230 1) PRESCALE_1;   (* D#5 *)
    mk_note (NOTE_PERIOD 65930 1) PRESCALE_1;   (* E5 *)
    mk_note (NOTE_PERIOD 69850 1) PRESCALE_1;   (* F5 *)
    mk_note (NOTE_PERIOD 74000 1) PRESCALE_1;   (* F#5 *)
    mk_note (NOTE_PERIOD 78400 1) PRESCALE_1;   (* G5 *)
    mk_note (NOTE_PERIOD 83060 1) PRESCALE_1;   (* G#5 *)
    mk_note (NOTE_PERIOD 88000 1) PRESCALE_1;   (* A5 *)
    mk_note (NOTE_PERIOD 93230 1) PRESCALE_1;   (* A#5 *)
    mk_note (NOTE_PERIOD 98780 1) PRESCALE_1    (* B5 *)
  ];
  [
    mk_note (NOTE_PERIOD_UL 1047 1) PRESCALE_1;  (* C6 *)
    mk_note (NOTE_PERIOD_UL 1109 1) PRESCALE_1;  (* C#6 *)
    mk_note (NOTE_PERIOD_UL 1175 1) PRESCALE_1;  (* D6 *)
    mk_note (NOTE_PERIOD_UL 1245 1) PRESCALE_1;  (* D#6 *)
    mk_note (NOTE_PERIOD_UL 1319 1) PRESCALE_1;  (* E6 *)
    mk_note (NOTE_PERIOD_UL 1397 1) PRESCALE_1;  (* F6 *)
    mk_note (NOTE_PERIOD_UL 1480 1) PRESCALE_1;  (* F#6 *)
    mk_note (NOTE_PERIOD_UL 1568 1) PRESCALE_1;  (* G6 *)
    mk_note (NOTE_PERIOD_UL 1661 1) PRESCALE_1;  (* G#6 *)
    mk_note (NOTE_PERIOD_UL 1760 1) PRESCALE_1;  (* A6 *)
    mk_note (NOTE_PERIOD_UL 1865 1) PRESCALE_1;  (* A#6 *)
    mk_note (NOTE_PERIOD_UL 1976 1) PRESCALE_1   (* B6 *)
  ];
  [
    mk_note (NOTE_PERIOD_UL 2093 1) PRESCALE_1;  (* C7 *)
    mk_note (NOTE_PERIOD_UL 2217 1) PRESCALE_1;  (* C#7 *)
    mk_note (NOTE_PERIOD_UL 2349 1) PRESCALE_1;  (* D7 *)
    mk_note (NOTE_PERIOD_UL 2489 1) PRESCALE_1;  (* D#7 *)
    mk_note (NOTE_PERIOD_UL 2637 1) PRESCALE_1;  (* E7 *)
    mk_note (NOTE_PERIOD_UL 2794 1) PRESCALE_1;  (* F7 *)
    mk_note (NOTE_PERIOD_UL 2960 1) PRESCALE_1;  (* F#7 *)
    mk_note (NOTE_PERIOD_UL 3136 1) PRESCALE_1;  (* G7 *)
    mk_note (NOTE_PERIOD_UL 3322 1) PRESCALE_1;  (* G#7 *)
    mk_note (NOTE_PERIOD_UL 3520 1) PRESCALE_1;  (* A7 *)
    mk_note (NOTE_PERIOD_UL 3729 1) PRESCALE_1;  (* A#7 *)
    mk_note (NOTE_PERIOD_UL 3951 1) PRESCALE_1   (* B7 *)
  ];
  [
    mk_note (NOTE_PERIOD_UL 4186 1) PRESCALE_1;  (* C8 *)
    mk_note (NOTE_PERIOD_UL 4434 1) PRESCALE_1;  (* C#8 *)
    mk_note (NOTE_PERIOD_UL 4698 1) PRESCALE_1;  (* D8 *)
    mk_note (NOTE_PERIOD_UL 4978 1) PRESCALE_1;  (* D#8 *)
    mk_note (NOTE_PERIOD_UL 5274 1) PRESCALE_1;  (* E8 *)
    mk_note (NOTE_PERIOD_UL 5588 1) PRESCALE_1;  (* F8 *)
    mk_note (NOTE_PERIOD_UL 5920 1) PRESCALE_1;  (* F#8 *)
    mk_note (NOTE_PERIOD_UL 6272 1) PRESCALE_1;  (* G8 *)
    mk_note (NOTE_PERIOD_UL 6645 1) PRESCALE_1;  (* G#8 *)
    mk_note (NOTE_PERIOD_UL 7040 1) PRESCALE_1;  (* A8 *)
    mk_note (NOTE_PERIOD_UL 7459 1) PRESCALE_1;  (* A#8 *)
    mk_note (NOTE_PERIOD_UL 7902 1) PRESCALE_1   (* B8 *)
  ];
  [
    mk_note (NOTE_PERIOD_UL 8372 1) PRESCALE_1;  (* C9 *)
    mk_note (NOTE_PERIOD_UL 8870 1) PRESCALE_1;  (* C#9 *)
    mk_note (NOTE_PERIOD_UL 9397 1) PRESCALE_1;  (* D9 *)
    mk_note (NOTE_PERIOD_UL 9956 1) PRESCALE_1;  (* D#9 *)
    mk_note (NOTE_PERIOD_UL 10548 1) PRESCALE_1; (* E9 *)
    mk_note (NOTE_PERIOD_UL 11175 1) PRESCALE_1; (* F9 *)
    mk_note (NOTE_PERIOD_UL 11840 1) PRESCALE_1; (* F#9 *)
    mk_note (NOTE_PERIOD_UL 12544 1) PRESCALE_1; (* G9 *)
    mk_note (NOTE_PERIOD_UL 13290 1) PRESCALE_1; (* G#9 *)
    mk_note (NOTE_PERIOD_UL 14080 1) PRESCALE_1; (* A9 *)
    mk_note (NOTE_PERIOD_UL 14917 1) PRESCALE_1; (* A#9 *)
    mk_note (NOTE_PERIOD_UL 15804 1) PRESCALE_1  (* B9 *)
  ]
].

(** [note_table[o][n]]; outside the table the C code would read unrelated
    program memory, modelled as an all-zero entry. *)
Definition note_at (o n : Z) : note_t :=
  if (0 <=? o) && (0 <=? n)
  then nth (Z.to_nat n) (nth (Z.to_nat o) note_table []) (mk_note 0 0)
  else mk_note 0 0.

(** ** The tone generator

    The player drives the timer through [beep_period], [beep_mute] and
    [beep_gain]; the model records these calls in the order they are
    made. *)
Inductive tone_event :=
| BeepPeriod (period prescale : Z)
| BeepMute (mute : Z)
| BeepGain (gain : Z).

Definition tone_event_eqb (a b : tone_event) : bool :=
  match a, b with
  | BeepPeriod p1 s1, BeepPeriod p2 s2 => (p1 =? p2) && (s1 =? s2)
  | BeepMute m1, BeepMute m2 => m1 =? m2
  | BeepGain g1, BeepGain g2 => g1 =? g2
  | _, _ => false
  end.

(** ** Player state

    The module variables ([player_timer] .. [bookmark]), the static
    variables of [player_service] ([state] .. [scale]), its automatic
    variables [ch], [digit] and [number], which live for one call, the
    memory holding the play string and the calls made to the tone
    generator.  [player_ptr] is the offset of the pointer from the start
    of the play string.  [score] holds the bytes of the play string up to
    its null byte and [behind] the rest of that memory, by offset from
    the start of the string. *)
Record player := mk_player {
  player_timer : Z;
  player_ptr : Z;
  player_mem_space : player_space_t;
  player_enable : Z;
  bookmark : list bookmark_t;
  state : player_state_t;
  next_state : player_state_t;
  note : Z;
  octave : Z;
  accidental : Z;
  transposition : Z;
  note_size : Z;
  size_modifier : Z;
  note_rest_ratio : Z;
  whole_note_period : Z;
  note_period : Z;
  rest_period : Z;
  scale : list Z;
  ch : Z;
  digit : Z;
  number : Z;
  score : list Z;
  tones : list tone_event;
  behind : Z -> Z
}.

Definition set_player_timer (v : Z) (p : player) : player :=
  mk_player v (player_ptr p) (player_mem_space p) (player_enable p)
    (bookmark p) (state p) (next_state p) (note p) (octave p) (accidental p)
    (transposition p) (note_size p) (size_modifier p) (note_rest_ratio p)
    (whole_note_period p) (note_period p) (rest_period p) (scale p) (ch p)
    (digit p) (number p) (score p) (tones p) (behind p).
Definition set_player_ptr (v : Z) (p : player) : player :=
  mk_player (player_timer p) v (player_mem_space p) (player_enable p)
    (bookmark p) (state p) (next_state p) (note p) (octave p) (accidental p)
    (transposition p) (note_size p) (size_modifier p) (note_rest_ratio p)
    (whole_note_period p) (note_period p) (rest_period p) (scale p) (ch p)
    (digit p) (number p) (score p) (tones p) (behind p).
Definition set_player_mem_space (v : player_space_t) (p : player) : player :=
  mk_player (player_timer p) (player_ptr p) v (player_enable p) (bookmark p)
    (state p) (next_state p) (note p) (octave p) (accidental p)
    (transposition p) (note_size p) (size_modifier p) (note_rest_ratio p)
    (whole_note_period p) (note_period p) (rest_period p) (scale p) (ch p)
    (digit p) (number p) (score p) (tones p) (behind p).
Definition set_player_enable (v : Z) (p : player) : player :=
  mk_player (player_timer p) (player_ptr p) (player_mem_space p) v (bookmark
    p) (state p) (next_state p) (note p) (octave p) (accidental p)
    (transposition p) (note_size p) (size_modifier p) (note_rest_ratio p)
    (whole_note_period p) (note_period p) (rest_period p) (scale p) (ch p)
    (digit p) (number p) (score p) (tones p) (behind p).
Definition set_bookmark (v : list bookmark_t) (p : player) : player :=
  mk_player (player_timer p) (player_ptr p) (player_mem_space p)
    (player_enable p) v (state p) (next_state p) (note p) (octave p)
    (accidental p) (transposition p) (note_size p) (size_modifier p)
    (note_rest_ratio p) (whole_note_period p) (note_period p) (rest_period
    p) (scale p) (ch p) (digit p) (number p) (score p) (tones p) (behind p).
Definition set_state (v : player_state_t) (p : player) : player :=
  mk_player (player_timer p) (player_ptr p) (player_mem_space p)
    (player_enable p) (bookmark p) v (next_state p) (note p) (octave p)
    (accidental p) (transposition p) (note_size p) (size_modifier p)
    (note_rest_ratio p) (whole_note_period p) (note_period p) (rest_period
    p) (scale p) (ch p) (digit p) (number p) (score p) (tones p) (behind p).
Definition set_next_state (v : player_state_t) (p : player) : player :=
  mk_player (player_timer p) (player_ptr p) (player_mem_space p)
    (player_enable p) (bookmark p) (state p) v (note p) (octave p)
    (accidental p) (transposition p) (note_size p) (size_modifier p)
    (note_rest_ratio p) (whole_note_period p) (note_period p) (rest_period
    p) (scale p) (ch p) (digit p) (number p) (score p) (tones p) (behind p).
Definition set_note (v : Z) (p : player) : player :=
  mk_player (player_timer p) (player_ptr p) (player_mem_space p)
    (player_enable p) (bookmark p) (state p) (next_state p) v (octave p)
    (accidental p) (transposition p) (note_size p) (size_modifier p)
    (note_rest_ratio p) (whole_note_period p) (note_period p) (rest_period
    p) (scale p) (ch p) (digit p) (number p) (score p) (tones p) (behind p).
Definition set_octave (v : Z) (p : player) : player :=
  mk_player (player_timer p) (player_ptr p) (player_mem_space p)
    (player_enable p) (bookmark p) (state p) (next_state p) (note p) v
    (accidental p) (transposition p) (note_size p) (size_modifier p)
    (note_rest_ratio p) (whole_note_period p) (note_period p) (rest_period
    p) (scale p) (ch p) (digit p) (number p) (score p) (tones p) (behind p).
Definition set_accidental (v : Z) (p : player) : player :=
  mk_player (player_timer p) (player_ptr p) (player_mem_space p)
    (player_enable p) (bookmark p) (state p) (next_state p) (note p) (octave
    p) v (transposition p) (note_size p) (size_modifier p) (note_rest_ratio
    p) (whole_note_period p) (note_period p) (rest_period p) (scale p) (ch
    p) (digit p) (number p) (score p) (tones p) (behind p).
Definition set_transposition (v : Z) (p : player) : player :=
  mk_player (player_timer p) (player_ptr p) (player_mem_space p)
    (player_enable p) (bookmark p) (state p) (next_state p) (note p) (octave
    p) (accidental p) v (note_size p) (size_modifier p) (note_rest_ratio p)
    (whole_note_period p) (note_period p) (rest_period p) (scale p) (ch p)
    (digit p) (number p) (score p) (tones p) (behind p).
Definition set_note_size (v : Z) (p : player) : player :=
  mk_player (player_timer p) (player_ptr p) (player_mem_space p)
    (player_enable p) (bookmark p) (state p) (next_state p) (note p) (octave
    p) (accidental p) (transposition p) v (size_modifier p) (note_rest_ratio
    p) (whole_note_period p) (note_period p) (rest_period p) (scale p) (ch
    p) (digit p) (number p) (score p) (tones p) (behind p).
Definition set_size_modifier (v : Z) (p : player) : player :=
  mk_player (player_timer p) (player_ptr p) (player_mem_space p)
    (player_enable p) (bookmark p) (state p) (next_state p) (note p) (octave
    p) (accidental p) (transposition p) (note_size p) v (note_rest_ratio p)
    (whole_note_period p) (note_period p) (rest_period p) (scale p) (ch p)
    (digit p) (number p) (score p) (tones p) (behind p).
Definition set_note_rest_ratio (v : Z) (p : player) : player :=
  mk_player (player_timer p) (player_ptr p) (player_mem_space p)
    (player_enable p) (bookmark p) (state p) (next_state p) (note p) (octave
    p) (accidental p) (transposition p) (note_size p) (size_modifier p) v
    (whole_note_period p) (note_period p) (rest_period p) (scale p) (ch p)
    (digit p) (number p) (score p) (tones p) (behind p).
Definition set_whole_note_period (v : Z) (p : player) : player :=
  mk_player (player_timer p) (player_ptr p) (player_mem_space p)
    (player_enable p) (bookmark p) (state p) (next_state p) (note p) (octave
    p) (accidental p) (transposition p) (note_size p) (size_modifier p)
    (note_rest_ratio p) v (note_period p) (rest_period p) (scale p) (ch p)
    (digit p) (number p) (score p) (tones p) (behind p).
Definition set_note_period (v : Z) (p : player) : player :=
  mk_player (player_timer p) (player_ptr p) (player_mem_space p)
    (player_enable p) (bookmark p) (state p) (next_state p) (note p) (octave
    p) (accidental p) (transposition p) (note_size p) (size_modifier p)
    (note_rest_ratio p) (whole_note_period p) v (rest_period p) (scale p)
    (ch p) (digit p) (number p) (score p) (tones p) (behind p).
Definition set_rest_period (v : Z) (p : player) : player :=
  mk_player (player_timer p) (player_ptr p) (player_mem_space p)
    (player_enable p) (bookmark p) (state p) (next_state p) (note p) (octave
    p) (accidental p) (transposition p) (note_size p) (size_modifier p)
    (note_rest_ratio p) (whole_note_period p) (note_period p) v (scale p)
    (ch p) (digit p) (number p) (score p) (tones p) (behind p).
Definition set_scale (v : list Z) (p : player) : player :=
  mk_player (player_timer p) (player_ptr p) (player_mem_space p)
    (player_enable p) (bookmark p) (state p) (next_state p) (note p) (octave
    p) (accidental p) (transposition p) (note_size p) (size_modifier p)
    (note_rest_ratio p) (whole_note_period p) (note_period p) (rest_period
    p) v (ch p) (digit p) (number p) (score p) (tones p) (behind p).
Definition set_ch (v : Z) (p : player) : player :=
  mk_player (player_timer p) (player_ptr p) (player_mem_space p)
    (player_enable p) (bookmark p) (state p) (next_state p) (note p) (octave
    p) (accidental p) (transposition p) (note_size p) (size_modifier p)
    (note_rest_ratio p) (whole_note_period p) (note_period p) (rest_period
    p) (scale p) v (digit p) (number p) (score p) (tones p) (behind p).
Definition set_digit (v : Z) (p : player) : player :=
  mk_player (player_timer p) (player_ptr p) (player_mem_space p)
    (player_enable p) (bookmark p) (state p) (next_state p) (note p) (octave
    p) (accidental p) (transposition p) (note_size p) (size_modifier p)
    (note_rest_ratio p) (whole_note_period p) (note_period p) (rest_period
    p) (scale p) (ch p) v (number p) (score p) (tones p) (behind p).
Definition set_number (v : Z) (p : player) : player :=
  mk_player (player_timer p) (player_ptr p) (player_mem_space p)
    (player_enable p) (bookmark p) (state p) (next_state p) (note p) (octave
    p) (accidental p) (transposition p) (note_size p) (size_modifier p)
    (note_rest_ratio p) (whole_note_period p) (note_period p) (rest_period
    p) (scale p) (ch p) (digit p) v (score p) (tones p) (behind p).
Definition set_score (v : list Z) (p : player) : player :=
  mk_player (player_timer p) (player_ptr p) (player_mem_space p)
    (player_enable p) (bookmark p) (state p) (next_state p) (note p) (octave
    p) (accidental p) (transposition p) (note_size p) (size_modifier p)
    (note_rest_ratio p) (whole_note_period p) (note_period p) (rest_period
    p) (scale p) (ch p) (digit p) (number p) v (tones p) (behind p).
Definition set_tones (v : list tone_event) (p : player) : player :=
  mk_player (player_timer p) (player_ptr p) (player_mem_space p)
    (player_enable p) (bookmark p) (state p) (next_state p) (note p) (octave
    p) (accidental p) (transposition p) (note_size p) (size_modifier p)
    (note_rest_ratio p) (whole_note_period p) (note_period p) (rest_period
    p) (scale p) (ch p) (digit p) (number p) (score p) v (behind p).
Definition set_behind (v : Z -> Z) (p : player) : player :=
  mk_player (player_timer p) (player_ptr p) (player_mem_space p)
    (player_enable p) (bookmark p) (state p) (next_state p) (note p) (octave
    p) (accidental p) (transposition p) (note_size p) (size_modifier p)
    (note_rest_ratio p) (whole_note_period p) (note_period p) (rest_period
    p) (scale p) (ch p) (digit p) (number p) (score p) (tones p) v.

Declare Scope player_scope.
Notation "p <| s := v |>" := (s v p)
  (at level 1, s at level 0, left associativity, only parsing) : player_scope.
Open Scope player_scope.

Definition beep_period (per presc : Z) (p : player) : player :=
  p <| set_tones := tones p ++ [BeepPeriod per presc] |>.

Definition beep_mute (mute : Z) (p : player) : player :=
  p <| set_tones := tones p ++ [BeepMute mute] |>.

Definition beep_gain (gain : Z) (p : player) : player :=
  p <| set_tones := tones p ++ [BeepGain gain] |>.

(** The byte at offset [ptr] from the start of the play string [mem].  The
    string is followed by its null byte, at offset [length mem].  What
    lies before the string and behind the null byte is not the string's:
    the code reads whatever the memory holds there, which the map
    [unknown] stands for. *)
Definition read_byte (mem : list Z) (unknown : Z -> Z) (ptr : Z) : Z :=
  if (0 <=? ptr) && (ptr <? Z.of_nat (length mem))
  then nth (Z.to_nat ptr) mem 0
  else if ptr =? Z.of_nat (length mem) then 0
  else uint8 (unknown ptr).

Definition next_player_char (p : player) : Z * player :=
  let data :=
    match player_mem_space p with
    | PLAYER_MEM_RAM => read_byte (score p) (behind p) (player_ptr p)
    | PLAYER_MEM_PGM => read_byte (score p) (behind p) (player_ptr p)
    | PLAYER_MEM_EEPROM => read_byte (score p) (behind p) (player_ptr p)
    | PLAYER_MEM_UNKNOWN => 0
    end in
  let data1 :=
    if (data >=? chr "a") && (data <=? chr "z") then Z.land data 223
    else data in
  (data1, p <| set_player_ptr := player_ptr p + 1 |>).

(** [bookmark[i]]; outside the array the C code would read unrelated
    memory, modelled as an unset bookmark. *)
Definition bookmark_at (p : player) (i : Z) : bookmark_t :=
  if i <? 0 then mk_bookmark None 0
  else
    match bookmark p !! Z.to_nat i with
    | Some b => b
    | None => mk_bookmark None 0
    end.

(** [bookmark[i] = b]; an index outside the array writes unrelated memory
    in C and changes nothing here. *)
Definition set_bookmark_at (i : Z) (b : bookmark_t) (p : player) : player :=
  if i <? 0 then p
  else p <| set_bookmark := <[Z.to_nat i := b]> (bookmark p) |>.

(** ** find_bookmark *)

(** [while (is_digit(ch)) { ... }] of [find_bookmark]; [ch] is a
    [uint8_t] and [rep] a [uint16_t] there. *)
Fixpoint find_bookmark_digits (fuel : nat) (c rep : Z) (p : player)
  : option (Z * Z * player) :=
  if is_digit c then
    match fuel with
    | O => None
    | S f =>
        let c1 := uint8 (c - chr "0") in
        let rep1 := uint16 (rep * 10 + c1) in
        let '(c2, p1) := next_player_char p in
        find_bookmark_digits f c2 rep1 p1
    end
  else Some (c, rep, p).

(** The [do ... while (ch && !found_mark)] loop; the result is the final
    [found_mark]. *)
Fixpoint find_bookmark_loop (fuel : nat) (search_mark found_mark : Z)
  (p : player) : option (Z * player) :=
  match fuel with
  | O => None
  | S f =>
      let again (c found : Z) (q : player) :=
        if nonzero c && negb (nonzero found)
        then find_bookmark_loop f search_mark found q
        else Some (found, q) in
      let '(c, p1) := next_player_char p in
      if is_bookmark c then
        let '(mark, p2) := next_player_char p1 in
        let parse (mark1 : Z) :=
          let '(c1, p3) := next_player_char p2 in
          let '(c2, p4) :=
            if is_separator c1 then next_player_char p3 else (c1, p3) in
          match find_bookmark_digits f c2 0 p4 with
          | None => None
          | Some (c3, rep, p5) =>
              let p6 := p5 <| set_player_ptr := player_ptr p5 - 1 |> in
              let rep1 := if rep >? 254 then 254 else rep in
              let rep2 := if negb (nonzero rep1) then 255 else rep1 in
              let found := if mark1 =? search_mark then 1 else 0 in
              let p7 :=
                if nonzero found || (search_mark =? 255)
                then set_bookmark_at mark1
                       (mk_bookmark (Some (player_ptr p6)) (uint8 rep2)) p6
                else p6 in
              again c3 found p7
          end in
        if is_separator mark then parse 0
        else if is_digit c then parse (uint8 (mark - chr "0"))
        else again c found_mark p2
      else again c found_mark p1
  end.

(** [find_bookmark(search_mark)]: the pointer returned ([None] for the
    null pointer) and the state, [player_ptr] restored. *)
Definition find_bookmark (fuel : nat) (search_mark : Z) (p : player)
  : option (option Z * player) :=
  let save_ptr := player_ptr p in
  match find_bookmark_loop fuel search_mark 0 p with
  | None => None
  | Some (found_mark, p1) =>
      let return_ptr := player_ptr p1 in
      let p2 := p1 <| set_player_ptr := save_ptr |> in
      Some (if negb (nonzero found_mark) then None else Some return_ptr, p2)
  end.

Definition player_stop (p : player) : player :=
  beep_period 255 PRESCALE_STOP
    (beep_mute 1 (p <| set_player_enable := PLAYER_STOP |>)).

Definition player_is_stopped (p : player) : bool :=
  player_enable p =? PLAYER_STOP.

(** [player_start(str, mem_space)]: [str] becomes the play string and
    [player_ptr] points to its first byte. *)
Definition player_start (fuel : nat) (str : list Z)
  (mem_space : player_space_t) (p : player) : option player :=
  let p1 := player_stop p in
  let p2 := p1 <| set_score := str |> <| set_player_ptr := 0 |>
               <| set_player_mem_space := mem_space |> in
  let p3 := p2 <| set_bookmark :=
                    replicate (Z.to_nat NUM_BOOKMARKS) (mk_bookmark None 0) |> in
  match find_bookmark fuel 255 p3 with
  | None => None
  | Some (_, p4) => Some (p4 <| set_player_enable := PLAYER_INIT |>)
  end.

(** ** player_service *)

Definition c_major_scale : list Z := [9; 11; 0; 2; 4; 5; 7].

(** How an iteration of the [do ... while (1)] loop ends. *)
Inductive flow := Continue | Break.

(** [while (is_digit(ch)) { ... }] of the GET NUMBER 2 state; [ch] is an
    [int8_t] and [number] a [uint16_t] there. *)
Fixpoint get_number_digits (fuel : nat) (p : player) : option player :=
  if is_digit (ch p) then
    match fuel with
    | O => None
    | S f =>
        let c1 := sint8 (ch p - chr "0") in
        let p1 := p <| set_number := uint16 (number p * 10 + c1) |> in
        let '(c2, p2) := next_player_char p1 in
        get_number_digits f (p2 <| set_ch := sint8 c2 |>)
    end
  else Some p.

Definition state_reset (p : player) : player :=
  let p1 := p <| set_scale := c_major_scale |> <| set_digit := 7 |>
              <| set_note := 0 |> <| set_octave := 4 |>
              <| set_accidental := ACCIDENTAL_NATURAL |>
              <| set_transposition := 0 |> <| set_note_size := 4 |>
              <| set_size_modifier := 0 |> <| set_note_rest_ratio := 7 |>
              <| set_whole_note_period :=
                   uint16 (uint32 (uint16 (PLAYER_TICKS_PER_SECOND * 60)
                                   * DEFAULT_BEAT) / DEFAULT_TEMPO) |>
              <| set_player_timer := 0 |> in
  let p2 := beep_gain 5 (beep_mute 0 (beep_period 255 PRESCALE_STOP p1)) in
  p2 <| set_player_enable := PLAYER_RUN |> <| set_state := STATE_GET_NOTE |>.

Definition state_get_note (p : player) : player :=
  let '(c0, p1) := next_player_char p in
  let c := sint8 c0 in
  let p2 := p1 <| set_ch := c |> in
  if is_separator c then p2
  else if is_note c then
    let c1 := sint8 (c - chr "A") in
    p2 <| set_ch := c1 |> <| set_note := nth (Z.to_nat c1) (scale p2) 0 |>
       <| set_accidental := ACCIDENTAL_NATURAL |>
       <| set_state := STATE_GET_MODIFIER |>
       <| set_next_state := STATE_START_NOTE |>
  else if is_rest c then
    p2 <| set_note := sint8 NOTE_IS_REST |>
       <| set_state := STATE_GET_MODIFIER |>
       <| set_next_state := STATE_START_NOTE |>
  else if is_repeat_note c then p2 <| set_state := STATE_START_NOTE |>
  else if is_octave_cmd c then
    p2 <| set_state := STATE_GET_DIGIT |>
       <| set_next_state := STATE_SET_OCTAVE |>
  else if is_octave_up c then
    if octave p2 <? OCTAVES - 1
    then p2 <| set_octave := sint8 (octave p2 + 1) |> else p2
  else if is_octave_down c then
    if octave p2 >? 0
    then p2 <| set_octave := sint8 (octave p2 - 1) |> else p2
  else if is_ratio_cmd c then
    p2 <| set_state := STATE_GET_DIGIT |>
       <| set_next_state := STATE_SET_NOTE_RATIO |>
  else if is_volume_cmd c then
    p2 <| set_state := STATE_GET_DIGIT |>
       <| set_next_state := STATE_SET_VOLUME |>
  else if is_transpose_cmd c then
    (* no [continue] in this branch: control reaches the end of the state *)
    p2 <| set_state := STATE_GET_NUMBER |>
       <| set_next_state := STATE_SET_TRANSPOSITION |>
       <| set_state := STATE_STOP |>
  else if is_key_cmd c then p2 <| set_state := STATE_SET_KEY |>
  else if is_tempo_cmd c then
    let p3 := p2 <| set_note_size := DEFAULT_BEAT |>
                 <| set_size_modifier := 0 |> in
    let '(c1, p4) := next_player_char p3 in
    let c2 := sint8 c1 in
    let p5 := p4 <| set_ch := c2 |> in
    if is_separator c2 || is_digit c2 then
      p5 <| set_player_ptr := player_ptr p5 - 1 |>
         <| set_state := STATE_GET_NUMBER |>
         <| set_next_state := STATE_SET_TEMPO_2 |>
    else
      p5 <| set_state := STATE_GET_MODIFIER |>
         <| set_next_state := STATE_SET_TEMPO |>
  else if is_bookmark c then
    p2 <| set_state := STATE_GET_DIGIT |>
       <| set_next_state := STATE_SET_BOOKMARK |>
  else if is_goto_mark c then
    p2 <| set_state := STATE_GET_DIGIT |>
       <| set_next_state := STATE_GOTO_BOOKMARK |>
  else if is_reset_cmd c then p2 <| set_state := STATE_RESET |>
  else if negb (nonzero c) then
    p2 <| set_player_ptr := player_ptr p2 - 1 |> <| set_state := STATE_STOP |>
  else p2 <| set_state := STATE_STOP |>.

Definition state_get_modifier (p : player) : player :=
  let '(c0, p1) := next_player_char p in
  let c := sint8 c0 in
  let p2 := p1 <| set_ch := c |> in
  if is_separator c then p2 <| set_state := next_state p2 |>
  else if is_octave_mod c then p2 <| set_octave := sint8 (c - chr "0") |>
  else if is_dotted c then
    p2 <| set_size_modifier := Z.lor (size_modifier p2) MOD_DOTTED |>
  else if is_triplet c then
    p2 <| set_size_modifier := Z.lor (size_modifier p2) MOD_TRIPLET |>
  else if is_tied c then
    p2 <| set_size_modifier := Z.lor (size_modifier p2) MOD_TIED |>
  else if is_staccato c then
    p2 <| set_size_modifier := Z.lor (size_modifier p2) MOD_STACCATO |>
  else if is_flat c then p2 <| set_accidental := ACCIDENTAL_FLAT |>
  else if is_natural c then p2 <| set_accidental := ACCIDENTAL_NATURAL |>
  else if is_sharp c then p2 <| set_accidental := ACCIDENTAL_SHARP |>
  else if is_whole c then
    p2 <| set_note_size := NOTE_WHOLE |> <| set_size_modifier := 0 |>
  else if is_half c then
    p2 <| set_note_size := NOTE_HALF |> <| set_size_modifier := 0 |>
  else if is_quarter c then
    p2 <| set_note_size := NOTE_QUARTER |> <| set_size_modifier := 0 |>
  else if is_8th c then
    p2 <| set_note_size := NOTE_8TH |> <| set_size_modifier := 0 |>
  else if is_16th c then
    p2 <| set_note_size := NOTE_16TH |> <| set_size_modifier := 0 |>
  else if is_32nd c then
    p2 <| set_note_size := NOTE_32ND |> <| set_size_modifier := 0 |>
  else
    p2 <| set_player_ptr := player_ptr p2 - 1 |>
       <| set_state := next_state p2 |>.

Definition state_start_note (p : player) : player :=
  let rest0 := whole_note_period p in
  let rest1 :=
    if nonzero (Z.land (size_modifier p) MOD_DOTTED)
    then uint16 (rest0 + Z.shiftr rest0 1) else rest0 in
  let rest2 :=
    if nonzero (Z.land (size_modifier p) MOD_TRIPLET)
    then rest1 / 3 else rest1 in
  let rest3 := rest2 / note_size p in
  let p1 := p <| set_rest_period := rest3 |> in
  if note p1 =? NOTE_IS_REST then p1 <| set_state := STATE_START_REST |>
  else
    let d :=
      if nonzero (Z.land (size_modifier p1) MOD_TIED) then 8
      else if nonzero (Z.land (size_modifier p1) MOD_STACCATO) then 2
      else sint8 (note_rest_ratio p1) in
    let note_per := Z.shiftr (uint16 (rest3 * uint16 d)) 3 in
    let p2 := p1 <| set_note_period := note_per |>
                 <| set_rest_period := uint16 (rest3 - note_per) |> in
    let d1 := sint8 (note p2 + accidental p2 + transposition p2) in
    let c1 := octave p2 in
    let '(d2, c2) :=
      if d1 <? 0 then (sint8 (d1 + NOTES_PER_OCTAVE), sint8 (c1 - 1))
      else if d1 >=? NOTES_PER_OCTAVE
      then (sint8 (d1 - NOTES_PER_OCTAVE), sint8 (c1 + 1))
      else (d1, c1) in
    let c3 := if c2 <? 0 then 0 else if c2 >=? OCTAVES then OCTAVES - 1 else c2 in
    let n := note_at c3 d2 in
    let p3 := p2 <| set_ch := c3 |> <| set_number := period n |>
                 <| set_digit := sint8 (prescale n) |> in
    (beep_period (number p3) (digit p3) p3) <| set_state := STATE_WAIT_NOTE |>.

Definition state_wait_note (p : player) : player * flow :=
  if player_timer p <? note_period p then (p, Break)
  else
    let p1 := p <| set_player_timer :=
                     uint16 (player_timer p - note_period p) |> in
    (if nonzero (rest_period p1) then p1 <| set_state := STATE_START_REST |>
     else p1 <| set_state := STATE_GET_NOTE |>, Continue).

Definition state_start_rest (p : player) : player :=
  (beep_period 255 PRESCALE_STOP p) <| set_state := STATE_WAIT_REST |>.

Definition state_wait_rest (p : player) : player * flow :=
  if player_timer p <? rest_period p then (p, Break)
  else
    (p <| set_player_timer := uint16 (player_timer p - rest_period p) |>
       <| set_state := STATE_GET_NOTE |>, Continue).

Definition state_get_digit (p : player) : player :=
  let p1 := p <| set_state := next_state p |> in
  let '(c0, p2) := next_player_char p1 in
  let d := sint8 c0 in
  if is_separator d then p2 <| set_digit := 0 |>
  else if is_digit d then p2 <| set_digit := sint8 (d - chr "0") |>
  else p2 <| set_digit := d |> <| set_state := STATE_STOP |>.

Definition state_get_number (p : player) : player :=
  let p1 := p <| set_number := 0 |> in
  let '(c0, p2) := next_player_char p1 in
  let '(c1, p3) :=
    if is_separator (sint8 c0) then next_player_char p2 else (c0, p2) in
  p3 <| set_ch := sint8 c1 |> <| set_state := STATE_GET_NUMBER_2 |>.

Definition state_get_number_2 (fuel : nat) (p : player) : option player :=
  match get_number_digits fuel p with
  | None => None
  | Some p1 =>
      Some (p1 <| set_player_ptr := player_ptr p1 - 1 |>
               <| set_state := next_state p1 |>)
  end.

Definition state_set_octave (p : player) : player :=
  p <| set_octave := digit p |> <| set_state := STATE_GET_NOTE |>.

Definition state_set_note_ratio (p : player) : player :=
  let d := if digit p >? 8 then 8 else digit p in
  p <| set_digit := d |> <| set_note_rest_ratio := uint8 d |>
    <| set_state := STATE_GET_NOTE |>.

Definition state_set_volume (p : player) : player :=
  if digit p =? 0 then (beep_mute 1 p) <| set_state := STATE_GET_NOTE |>
  else
    let d := sint8 (digit p - 1) in
    let d1 := if d >? 7 then 7 else d in
    (beep_mute 0 (beep_gain (uint8 d1) (p <| set_digit := d1 |>)))
      <| set_state := STATE_GET_NOTE |>.

Definition state_set_transposition (p : player) : player :=
  (if number p <? NOTES_PER_OCTAVE
   then p <| set_transposition := sint8 (number p) |>
   else p <| set_transposition := 0 |>)
    <| set_state := STATE_GET_NOTE |>.

Definition state_set_key (p : player) : player :=
  p <| set_scale := c_major_scale |> <| set_digit := 7 |>
    <| set_accidental := ACCIDENTAL_SHARP |>
    <| set_state := STATE_SET_KEY_2 |>.

Definition state_set_key_2 (p : player) : player :=
  let '(c0, p1) := next_player_char p in
  let c := sint8 c0 in
  let p2 := p1 <| set_ch := c |> in
  if is_note c then
    let c1 := sint8 (c - chr "A") in
    let d := sint8 (nth (Z.to_nat c1) c_major_scale 0 + accidental p2) in
    p2 <| set_ch := c1 |> <| set_digit := d |>
       <| set_scale := <[Z.to_nat c1 := d]> (scale p2) |>
  else if is_flat c then p2 <| set_accidental := ACCIDENTAL_FLAT |>
  else if is_natural c then p2 <| set_accidental := ACCIDENTAL_NATURAL |>
  else if is_sharp c then p2 <| set_accidental := ACCIDENTAL_SHARP |>
  else
    p2 <| set_player_ptr := player_ptr p2 - 1 |>
       <| set_state := STATE_GET_NOTE |>.

Definition state_set_tempo (p : player) : player :=
  p <| set_state := STATE_GET_NUMBER |>
    <| set_next_state := STATE_SET_TEMPO_2 |>.

Definition state_set_tempo_2 (p : player) : player :=
  let n := if negb (nonzero (number p)) then DEFAULT_TEMPO else number p in
  let w0 :=
    uint16 (uint32 (uint16 (PLAYER_TICKS_PER_SECOND * 60) * note_size p) / n) in
  let w1 :=
    if nonzero (Z.land (size_modifier p) MOD_DOTTED)
    then uint16 (w0 + Z.shiftr w0 1) else w0 in
  let w2 :=
    if nonzero (Z.land (size_modifier p) MOD_TRIPLET) then w1 / 3 else w1 in
  p <| set_number := n |> <| set_whole_note_period := w2 |>
    <| set_state := STATE_GET_NOTE |>.

Definition state_set_bookmark (p : player) : player :=
  p <| set_state := STATE_GET_NUMBER |>
    <| set_next_state := STATE_SET_BOOKMARK_2 |>.

Definition state_set_bookmark_2 (p : player) : player :=
  let n1 := if number p >? 254 then 254 else number p in
  let n2 := if negb (nonzero n1) then 255 else n1 in
  (set_bookmark_at (digit p) (mk_bookmark (Some (player_ptr p)) (uint8 n2))
     (p <| set_number := n2 |>))
    <| set_state := STATE_GET_NOTE |>.

(** Whether [']'] jumps: the bookmark's repeat counter is non-zero and
    its position is not the null pointer. *)
Definition jump_enabled (b : bookmark_t) : bool :=
  nonzero (repeat b) && match position b with Some _ => true | None => false end.

Definition state_goto_bookmark (p : player) : player :=
  let b := bookmark_at p (digit p) in
  (if jump_enabled b then
     let p1 :=
       if negb (repeat b =? 255)
       then set_bookmark_at (digit p)
              (mk_bookmark (position b) (uint8 (repeat b - 1))) p
       else p in
     match position b with
     | Some pos => p1 <| set_player_ptr := pos |>
     | None => p1
     end
   else p)
    <| set_state := STATE_GET_NOTE |>.

Definition state_stop (p : player) : player :=
  (player_stop p) <| set_state := STATE_RESET |>.

(** One iteration of the [do ... while (1)] loop. *)
Definition service_step (fuel : nat) (p : player) : option (player * flow) :=
  if match state p with STATE_RESET => true | _ => false end
     || (player_enable p =? PLAYER_INIT)
  then Some (state_reset p, Continue)
  else
    match state p with
    | STATE_RESET => Some (state_reset p, Continue)
    | STATE_GET_NOTE => Some (state_get_note p, Continue)
    | STATE_GET_MODIFIER => Some (state_get_modifier p, Continue)
    | STATE_START_NOTE => Some (state_start_note p, Continue)
    | STATE_WAIT_NOTE => Some (state_wait_note p)
    | STATE_START_REST => Some (state_start_rest p, Continue)
    | STATE_WAIT_REST => Some (state_wait_rest p)
    | STATE_GET_DIGIT => Some (state_get_digit p, Continue)
    | STATE_GET_NUMBER => Some (state_get_number p, Continue)
    | STATE_GET_NUMBER_2 =>
        match state_get_number_2 fuel p with
        | None => None
        | Some p1 => Some (p1, Continue)
        end
    | STATE_SET_OCTAVE => Some (state_set_octave p, Continue)
    | STATE_SET_NOTE_RATIO => Some (state_set_note_ratio p, Continue)
    | STATE_SET_VOLUME => Some (state_set_volume p, Continue)
    | STATE_SET_TRANSPOSITION => Some (state_set_transposition p, Continue)
    | STATE_SET_KEY => Some (state_set_key p, Continue)
    | STATE_SET_KEY_2 => Some (state_set_key_2 p, Continue)
    | STATE_SET_TEMPO => Some (state_set_tempo p, Continue)
    | STATE_SET_TEMPO_2 => Some (state_set_tempo_2 p, Continue)
    | STATE_SET_BOOKMARK => Some (state_set_bookmark p, Continue)
    | STATE_SET_BOOKMARK_2 => Some (state_set_bookmark_2 p, Continue)
    | STATE_GOTO_BOOKMARK => Some (state_goto_bookmark p, Continue)
    | STATE_STOP => Some (state_stop p, Break)
    end.

Fixpoint service_loop (fuel : nat) (p : player) : option player :=
  match fuel with
  | O => None
  | S f =>
      match service_step f p with
      | None => None
      | Some (p1, Break) => Some p1
      | Some (p1, Continue) => service_loop f p1
      end
  end.

(** One call of [player_service], from the tick interrupt.  The loop may
    go on for ever (a play string that jumps without ever playing a note),
    so the model takes [fuel] and returns [None] when it runs out. *)
Definition player_service (fuel : nat) (p : player) : option player :=
  if player_enable p =? PLAYER_STOP then Some p
  else
    service_loop fuel
      (p <| set_number := 0 |> <| set_digit := 0 |> <| set_ch := 0 |>
         <| set_player_timer := uint16 (player_timer p + 1) |>).

(** [ticks] calls of [player_service] in a row. *)
Fixpoint player_ticks (ticks fuel : nat) (p : player) : option player :=
  match ticks with
  | O => Some p
  | S t =>
      match player_service fuel p with
      | None => None
      | Some p1 => player_ticks t fuel p1
      end
  end.

(** The state after power-up: all variables zero, nothing played yet.
    The memory around the play string is not a variable of the program;
    the states built from this one have zero bytes there. *)
Definition power_up : player :=
  mk_player 0 0 PLAYER_MEM_RAM PLAYER_STOP
    (replicate (Z.to_nat NUM_BOOKMARKS) (mk_bookmark None 0))
    STATE_RESET STATE_RESET 0 0 0 0 0 0 0 0 0 0 (replicate 7 0) 0 0 0 [] []
    (fun _ => 0).

(** Number of times the tone generator was programmed with [n]. *)
Definition count_tone (n : note_t) (l : list tone_event) : nat :=
  length
    (List.filter
       (fun e => tone_event_eqb e (BeepPeriod (period n) (prescale n))) l).

(** [n] executions of the GOTO BOOKMARK state for bookmark [d] in a row
    and the number of them that jumped. *)
Fixpoint count_jumps (n : nat) (d : Z) (p : player) : nat :=
  match n with
  | O => O
  | S n' =>
      ((if jump_enabled (bookmark_at p d) then 1 else 0)
       + count_jumps n' d (state_goto_bookmark (p <| set_digit := d |>)))%nat
  end.

(** The same [n] executions, each entered with [player_ptr] at [here],
    behind the jump command: where [player_ptr] points after each of them,
    and the state after the last. *)
Fixpoint goto_bookmark_run (n : nat) (d here : Z) (p : player)
  : list Z * player :=
  match n with
  | O => ([], p)
  | S n' =>
      let q :=
        state_goto_bookmark
          (p <| set_player_ptr := here |> <| set_digit := d |>) in
      let '(ptrs, q') := goto_bookmark_run n' d here q in
      (player_ptr q :: ptrs, q')
  end.

(** The score of the bookmark loop scenario. *)
Definition loop_score : list Z := bytes_of_string "[0:3:C]0:".

(** The note C of the default octave 4. *)
Definition note_C : note_t := note_at 4 0.

(** A player in the middle of a score, bookmark 3 set with repeat count 12. *)
Definition marked_player : player :=
  set_bookmark_at 3 (mk_bookmark (Some 7) 12) power_up.

(** The number of characters from [player_ptr] to the end of the play
    string. *)
Definition chars_left (p : player) : Z :=
  Z.max 0 (Z.of_nat (length (score p)) - player_ptr p).

(** The player is about to read a jump [']'] to bookmark [d], and that
    bookmark points at the jump itself with the repeat count that stands
    for "for ever". *)
Definition self_jump (p : player) (d : Z) : Prop :=
  player_enable p = PLAYER_RUN /\ state p = STATE_GET_NOTE /\
  0 <= d <= 9 /\
  fst (next_player_char p) = chr "]" /\
  fst (next_player_char (p <| set_player_ptr := player_ptr p + 1 |>))
  = chr "0" + d /\
  bookmark_at p d = mk_bookmark (Some (player_ptr p)) 255.

End Player.

(** * rotary.c: the quadrature decoder *)

Module Rotary.

(** [rotary_state_t]: the four encoder inputs as last read. *)
Record rotary_state_t := mk_rotary_state {
  left_a : bool;
  left_b : bool;
  right_a : bool;
  right_b : bool
}.

(** The module variables. *)
Record rotary := mk_rotary {
  previous : rotary_state_t;
  left_position : Z;
  left_movement : Z;
  right_position : Z;
  right_movement : Z
}.

Definition rotary_init (r : rotary) : rotary :=
  mk_rotary (mk_rotary_state false false false false) 0 0 0 0.

Definition left_rotary_relative (r : rotary) : Z * rotary :=
  let ret := left_position r in
  (ret, mk_rotary (previous r) 0 (left_movement r) (right_position r)
                  (right_movement r)).

Definition left_rotary_absolute (r : rotary) : Z := left_position r.

(** The value passes through a [uint8_t] on its way out. *)
Definition right_rotary_relative (r : rotary) : Z * rotary :=
  let ret := uint8 (right_position r) in
  (sint8 ret, mk_rotary (previous r) (left_position r) (left_movement r) 0
                        (right_movement r)).

Definition right_rotary_absolute (r : rotary) : Z := right_position r.

(** The pin-change interrupt; [present] is what the four pins read. *)
Definition pcint2_isr (present : rotary_state_t) (r : rotary) : rotary :=
  let '(lpos, lmov) :=
    if negb (Bool.eqb (left_b present) (left_b (previous r))) then
      let pos :=
        if left_b present then
          if left_a present then sint8 (left_position r + 1)
          else sint8 (left_position r - 1)
        else
          if left_a present then sint8 (left_position r - 1)
          else sint8 (left_position r + 1) in
      (pos, uint8 (left_movement r + 1))
    else (left_position r, left_movement r) in
  let '(rpos, rmov) :=
    if negb (Bool.eqb (right_b present) (right_b (previous r))) then
      let pos :=
        if right_b present then
          if right_a present then sint8 (right_position r + 1)
          else sint8 (right_position r - 1)
        else
          if right_a present then sint8 (right_position r - 1)
          else sint8 (right_position r + 1) in
      (pos, uint8 (right_movement r + 1))
    else (right_position r, right_movement r) in
  mk_rotary present lpos lmov rpos rmov.

(** The interrupt run on a sequence of pin readings. *)
Definition pcint2_run (readings : list rotary_state_t) (r : rotary) : rotary :=
  fold_left (fun q present => pcint2_isr present q) readings r.

(** A signed 8-bit value. *)
Definition int8_ok (x : Z) : Prop := -128 <= x <= 127.

(** The counts one edge on the left B input is worth: +1 when the new B
    level equals A, -1 when it differs. *)
Definition edge_delta (a b : bool) : Z := if Bool.eqb a b then 1 else -1.

End Rotary.

(** * timer.c: the event timers *)

Module Timer.

Definition TIMER0_PERIOD_TICKS : Z := 100.
Definition TIMER0_PRESCALER : Z := 256.
Definition TIMER0_FREQUENCY : Z :=
  16000000 / TIMER0_PRESCALER / TIMER0_PERIOD_TICKS.
Definition NUM_EVENT_TIMERS : Z := 8.

Definition MS_TO_TICKS (x : Z) : Z := x * TIMER0_FREQUENCY / 1000.

(** The module variables. *)
Record timers := mk_timers {
  seconds_prescaler : Z;
  timer_count : list Z;
  timer_period : list Z;
  timer_flag : Z
}.

Definition set_seconds_prescaler (v : Z) (t : timers) : timers :=
  mk_timers v (timer_count t) (timer_period t) (timer_flag t).
Definition set_timer_count (v : list Z) (t : timers) : timers :=
  mk_timers (seconds_prescaler t) v (timer_period t) (timer_flag t).
Definition set_timer_period (v : list Z) (t : timers) : timers :=
  mk_timers (seconds_prescaler t) (timer_count t) v (timer_flag t).
Definition set_timer_flag (v : Z) (t : timers) : timers :=
  mk_timers (seconds_prescaler t) (timer_count t) (timer_period t) v.

(** [timer_count[i]] and [timer_period[i]]; an index outside the arrays
    reads unrelated memory in C, modelled as 0. *)
Definition count_at (t : timers) (i : Z) : Z :=
  if i <? 0 then 0 else nth (Z.to_nat i) (timer_count t) 0.
Definition period_at (t : timers) (i : Z) : Z :=
  if i <? 0 then 0 else nth (Z.to_nat i) (timer_period t) 0.

(** [timer_flag &= (uint8_t) ~(1 << timer_id)] *)
Definition clear_flag (timer_id : Z) (t : timers) : timers :=
  set_timer_flag
    (Z.land (timer_flag t) (uint8 (Z.lnot (Z.shiftl 1 timer_id)))) t.

(** The hardware registers set by [timer_init] are outside the model. *)
Definition timer_init (t : timers) : timers :=
  set_seconds_prescaler TIMER0_FREQUENCY t.

(** The body shared by [timer_start] and [timer_restart]. *)
Definition arm (timer_id period recurring : Z) (t : timers) : timers :=
  let t1 :=
    set_timer_count (<[Z.to_nat timer_id := period]> (timer_count t)) t in
  let t2 :=
    if nonzero recurring
    then set_timer_period (<[Z.to_nat timer_id := period]> (timer_period t1)) t1
    else t1 in
  clear_flag timer_id t2.

(** The [for] loop of [timer_start], [n] slots left to look at. *)
Fixpoint timer_start_loop (n : nat) (timer_id period recurring : Z)
  (t : timers) : Z * timers :=
  match n with
  | O => (uint8 (-1), t)
  | S n' =>
      if negb (nonzero (count_at t timer_id))
         && negb (nonzero (period_at t timer_id))
      then (timer_id, arm timer_id period recurring t)
      else timer_start_loop n' (timer_id + 1) period recurring t
  end.

Definition timer_start (period recurring : Z) (t : timers) : Z * timers :=
  timer_start_loop (Z.to_nat NUM_EVENT_TIMERS) 0 period recurring t.

Definition timer_stop (timer_id : Z) (t : timers) : timers :=
  set_timer_period (<[Z.to_nat timer_id := 0]> (timer_period t))
    (set_timer_count (<[Z.to_nat timer_id := 0]> (timer_count t)) t).

Definition timer_restart (timer_id period recurring : Z) (t : timers)
  : timers :=
  arm timer_id period recurring t.

Definition timer_reset (timer_id : Z) (t : timers) : timers :=
  clear_flag timer_id
    (set_timer_count
       (<[Z.to_nat timer_id := period_at t timer_id]> (timer_count t)) t).

Definition timer_read (timer_id : Z) (t : timers) : Z := count_at t timer_id.

Definition timer_expired (timer_id reset : Z) (t : timers) : Z * timers :=
  let flag := Z.land (uint8 (Z.shiftl 1 timer_id)) (timer_flag t) in
  let t1 :=
    if nonzero reset
    then set_timer_flag (Z.land (timer_flag t) (uint8 (Z.lnot flag))) t
    else t in
  (if nonzero flag then 1 else 0, t1).

Definition timer_status (t : timers) : Z := timer_flag t.

(** One round of the loop of [timer_update]. *)
Definition timer_update_slot (index : nat) (mask : Z) (t : timers) : timers :=
  let count := nth index (timer_count t) 0 in
  if nonzero count then
    let count1 := uint16 (count - 1) in
    if negb (nonzero count1) then
      set_timer_count
        (<[index := nth index (timer_period t) 0]> (timer_count t))
        (set_timer_flag (Z.lor (timer_flag t) mask) t)
    else set_timer_count (<[index := count1]> (timer_count t)) t
  else t.

Fixpoint timer_update_loop (n index : nat) (mask : Z) (t : timers) : timers :=
  match n with
  | O => t
  | S n' =>
      timer_update_loop n' (S index) (uint8 (Z.shiftl mask 1))
        (timer_update_slot index mask t)
  end.

Definition timer_update (t : timers) : timers :=
  timer_update_loop (Z.to_nat NUM_EVENT_TIMERS) 0 1 t.

(** [ticks] calls of [timer_update] in a row. *)
Abbreviation timer_updates ticks t := (Nat.iter ticks timer_update t)
  (only parsing).

(** The arrays have their eight entries, each a [uint16_t], and the flag
    register is a byte. *)
Definition timers_ok (t : timers) : Prop :=
  length (timer_count t) = 8%nat /\ length (timer_period t) = 8%nat /\
  Forall (fun v => 0 <= v < 65536) (timer_count t) /\
  Forall (fun v => 0 <= v < 65536) (timer_period t) /\
  0 <= timer_flag t < 256.

(** A slot [timer_start] may hand out. *)
Definition slot_free (t : timers) (i : Z) : Prop :=
  count_at t i = 0 /\ period_at t i = 0.

(** The end of the tick interrupt: the divider that turns the tick into
    the 1 Hz pulse, which advances the clock and queues an event. *)
Definition second_divider (t : timers) (c : Clock.clock) (q : Event.queue)
  : timers * Clock.clock * Event.queue :=
  let sp := uint16 (seconds_prescaler t - 1) in
  if negb (nonzero sp) then
    (set_seconds_prescaler (uint16 (sp + TIMER0_FREQUENCY)) t,
     Clock.time_date_update c,
     Event.add_event Event.ONE_SECOND_ELAPSED 0 q)
  else (set_seconds_prescaler sp t, c, q).

(** [n] ticks seen by the divider alone. *)
Fixpoint second_dividers (n : nat) (t : timers) (c : Clock.clock)
  (q : Event.queue) : timers * Clock.clock * Event.queue :=
  match n with
  | O => (t, c, q)
  | S n' =>
      let '(t1, c1, q1) := second_divider t c q in
      second_dividers n' t1 c1 q1
  end.

(** What one tick does to the count of a slot with reload value
    [period]. *)
Definition count_after_tick (count period : Z) : Z :=
  if count =? 0 then 0 else if count =? 1 then period else count - 1.

(** Whether the expired flag of slot [i] is set. *)
Definition flagged (t : timers) (i : Z) : bool := Z.testbit (timer_flag t) i.

End Timer.

(** * button.c: the button scanner *)

Module Button.

Definition NUM_BUTTONS : Z := 8.
Definition BUTTON_SHORT_DELAY : Z := Timer.MS_TO_TICKS 50.
Definition BUTTON_LONG_DELAY : Z := Timer.MS_TO_TICKS 1000.
Definition BUTTON_CHORD_DELAY : Z := Timer.MS_TO_TICKS 750.

(** What [PINREAD] gives for the eight button inputs: [true] for a
    non-zero value.  The inputs are active low, a pressed button reads
    zero. *)
Record button_pins := mk_button_pins {
  BUTTON0 : bool;
  BUTTON1 : bool;
  BUTTON2 : bool;
  BUTTON3 : bool;
  BUTTON4 : bool;
  BUTTON5 : bool;
  LEFT_BUTTON : bool;
  RIGHT_BUTTON : bool
}.

(** The module variables; a [button_t] is its byte [all], whose bit
    fields avr-gcc allocates from bit 0 upwards. *)
Record buttons := mk_buttons {
  button_scan_enable : Z;
  button_state : Z;
  button_debounced : Z;
  button_chord : Z;
  button_pressed : Z;
  button_released : Z;
  button_short : Z;
  button_long : Z;
  button_previous : Z;
  button_stable : Z;
  button_timer : list Z
}.

Definition set_button_scan_enable (v : Z) (b : buttons) : buttons :=
  mk_buttons v (button_state b) (button_debounced b) (button_chord b)
    (button_pressed b) (button_released b) (button_short b) (button_long b)
    (button_previous b) (button_stable b) (button_timer b).
Definition set_button_state (v : Z) (b : buttons) : buttons :=
  mk_buttons (button_scan_enable b) v (button_debounced b) (button_chord b)
    (button_pressed b) (button_released b) (button_short b) (button_long b)
    (button_previous b) (button_stable b) (button_timer b).
Definition set_button_debounced (v : Z) (b : buttons) : buttons :=
  mk_buttons (button_scan_enable b) (button_state b) v (button_chord b)
    (button_pressed b) (button_released b) (button_short b) (button_long b)
    (button_previous b) (button_stable b) (button_timer b).
Definition set_button_chord (v : Z) (b : buttons) : buttons :=
  mk_buttons (button_scan_enable b) (button_state b) (button_debounced b) v
    (button_pressed b) (button_released b) (button_short b) (button_long b)
    (button_previous b) (button_stable b) (button_timer b).
Definition set_button_pressed (v : Z) (b : buttons) : buttons :=
  mk_buttons (button_scan_enable b) (button_state b) (button_debounced b)
    (button_chord b) v (button_released b) (button_short b) (button_long b)
    (button_previous b) (button_stable b) (button_timer b).
Definition set_button_released (v : Z) (b : buttons) : buttons :=
  mk_buttons (button_scan_enable b) (button_state b) (button_debounced b)
    (button_chord b) (button_pressed b) v (button_short b) (button_long b)
    (button_previous b) (button_stable b) (button_timer b).
Definition set_button_short (v : Z) (b : buttons) : buttons :=
  mk_buttons (button_scan_enable b) (button_state b) (button_debounced b)
    (button_chord b) (button_pressed b) (button_released b) v (button_long
    b) (button_previous b) (button_stable b) (button_timer b).
Definition set_button_long (v : Z) (b : buttons) : buttons :=
  mk_buttons (button_scan_enable b) (button_state b) (button_debounced b)
    (button_chord b) (button_pressed b) (button_released b) (button_short b)
    v (button_previous b) (button_stable b) (button_timer b).
Definition set_button_previous (v : Z) (b : buttons) : buttons :=
  mk_buttons (button_scan_enable b) (button_state b) (button_debounced b)
    (button_chord b) (button_pressed b) (button_released b) (button_short b)
    (button_long b) v (button_stable b) (button_timer b).
Definition set_button_stable (v : Z) (b : buttons) : buttons :=
  mk_buttons (button_scan_enable b) (button_state b) (button_debounced b)
    (button_chord b) (button_pressed b) (button_released b) (button_short b)
    (button_long b) (button_previous b) v (button_timer b).
Definition set_button_timer (v : list Z) (b : buttons) : buttons :=
  mk_buttons (button_scan_enable b) (button_state b) (button_debounced b)
    (button_chord b) (button_pressed b) (button_released b) (button_short b)
    (button_long b) (button_previous b) (button_stable b) v.

(** The loop of [reset_buttons] over the debounce timers. *)
Definition reset_button_timers (l : list Z) : list Z :=
  fold_left (fun l index => <[index := 0]> l)
    (seq 0 (Z.to_nat NUM_BUTTONS)) l.

(** [button_stable] is not among the variables that are reset. *)
Definition reset_buttons (b : buttons) : buttons :=
  mk_buttons 1 0 0 0 0 0 0 0 0 (button_stable b)
    (reset_button_timers (button_timer b)).

Definition button_enable (enable : Z) (b : buttons) : buttons :=
  set_button_scan_enable enable b.

Definition read_button_state (b : buttons) : Z := button_state b.
Definition read_button_debounced (b : buttons) : Z := button_debounced b.
Definition read_button_chord (b : buttons) : Z := button_chord b.
Definition reset_button_chord (b : buttons) : Z * buttons :=
  (button_chord b, set_button_chord 0 b).
Definition read_buttons_pressed (b : buttons) : Z := button_pressed b.
Definition reset_buttons_pressed (b : buttons) : Z * buttons :=
  (button_pressed b, set_button_pressed 0 b).
Definition read_buttons_released (b : buttons) : Z := button_released b.
Definition reset_buttons_released (b : buttons) : Z * buttons :=
  (button_released b, set_button_released 0 b).
Definition read_short_buttons (b : buttons) : Z := button_short b.
Definition reset_short_buttons (b : buttons) : Z * buttons :=
  (button_short b, set_button_short 0 b).
Definition read_long_buttons (b : buttons) : Z := button_long b.
Definition reset_long_buttons (b : buttons) : Z * buttons :=
  (button_long b, set_button_long 0 b).

(** [button.<field> = 0] for the bit field at bit [k], done when the pin
    reads non-zero. *)
Definition clear_field (pin : bool) (k : Z) (all : Z) : Z :=
  if pin then Z.land all (uint8 (Z.lnot (Z.shiftl 1 k))) else all.

(** The local [button] of [button_scan] after the pins are read. *)
Definition read_pins (p : button_pins) : Z :=
  let b0 := 255 in
  let b1 := clear_field (BUTTON0 p) 0 b0 in
  let b2 := clear_field (BUTTON1 p) 1 b1 in
  let b3 := clear_field (BUTTON2 p) 2 b2 in
  let b4 := clear_field (BUTTON3 p) 3 b3 in
  let b5 := clear_field (BUTTON4 p) 4 b4 in
  let b6 := clear_field (BUTTON5 p) 5 b5 in
  let b7 := clear_field (LEFT_BUTTON p) 6 b6 in
  clear_field (RIGHT_BUTTON p) 7 b7.

(** The chord check of [button_scan]. *)
Definition scan_chord (button : Z) (b : buttons) : buttons :=
  if button =? button_previous b then
    let b1 :=
      if nonzero (uint16 (Z.lnot (button_stable b)))
      then set_button_stable (uint16 (button_stable b + 1)) b
      else b in
    if button_stable b1 =? BUTTON_CHORD_DELAY
    then set_button_chord button b1
    else b1
  else set_button_stable 0 b.

(** One round of the loop of [button_scan] over the buttons. *)
Definition scan_one (button mask : Z) (index : nat) (b : buttons) : buttons :=
  let down_time := nth index (button_timer b) 0 in
  if nonzero (Z.land button mask) then
    if nonzero (uint16 (Z.lnot down_time)) then
      let down_time1 := uint16 (down_time + 1) in
      let b1 :=
        if down_time1 =? BUTTON_SHORT_DELAY then
          set_button_debounced (Z.lor (button_debounced b) mask)
            (set_button_pressed (Z.lor (button_pressed b) mask) b)
        else if down_time1 =? BUTTON_LONG_DELAY then
          set_button_long (Z.lor (button_long b) mask) b
        else b in
      set_button_timer (<[index := down_time1]> (button_timer b1)) b1
    else set_button_timer (<[index := down_time]> (button_timer b)) b
  else
    let b1 :=
      if down_time >=? BUTTON_SHORT_DELAY then
        let b2 :=
          set_button_debounced
            (Z.land (button_debounced b) (uint8 (Z.lnot mask)))
            (set_button_released (Z.lor (button_released b) mask) b) in
        if down_time <? BUTTON_LONG_DELAY
        then set_button_short (Z.lor (button_short b2) mask) b2
        else b2
      else b in
    set_button_timer (<[index := 0]> (button_timer b1)) b1.

Fixpoint scan_loop (n index : nat) (button mask : Z) (b : buttons)
  : buttons :=
  match n with
  | O => b
  | S n' =>
      scan_loop n' (S index) button (uint8 (Z.shiftl mask 1))
        (scan_one button mask index b)
  end.

Definition button_scan (p : button_pins) (b : buttons) : buttons :=
  if negb (nonzero (button_scan_enable b)) then b
  else
    let button := read_pins p in
    let b1 := set_button_state button b in
    let b2 := scan_chord button b1 in
    let b3 := scan_loop (Z.to_nat NUM_BUTTONS) 0 button 1 b2 in
    set_button_previous button b3.

(** [button_scan] called once for each of a sequence of pin readings. *)
Definition button_scans (readings : list button_pins) (b : buttons)
  : buttons :=
  fold_left (fun b p => button_scan p b) readings b.

(** Every register holds a value of its type. *)
Definition buttons_ok (b : buttons) : Prop :=
  length (button_timer b) = 8%nat /\
  Forall (fun v => 0 <= v < 65536) (button_timer b) /\
  0 <= button_stable b < 65536 /\
  0 <= button_debounced b < 256 /\
  0 <= button_pressed b < 256 /\
  0 <= button_released b < 256 /\
  0 <= button_short b < 256 /\
  0 <= button_long b < 256.

(** Button [k] reads as pressed. *)
Definition is_down (p : button_pins) (k : Z) : bool :=
  Z.testbit (read_pins p) k.

(** Bit [k] of a [button_t]. *)
Definition has_button (reg k : Z) : bool := Z.testbit reg k.

(** The debounce timer of button [k]. *)
Definition down_time (b : buttons) (k : Z) : Z :=
  nth (Z.to_nat k) (button_timer b) 0.

(** What the scanner holds about one button: its timer and its bit in the
    five registers the loop of [button_scan] writes. *)
Record button_view := mk_view {
  v_time : Z;
  v_debounced : bool;
  v_pressed : bool;
  v_released : bool;
  v_short : bool;
  v_long : bool
}.

Definition view (b : buttons) (k : Z) : button_view :=
  mk_view (down_time b k)
    (has_button (button_debounced b) k) (has_button (button_pressed b) k)
    (has_button (button_released b) k) (has_button (button_short b) k)
    (has_button (button_long b) k).

(** One scan as seen by one button that reads down or up. *)
Definition view_step (down : bool) (v : button_view) : button_view :=
  if down then
    if v_time v =? 65535 then v
    else
      mk_view (v_time v + 1)
        (v_debounced v || (v_time v + 1 =? BUTTON_SHORT_DELAY))
        (v_pressed v || (v_time v + 1 =? BUTTON_SHORT_DELAY))
        (v_released v) (v_short v)
        (v_long v || (v_time v + 1 =? BUTTON_LONG_DELAY))
  else
    mk_view 0
      (v_debounced v && (v_time v <? BUTTON_SHORT_DELAY))
      (v_pressed v)
      (v_released v || (BUTTON_SHORT_DELAY <=? v_time v))
      (v_short v || ((BUTTON_SHORT_DELAY <=? v_time v)
                     && (v_time v <? BUTTON_LONG_DELAY)))
      (v_long v).

(** The registers the loop over the buttons leaves alone. *)
Definition same_frame (b' b : buttons) : Prop :=
  button_scan_enable b' = button_scan_enable b /\
  button_state b' = button_state b /\
  button_chord b' = button_chord b /\
  button_previous b' = button_previous b /\
  button_stable b' = button_stable b.

End Button.

(** * The tick interrupt and the event scan over all modules *)

Module System.

(** The module variables of the firmware, one field per source file. *)
Record system := mk_system {
  st_nixie : Nixie.display;
  st_button : Button.buttons;
  st_rotary : Rotary.rotary;
  st_timer : Timer.timers;
  st_player : Player.player;
  st_clock : Clock.clock;
  st_event : Event.queue
}.

(** [ISR(TIMER0_COMPA_vect)] of timer.c, entered 625 times a second;
    [pins] is what the button inputs read on this entry and [fuel] bounds
    the loop of [player_service]. *)
Definition timer0_compa_isr (fuel : nat) (pins : Button.button_pins)
  (s : system) : option system :=
  let d := Nixie.nixie_display_refresh (st_nixie s) in
  let b := Button.button_scan pins (st_button s) in
  let t := Timer.timer_update (st_timer s) in
  match Player.player_service fuel (st_player s) with
  | None => None
  | Some p =>
      let '(t1, c1, q1) :=
        Timer.second_divider t (st_clock s) (st_event s) in
      Some (mk_system d b (st_rotary s) t1 p c1 q1)
  end.

(** The interrupt entered once for each of a sequence of pin readings. *)
Fixpoint timer0_ticks (fuel : nat) (readings : list Button.button_pins)
  (s : system) : option system :=
  match readings with
  | [] => Some s
  | pins :: rest =>
      match timer0_compa_isr fuel pins s with
      | None => None
      | Some s1 => timer0_ticks fuel rest s1
      end
  end.

(** The timer loop of [scan_for_events] of event.c, as far as timer.c is
    concerned: [timer_expired(index, 1)] for every flag found set. *)
Fixpoint reset_expired (n : nat) (mask index : Z) (t : Timer.timers)
  : Timer.timers :=
  match n with
  | O => t
  | S n' =>
      if nonzero mask then
        let t1 := if nonzero (Z.land mask 1)
                  then snd (Timer.timer_expired (uint8 index) 1 t) else t in
        reset_expired n' (Z.shiftr mask 1) (sint8 (index + 1)) t1
      else t
  end.

(** What [scan_for_events] fetches from button.c, rotary.c and timer.c,
    and the state it leaves there.  The scan runs in the main loop; the
    model lets no interrupt in while it runs. *)
Definition read_sources (s : system) : Event.sources * system :=
  let '(pressed, b1) := Button.reset_buttons_pressed (st_button s) in
  let '(released, b2) := Button.reset_buttons_released b1 in
  let '(bshort, b3) := Button.reset_short_buttons b2 in
  let '(blong, b4) := Button.reset_long_buttons b3 in
  let debounced := Button.read_button_debounced b4 in
  let '(chord, b5) := Button.reset_button_chord b4 in
  let '(rright, r1) := Rotary.right_rotary_relative (st_rotary s) in
  let '(rleft, r2) := Rotary.left_rotary_relative r1 in
  let status := Timer.timer_status (st_timer s) in
  (Event.mk_sources pressed released bshort blong debounced chord rright
     rleft status,
   mk_system (st_nixie s) b5 r2
     (reset_expired 8 (uint8 status) 0 (st_timer s))
     (st_player s) (st_clock s) (st_event s)).

(** [get_next_event] of event.c on the whole state. *)
Definition get_next_event (s : system) : system * Event.slot_read :=
  let '(src, s1) := read_sources s in
  let '(q, r) := Event.get_next_event src (st_event s1) in
  (mk_system (st_nixie s1) (st_button s1) (st_rotary s1) (st_timer s1)
     (st_player s1) (st_clock s1) q, r).

(** The reading in which button [k] alone is down. *)
Definition only_down (p : Button.button_pins) (k : Z) : Prop :=
  Button.read_pins p = 2 ^ k.

(** A system at rest after initialisation: the player is stopped, the
    second divider is at the start of its period, no event timer runs or
    has expired, the encoders have not moved, the buttons have just been
    reset and no event is waiting. *)
Definition quiet (s : system) : Prop :=
  Player.player_is_stopped (st_player s) = true /\
  Timer.seconds_prescaler (st_timer s) = Timer.TIMER0_FREQUENCY /\
  Timer.timer_count (st_timer s) = replicate 8 0 /\
  Timer.timer_flag (st_timer s) = 0 /\
  Rotary.left_position (st_rotary s) = 0 /\
  Rotary.right_position (st_rotary s) = 0 /\
  (exists b0,
     st_button s = Button.reset_buttons b0 /\
     length (Button.button_timer b0) = 8%nat /\
     0 <= Button.button_stable b0 < 65536) /\
  Event.queue_ok (st_event s) /\ Event.pending (st_event s) = [].

(** The state in which [main] of NixieClock.c enables the interrupts:
    the variables start at zero, then come [rotary_init], [timer_init],
    [time_date_init], [clock_run(1)], [button_enable(1)] and the set-up of
    the primary display stream. *)
Definition initialised : system :=
  mk_system
    (Nixie.nixie_display_enable 1
       (Nixie.nixie_show_stream (Nixie.nixie_stream_init (replicate 64 0))
          (Nixie.mk_display []
             (Nixie.mk_nixie_control 0 0 false false false) 0)))
    (Button.button_enable 1
       (Button.mk_buttons 0 0 0 0 0 0 0 0 0 0 (replicate 8 0)))
    (Rotary.rotary_init
       (Rotary.mk_rotary (Rotary.mk_rotary_state false false false false)
                         0 0 0 0))
    (Timer.timer_init (Timer.mk_timers 0 (replicate 8 0) (replicate 8 0) 0))
    Player.power_up
    (Clock.clock_run 1
       (Clock.time_date_init
          (Clock.mk_clock (Clock.mk_time 0 0 0) (Clock.mk_date 0 0 0) 0)))
    (Event.mk_queue 0 0 Event.empty_slots).

End System.

(** * Properties of the timekeeper *)

Module ClockSpec.
Import Clock.

Lemma land_3_mod_4 (y : Z) : Z.land y 3 = y mod 4.
Proof. exact (Z.land_ones y 2 ltac:(lia)). Qed.

Lemma days_in_month_feb (y : Z) :
  days_in_month 2 y = if (y mod 4 =? 0) && negb (y mod 100 =? 0) then 29 else 28.
Proof.
  unfold days_in_month. rewrite land_3_mod_4. simpl.
  destruct ((y mod 4 =? 0) && negb (y mod 100 =? 0)); reflexivity.
Qed.

(** C2: the code gives February 2000 only 28 days, since 2000 is a
    multiple of 100 and the 400-year exception is not implemented. *)
Theorem days_in_month_feb_2000 :
  days_in_month 2 2000 = 28 /\ days_in_month 2 2000 <> 29.
Proof. split; [reflexivity | discriminate]. Qed.

(** C3: for every year of 2000..2099, February has 29 days exactly when
    the year is a multiple of 4 and not a multiple of 100, and 28 days
    otherwise. *)
Theorem days_in_month_feb_rule (y : Z) :
  2000 <= y <= 2099 ->
  (days_in_month 2 y = 29 <-> (y mod 4 = 0 /\ y mod 100 <> 0)) /\
  (~ (y mod 4 = 0 /\ y mod 100 <> 0) -> days_in_month 2 y = 28).
Proof.
  intros _. rewrite days_in_month_feb.
  destruct (Z.eqb_spec (y mod 4) 0) as [H4 | H4];
    destruct (Z.eqb_spec (y mod 100) 0) as [H100 | H100]; simpl;
    split; try split; intros; try lia; try tauto; try discriminate.
Qed.

(** The rule at the leap year 2004. *)
Lemma days_in_month_feb_rule_witness :
  2000 <= 2004 <= 2099 /\ days_in_month 2 2004 = 29.
Proof.
  split; [lia |].
  apply (days_in_month_feb_rule 2004); [lia | split; [reflexivity | discriminate]].
Defined.

(** C1: at 23:59:59 on 31 January 2009 the update rolls the time over and
    moves to February, but leaves the day at 32 instead of resetting it
    to 1. *)
Theorem time_date_update_keeps_day :
  days_in_month 1 2009 = 31 /\
  time_date_update (mk_clock (mk_time 23 59 59) (mk_date 2009 1 31) 1)
  = mk_clock (mk_time 0 0 0) (mk_date 2009 2 32) 1.
Proof. split; reflexivity. Qed.

(** What the update does at the end of any month: everything the rollover
    chain asks for, except that the day is one past the month's length. *)
Lemma time_date_update_month_end (m y : Z) :
  1 <= m <= 12 -> 0 <= y < 65535 ->
  time_date_update (month_end m y)
  = mk_clock (mk_time 0 0 0)
      (mk_date (if m =? 12 then y + 1 else y) (if m =? 12 then 1 else m + 1)
               (days_in_month m y + 1)) 1.
Proof.
  intros Hm Hy.
  assert (Hd : 28 <= days_in_month m y <= 31).
  { assert (Hc : m = 1 \/ m = 2 \/ m = 3 \/ m = 4 \/ m = 5 \/ m = 6 \/ m = 7 \/
                 m = 8 \/ m = 9 \/ m = 10 \/ m = 11 \/ m = 12) by lia.
    destruct Hc as [-> | [-> | [-> | [-> | [-> | [-> | [-> | [-> | [-> | [-> | [-> | ->]]]]]]]]]]];
      try (rewrite days_in_month_feb; destruct (_ && _); lia);
      unfold days_in_month; simpl; lia. }
  unfold time_date_update, month_end; simpl.
  assert (E : uint8 (days_in_month m y + 1) = days_in_month m y + 1).
  { unfold uint8. apply Z.mod_small. lia. }
  rewrite E.
  destruct (Z.gtb_spec (days_in_month m y + 1) (days_in_month m y)); [| lia].
  assert (Em : uint8 (m + 1) = m + 1) by (unfold uint8; apply Z.mod_small; lia).
  rewrite Em.
  destruct (Z.eqb_spec m 12) as [-> | Hne].
  - simpl. unfold uint16. rewrite Z.mod_small by lia. reflexivity.
  - destruct (Z.gtb_spec (m + 1) 12); [lia | reflexivity].
Qed.

End ClockSpec.

(** * Properties of the event queue *)

Module EventSpec.
Import Event.

(** [add_event] keeps the head index inside the array.  The tail index
    leaves it in exactly one case: the queue overflows while the tail is
    at the last slot, and the tail becomes 16 instead of wrapping to 0. *)
Lemma add_event_indices (ev dat : Z) (q : queue) :
  0 <= event_queue_head q < 16 -> 0 <= event_queue_tail q < 16 ->
  0 <= event_queue_head (add_event ev dat q) < 16 /\
  0 <= event_queue_tail (add_event ev dat q) <= 16 /\
  (event_queue_tail (add_event ev dat q) = 16 <->
   event_queue_head q = 14 /\ event_queue_tail q = 15).
Proof.
  intros Hh Ht. unfold add_event, EVENT_QUEUE_SIZE, uint8.
  cbn [event_queue_head event_queue_tail].
  rewrite (Z.mod_small (event_queue_head q + 1)) by lia.
  destruct (Z.geb_spec (event_queue_head q + 1) 16) as [Hge | Hlt].
  - destruct (Z.eqb_spec 0 (event_queue_tail q)) as [E | E].
    + rewrite <- E. rewrite Z.mod_small by lia. lia.
    + lia.
  - destruct (Z.eqb_spec (event_queue_head q + 1) (event_queue_tail q))
      as [E | E].
    + rewrite Z.mod_small by lia. lia.
    + lia.
Qed.

(** C5: after [clear_events] and 31 calls of [add_event] the tail index is
    16, outside the array, and the next [get_next_event] reads slot 16. *)
Theorem add_event_tail_leaves_array :
  let q := add_events 31 TIMER_EXPIRED 0 (clear_events (mk_queue 0 0 empty_slots)) in
  event_queue_head q = 15 /\ event_queue_tail q = 16 /\
  snd (get_next_event no_sources q) = OutOfBounds 16.
Proof. vm_compute. repeat split. Qed.

End EventSpec.

(** * Properties of the display streams *)

Module NixieSpec.
Import Nixie.

Lemma clear_segments_length (count pos : nat) (seg : list Z) :
  length (clear_segments count pos seg) = length seg.
Proof.
  revert pos seg. induction count as [| c IH]; intros pos seg; simpl.
  - reflexivity.
  - rewrite IH. apply length_insert.
Qed.

Lemma clear_segments_Forall (P : Z -> Prop) (count pos : nat) (seg : list Z) :
  P 0 -> Forall P seg -> Forall P (clear_segments count pos seg).
Proof.
  intros H0. revert pos seg.
  induction count as [| c IH]; intros pos seg Hseg; simpl.
  - exact Hseg.
  - apply IH.
    destruct (decide (pos < length seg)%nat) as [Hlt | Hge].
    + apply Forall_insert; assumption.
    + rewrite list_insert_ge by lia. exact Hseg.
Qed.

Lemma set_nixie_segment_length (seg : list Z) (digit segment v : Z) :
  length (set_nixie_segment seg digit segment v) = length seg.
Proof. unfold set_nixie_segment. apply length_insert. Qed.

Lemma set_nixie_segment_Forall (P : Z -> Prop) (seg : list Z)
  (digit segment v : Z) :
  P v -> Forall P seg -> Forall P (set_nixie_segment seg digit segment v).
Proof.
  intros Hv Hseg. unfold set_nixie_segment.
  destruct (decide (Z.to_nat (digit_offset digit + segment) < length seg)%nat).
  - apply Forall_insert; assumption.
  - rewrite list_insert_ge by lia. exact Hseg.
Qed.

Lemma clear_nixie_display_length (seg : list Z) :
  length (clear_nixie_display seg) = length seg.
Proof. apply clear_segments_length. Qed.

Lemma clear_nixie_display_zero (seg : list Z) :
  length seg = 64%nat -> clear_nixie_display seg = replicate 64 0.
Proof.
  intros Hlen.
  do 64 (destruct seg as [| ? seg]; [discriminate Hlen |]).
  destruct seg; [reflexivity | discriminate Hlen].
Qed.

(** A freshly initialised stream. *)
Lemma nixie_stream_init_eq (buffer : list Z) :
  length buffer = 64%nat ->
  nixie_stream_init buffer
  = mk_stream (replicate 64 0) 0 9 NORMAL_OUTPUT control_clear.
Proof.
  intros Hlen. unfold nixie_stream_init, nixie_control_init. simpl.
  rewrite clear_nixie_display_zero by exact Hlen. reflexivity.
Qed.

Lemma nixie_stream_init_in_range (buffer : list Z) :
  length buffer = 64%nat -> stream_in_range (nixie_stream_init buffer).
Proof.
  intros Hlen. rewrite nixie_stream_init_eq by exact Hlen.
  unfold stream_in_range; cbn [segdata cursor intensity].
  repeat split; try (vm_compute; congruence).
  apply Forall_forall. intros v Hv.
  apply elem_of_replicate in Hv as [-> _]. vm_compute. split; congruence.
Qed.

(** The cursor is one of the seven positions 0..6. *)
Lemma cursor_cases (c : Z) :
  0 <= c <= NIXIE_DISPLAY_WIDTH ->
  c = 0 \/ c = 1 \/ c = 2 \/ c = 3 \/ c = 4 \/ c = 5 \/ c = 6.
Proof. unfold NIXIE_DISPLAY_WIDTH. lia. Qed.

Ltac cursor_split H :=
  apply cursor_cases in H;
  destruct H as [H | [H | [H | [H | [H | [H | H]]]]]].

Lemma inc_cursor_in_range (p : nixie_stream_t) (char_mode : bool) :
  stream_in_range p -> stream_in_range (inc_cursor p char_mode).
Proof.
  intros (Hc & Hi & Hs & Hl). destruct p as [seg cur int st [a b c d e]].
  unfold stream_in_range, inc_cursor in *; simpl in *.
  destruct (char_mode && (a || b)); simpl; [tauto |].
  cursor_split Hc; subst cur; destruct e; simpl; repeat split;
    first [assumption | lia | vm_compute; congruence].
Qed.

Lemma dec_cursor_in_range (p : nixie_stream_t) :
  stream_in_range p -> stream_in_range (dec_cursor p).
Proof.
  intros (Hc & Hi & Hs & Hl). destruct p as [seg cur int st [a b c d e]].
  unfold stream_in_range, dec_cursor in *; simpl in *.
  cursor_split Hc; subst cur; destruct e; simpl; repeat split;
    first [assumption | lia | vm_compute; congruence].
Qed.

Lemma set_segdata_in_range (seg : list Z) (p : nixie_stream_t) :
  Forall intensity_ok seg -> length seg = length (segdata p) ->
  stream_in_range p -> stream_in_range (set_segdata seg p).
Proof.
  intros Hf Hlen (Hc & Hi & Hs & Hl).
  unfold stream_in_range; simpl. repeat split; try tauto; try lia.
Qed.

Lemma lamp_in_range (digit v : Z) (p : nixie_stream_t) :
  intensity_ok v -> stream_in_range p ->
  stream_in_range (set_segdata (set_nixie_segment (segdata p) digit 0 v) p).
Proof.
  intros Hv Hp. apply set_segdata_in_range.
  - apply set_nixie_segment_Forall; [exact Hv | apply Hp].
  - apply set_nixie_segment_length.
  - exact Hp.
Qed.

Lemma zero_ok : intensity_ok 0.
Proof. vm_compute. split; congruence. Qed.

Lemma flags_in_range (c : control_t) (p : nixie_stream_t) :
  stream_in_range p -> stream_in_range (set_control c p).
Proof. intros H. exact H. Qed.

Lemma state_in_range (s : state_t) (p : nixie_stream_t) :
  stream_in_range p -> stream_in_range (set_state s p).
Proof. intros H. exact H. Qed.

Lemma put_displayable_in_range (char_type ch : Z) (p : nixie_stream_t) :
  stream_in_range p ->
  stream_in_range (put_displayable false char_type ch p).
Proof.
  intros Hp. unfold put_displayable, set_single_overlay.
  apply flags_in_range. apply inc_cursor_in_range.
  assert (Hi : intensity_ok (intensity p)) by apply Hp.
  assert (Hs : Forall intensity_ok (segdata p)) by apply Hp.
  apply set_segdata_in_range; [| | exact Hp].
  - destruct (cursor p <? NIXIE_DISPLAY_WIDTH); [| exact Hs].
    repeat match goal with
           | |- Forall _ (if ?b then _ else _) => destruct b
           | |- Forall _ (set_nixie_segment _ _ _ _) =>
               apply set_nixie_segment_Forall; [exact Hi |]
           | |- Forall _ (clear_nixie_digit _ _) =>
               apply clear_segments_Forall; [exact zero_ok |]
           end; exact Hs.
  - destruct (cursor p <? NIXIE_DISPLAY_WIDTH); [| reflexivity].
    repeat match goal with
           | |- context [length (if ?b then _ else _)] => destruct b
           | |- context [length (set_nixie_segment _ _ _ _)] =>
               rewrite set_nixie_segment_length
           | |- context [length (clear_nixie_digit _ _)] =>
               unfold clear_nixie_digit; rewrite clear_segments_length
           end; reflexivity.
Qed.

Lemma clear_display_in_range (p : nixie_stream_t) :
  stream_in_range p ->
  stream_in_range (set_segdata (clear_nixie_display (segdata p)) p).
Proof.
  intros Hp. apply set_segdata_in_range; [| | exact Hp].
  - apply clear_segments_Forall; [exact zero_ok | apply Hp].
  - apply clear_nixie_display_length.
Qed.

Lemma set_cursor_zero_in_range (p : nixie_stream_t) :
  stream_in_range p -> stream_in_range (set_cursor 0 p).
Proof.
  intros (Hc & Hi & Hs & Hl). unfold stream_in_range; simpl.
  repeat split; try tauto; vm_compute; congruence.
Qed.

Lemma set_intensity_in_range (v : Z) (p : nixie_stream_t) :
  intensity_ok v -> stream_in_range p -> stream_in_range (set_intensity v p).
Proof.
  intros Hv (Hc & Hi & Hs & Hl). unfold stream_in_range; simpl.
  repeat split; try tauto; apply Hv.
Qed.

Ltac in_range_step Hp Hi :=
  lazymatch goal with
  | |- stream_in_range (set_segdata (set_nixie_segment _ _ _ _) _) =>
      apply set_segdata_in_range;
      [ repeat (apply set_nixie_segment_Forall;
                [first [exact Hi | exact zero_ok] |]); apply Hp
      | rewrite !set_nixie_segment_length; reflexivity
      | exact Hp ]
  | |- stream_in_range (set_segdata (clear_nixie_display _) _) =>
      apply clear_display_in_range; exact Hp
  | |- stream_in_range (set_cursor 0 ?q) =>
      apply set_cursor_zero_in_range; in_range_step Hp Hi
  | |- stream_in_range (set_state _ ?q) =>
      apply state_in_range; in_range_step Hp Hi
  | |- stream_in_range (set_control _ ?q) =>
      apply flags_in_range; in_range_step Hp Hi
  | |- stream_in_range (set_single_overlay _ ?q) =>
      apply flags_in_range; in_range_step Hp Hi
  | |- stream_in_range (set_single_no_inc _ ?q) =>
      apply flags_in_range; in_range_step Hp Hi
  | |- stream_in_range (set_no_cursor_inc _ ?q) =>
      apply flags_in_range; in_range_step Hp Hi
  | |- stream_in_range (set_overlay _ ?q) =>
      apply flags_in_range; in_range_step Hp Hi
  | |- stream_in_range (set_no_cursor_wrap _ ?q) =>
      apply flags_in_range; in_range_step Hp Hi
  | |- stream_in_range (dec_cursor ?q) =>
      apply dec_cursor_in_range; in_range_step Hp Hi
  | |- stream_in_range (inc_cursor ?q _) =>
      apply inc_cursor_in_range; in_range_step Hp Hi
  | |- stream_in_range (set_intensity _ ?q) =>
      apply set_intensity_in_range; [| in_range_step Hp Hi]
  | |- _ => exact Hp
  end.

Lemma put_control_in_range (ch : Z) (p : nixie_stream_t) :
  stream_in_range p -> stream_in_range (put_control ch p).
Proof.
  intros Hp.
  assert (Hi : intensity_ok (intensity p)) by apply Hp.
  unfold put_control.
  repeat match goal with
         | |- stream_in_range (if ?b then _ else _) => destruct b eqn:?
         end;
    in_range_step Hp Hi.
  - unfold intensity_ok, MAX_NIXIE_INTENSITY, uint8, nonzero in *.
    destruct (Z.eqb_spec (intensity p) 0); [discriminate |].
    rewrite Z.mod_small; lia.
  - unfold intensity_ok, MAX_NIXIE_INTENSITY, uint8 in *.
    rewrite Z.mod_small; lia.
  - vm_compute. split; congruence.
  - vm_compute. split; congruence.
Qed.

Lemma uint8_range (x : Z) : 0 <= uint8 x < 256.
Proof. unfold uint8. apply Z.mod_pos_bound. lia. Qed.

Lemma uint8_idem (x : Z) : uint8 (uint8 x) = uint8 x.
Proof. unfold uint8. apply Zmod_mod. Qed.

(** With an unsigned plain [char], [nixie_out] keeps a stream in range
    whatever the byte is. *)
Lemma nixie_out_in_range (byte : Z) (p : nixie_stream_t) :
  stream_in_range p -> stream_in_range (nixie_out false byte p).
Proof.
  intros Hp. unfold nixie_out, plain_char.
  destruct (state p).
  - repeat match goal with
           | |- stream_in_range (if ?b then _ else _) => destruct b
           end;
      first [apply put_displayable_in_range | apply put_control_in_range];
      exact Hp.
  - apply state_in_range.
    destruct (Z.leb_spec (uint8 (uint8 byte - chr "0")) MAX_NIXIE_INTENSITY)
      as [Hle | Hgt]; [| exact Hp].
    apply set_intensity_in_range; [| exact Hp].
    rewrite uint8_idem. split; [apply uint8_range | exact Hle].
  - apply state_in_range.
    destruct (Z.leb_spec (uint8 (uint8 byte - chr "0")) NIXIE_DISPLAY_WIDTH)
      as [Hle | Hgt]; [| exact Hp].
    destruct Hp as (Hc & Hi & Hs & Hl). unfold stream_in_range; simpl.
    rewrite uint8_idem. repeat split; try tauto; apply uint8_range.
Qed.

Lemma nixie_write_in_range (bytes : list Z) (p : nixie_stream_t) :
  stream_in_range p -> stream_in_range (nixie_write false bytes p).
Proof.
  revert p. induction bytes as [| b bytes IH]; intros p Hp; simpl.
  - exact Hp.
  - apply IH. apply nixie_out_in_range. exact Hp.
Qed.

(** ** Crossfade *)

Lemma wait_done (ticks : nat) (from : list Z) (rate count : Z) :
  wait_one_cycle ticks (cycle_done_state from rate count)
  = Some (cycle_done_state from rate count).
Proof. destruct ticks; reflexivity. Qed.

Lemma wait_counts_up (n : nat) :
  forall (ticks : nat) (from : list Z) (rate count ic : Z),
    0 <= ic -> ic + Z.of_nat n = 9 -> (1 <= n)%nat -> (n <= ticks)%nat ->
    wait_one_cycle ticks (loop_state from rate count ic)
    = Some (cycle_done_state from rate count).
Proof.
  induction n as [| n IH]; intros ticks from rate count ic Hic Hsum Hn Hticks.
  - lia.
  - destruct ticks as [| ticks]; [lia |].
    unfold loop_state.
    cbn [wait_one_cycle nixie_control one_cycle_done].
    unfold nixie_display_refresh.
    cbn [nixie_control refresh_enable negb intensity_count].
    unfold uint8, MAX_NIXIE_INTENSITY. rewrite (Z.mod_small (ic + 1)) by lia.
    destruct (Z.geb_spec (ic + 1) 9) as [Hge | Hlt].
    + apply (wait_done ticks from rate count).
    + apply (IH ticks from rate count (ic + 1)); lia.
Qed.

Lemma wait_loop_state (ticks : nat) (from : list Z) (rate count ic : Z) :
  (10 <= ticks)%nat ->
  wait_one_cycle ticks (loop_state from rate count ic)
  = Some (cycle_done_state from rate count).
Proof.
  intros Hticks. destruct ticks as [| ticks]; [lia |].
  unfold loop_state.
  cbn [wait_one_cycle nixie_control one_cycle_done].
  unfold nixie_display_refresh.
  cbn [nixie_control refresh_enable negb intensity_count].
  pose proof (uint8_range (ic + 1)) as Hr.
  destruct (Z.geb_spec (uint8 (ic + 1)) MAX_NIXIE_INTENSITY) as [Hge | Hlt].
  - apply (wait_done ticks from rate count).
  - unfold MAX_NIXIE_INTENSITY in Hlt.
    apply (wait_counts_up (Z.to_nat (9 - uint8 (ic + 1))) ticks from rate count
             (uint8 (ic + 1))); lia.
Qed.

(** A round that only waits: the throttle counter is below the rate. *)
Lemma loop_round_skip (ticks fuel : nat) (to from : list Z)
  (rate count ic cycles : Z) :
  (10 <= ticks)%nat -> 0 <= count -> count < rate -> rate <= 3 ->
  crossfade_loop ticks (S fuel) to cycles (loop_state from rate count ic)
  = crossfade_loop ticks fuel to (cycles + 1)
      (loop_state from rate (count + 1) 0).
Proof.
  intros Hticks Hc Hlt Hr. cbn [crossfade_loop].
  rewrite wait_loop_state by exact Hticks.
  cbn -[Z.ltb Z.modulo Z.add crossfade_loop].
  destruct (Z.ltb_spec count rate); [| lia].
  rewrite Z.mod_small by lia. reflexivity.
Qed.

(** A round that fades: one pass over the segments. *)
Lemma loop_round_fade (ticks fuel : nat) (to from : list Z)
  (rate count ic cycles : Z) :
  (10 <= ticks)%nat -> rate <= count ->
  crossfade_loop ticks (S fuel) to cycles (loop_state from rate count ic)
  = let '(from1, activity) := fade_segments 64 from to 0 in
    if nonzero activity
    then crossfade_loop ticks fuel to (cycles + 1) (loop_state from1 rate 0 0)
    else Some (loop_state from1 rate 0 0, cycles + 1).
Proof.
  intros Hticks Hge. cbn [crossfade_loop].
  rewrite wait_loop_state by exact Hticks.
  cbn -[Z.ltb Z.modulo Z.add crossfade_loop fade_segments].
  destruct (Z.ltb_spec count rate); [lia |].
  change (Z.to_nat NIXIE_SEGMENTS) with 64%nat.
  destruct (fade_segments 64 from to 0) as [from1 activity].
  reflexivity.
Qed.

Lemma wait_one_cycle_mono (ticks ticks' : nat) (d d' : display) :
  wait_one_cycle ticks d = Some d' -> (ticks <= ticks')%nat ->
  wait_one_cycle ticks' d = Some d'.
Proof.
  revert ticks' d. induction ticks as [| t IH]; intros ticks' d H Hle.
  - simpl in H. destruct ticks'; simpl;
      destruct (one_cycle_done (nixie_control d)); congruence.
  - destruct ticks' as [| t']; [lia |]. simpl in *.
    destruct (one_cycle_done (nixie_control d)); [exact H |].
    apply IH; [exact H | lia].
Qed.

(** More fuel does not change a result. *)
Lemma crossfade_loop_mono (fuel : nat) :
  forall (ticks ticks' fuel' : nat) (to : list Z) (cycles : Z) (d : display)
         (r : display * Z),
    crossfade_loop ticks fuel to cycles d = Some r ->
    (ticks <= ticks')%nat -> (fuel <= fuel')%nat ->
    crossfade_loop ticks' fuel' to cycles d = Some r.
Proof.
  induction fuel as [| f IH]; intros ticks ticks' fuel' to cycles d r H Ht Hf.
  - discriminate H.
  - destruct fuel' as [| f']; [lia |]. cbn [crossfade_loop] in *.
    destruct (wait_one_cycle ticks d) as [d1 |] eqn:Hw; [| discriminate H].
    rewrite (wait_one_cycle_mono ticks ticks' d d1 Hw Ht).
    destruct (crossfade_count (nixie_control (set_one_cycle_done false d1))
              <? crossfade_rate (nixie_control (set_one_cycle_done false d1))).
    + apply (IH ticks ticks' f'); [exact H | lia | lia].
    + destruct (fade_segments (Z.to_nat NIXIE_SEGMENTS)
                  (active (set_one_cycle_done false d1)) to 0)
        as [from1 activity].
      destruct (nonzero activity); [| exact H].
      apply (IH ticks ticks' f'); [exact H | lia | lia].
Qed.

Lemma nixie_crossfade_mono (fuel fuel' : nat) (to : list Z) (d : display)
  (r : display * Z) :
  nixie_crossfade fuel to d = Some r -> (fuel <= fuel')%nat ->
  nixie_crossfade fuel' to d = Some r.
Proof.
  unfold nixie_crossfade. intros H Hle.
  destruct (crossfade_loop fuel fuel to 0 _) as [[d1 cycles] |] eqn:Hl;
    [| discriminate H].
  rewrite (crossfade_loop_mono fuel fuel fuel' fuel' to 0 _ _ Hl Hle Hle).
  exact H.
Qed.

(** What one step of the fade loop does to a single segment. *)
Lemma fade_segment_facts (from to : Z) :
  byte_ok from -> byte_ok to ->
  byte_ok (fst (fade_segment from to)) /\
  fade_result (fst (fade_segment from to)) to = fade_result from to /\
  (snd (fade_segment from to) = false ->
   fst (fade_segment from to) = from /\ from = fade_result from to /\
   fade_distance from to = 0) /\
  (snd (fade_segment from to) = true ->
   fade_distance (fst (fade_segment from to)) to = fade_distance from to - 1 /\
   1 <= fade_distance from to).
Proof.
  unfold byte_ok, fade_segment, fade_result, fade_distance, nonzero, uint8.
  intros Hf Ht.
  destruct (Z.eqb_spec to 0) as [Et | Et]; simpl.
  - destruct (Z.eqb_spec from 0) as [Ef | Ef]; simpl.
    + repeat split; try lia; intros; try discriminate; lia.
    + rewrite Z.mod_small by lia. repeat split; try lia; intros; try discriminate.
  - destruct (Z.ltb_spec from to) as [Hlt | Hge]; simpl.
    + rewrite Z.mod_small by lia.
      destruct (Z.ltb_spec (from + 1) to); repeat split; try lia;
        intros; try discriminate; lia.
    + destruct (Z.ltb_spec from to); [lia |].
      repeat split; try lia; intros; try discriminate; lia.
Qed.

(** What one pass of the fade loop does to the whole buffer. *)
Lemma fade_segments_facts (n : nat) :
  forall (from to : list Z) (a : Z),
    length from = n -> length to = n ->
    Forall byte_ok from -> Forall byte_ok to ->
    0 <= a -> a + Z.of_nat n < 256 ->
    exists from1 a1,
      fade_segments n from to a = (from1, a1) /\
      length from1 = n /\ Forall byte_ok from1 /\
      a <= a1 <= a + Z.of_nat n /\
      zip_with fade_result from1 to = zip_with fade_result from to /\
      (a1 = a -> from1 = from /\ from = zip_with fade_result from to) /\
      (forall k, 0 <= k -> Forall2 (within (k + 1)) from to ->
                 Forall2 (within k) from1 to) /\
      (Forall2 (within 0) from to -> a1 = a).
Proof.
  induction n as [| n IH]; intros from to a Hlf Hlt Hbf Hbt Ha Hsum.
  - destruct from; [| discriminate]. destruct to; [| discriminate].
    exists [], a. simpl. repeat split; try lia; try constructor.
  - destruct from as [| f fs]; [discriminate |].
    destruct to as [| t ts]; [discriminate |].
    apply Forall_cons in Hbf as [Hf Hfs]. apply Forall_cons in Hbt as [Ht Hts].
    injection Hlf as Hlf. injection Hlt as Hlt.
    pose proof (fade_segment_facts f t Hf Ht) as (Hb1 & Hres & Hsame & Hchg).
    cbn [fade_segments].
    destruct (fade_segment f t) as [f1 changed] eqn:Hseg.
    cbn [fst snd] in *.
    set (a1 := if changed then uint8 (a + 1) else a).
    assert (Ha1 : a <= a1 <= a + 1 /\ (a1 = a -> changed = false)).
    { subst a1. destruct changed.
      - unfold uint8. rewrite Z.mod_small by lia. split; [lia |]. intros; lia.
      - split; [lia | reflexivity]. }
    destruct (IH fs ts a1 Hlf Hlt Hfs Hts ltac:(lia) ltac:(lia))
      as (rest & a2 & Hrun & Hlen & Hbr & Hbound & Hzip & Hfix & Hstep & Hzero).
    rewrite Hrun. exists (f1 :: rest), a2.
    split; [reflexivity |].
    split; [simpl; lia |].
    split; [apply Forall_cons; split; assumption |].
    split; [lia |].
    split; [simpl; rewrite Hres, Hzip; reflexivity |].
    split; [| split].
    + intros E.
      assert (Ech : changed = false) by (apply Ha1; lia).
      assert (Ea : a2 = a1) by lia.
      destruct (Hsame Ech) as (E1 & E2 & _).
      destruct (Hfix Ea) as (E3 & E4).
      simpl. rewrite E1, E3. split; [reflexivity |].
      rewrite <- E2, <- E4. reflexivity.
    + intros k Hk H2. apply Forall2_cons in H2 as [Hd H2].
      apply Forall2_cons. split; [| apply Hstep; assumption].
      unfold within in *. destruct changed.
      * destruct (Hchg eq_refl). lia.
      * destruct (Hsame eq_refl) as (E1 & _ & E3). rewrite E1. lia.
    + intros H2. apply Forall2_cons in H2 as [Hd H2].
      unfold within in Hd.
      assert (Ech : changed = false).
      { destruct changed; [| reflexivity]. destruct (Hchg eq_refl). lia. }
      subst a1. rewrite Ech in *. apply Hzero. exact H2.
Qed.

(** [m] rounds that only wait. *)
Lemma loop_skips (ticks : nat) (to from : list Z) (rate : Z) (m : nat) :
  forall (fuel : nat) (count ic cycles : Z),
    (10 <= ticks)%nat -> 0 <= count -> count + Z.of_nat m <= rate ->
    rate <= 3 ->
    exists ic',
      crossfade_loop ticks (m + fuel) to cycles (loop_state from rate count ic)
      = crossfade_loop ticks fuel to (cycles + Z.of_nat m)
          (loop_state from rate (count + Z.of_nat m) ic').
Proof.
  induction m as [| m IH]; intros fuel count ic cycles Hticks Hc Hm Hr.
  - exists ic. simpl. rewrite !Z.add_0_r. reflexivity.
  - destruct (IH fuel (count + 1) 0 (cycles + 1) Hticks ltac:(lia) ltac:(lia) Hr)
      as (ic' & Hrun).
    exists ic'. change (S m + fuel)%nat with (S (m + fuel)).
    rewrite loop_round_skip by lia. rewrite Hrun.
    replace (cycles + 1 + Z.of_nat m) with (cycles + Z.of_nat (S m)) by lia.
    replace (count + 1 + Z.of_nat m) with (count + Z.of_nat (S m)) by lia.
    reflexivity.
Qed.

(** The rounds up to and including the next one that fades. *)
Lemma loop_next_fade (ticks fuel : nat) (to from : list Z)
  (rate count ic cycles : Z) :
  (10 <= ticks)%nat -> 0 <= rate <= 3 -> 0 <= count <= 3 ->
  exists (m : nat),
    (m <= 3)%nat /\
    crossfade_loop ticks (m + S fuel) to cycles (loop_state from rate count ic)
    = let '(from1, activity) := fade_segments 64 from to 0 in
      if nonzero activity
      then crossfade_loop ticks fuel to (cycles + Z.of_nat m + 1)
             (loop_state from1 rate 0 0)
      else Some (loop_state from1 rate 0 0, cycles + Z.of_nat m + 1).
Proof.
  intros Hticks Hr Hc.
  destruct (Z.ltb_spec count rate) as [Hlt | Hge].
  - exists (Z.to_nat (rate - count)). split; [lia |].
    destruct (loop_skips ticks to from rate (Z.to_nat (rate - count))
                (S fuel) count ic cycles Hticks ltac:(lia) ltac:(lia)
                ltac:(lia)) as (ic' & Hskip).
    rewrite Hskip. rewrite loop_round_fade by lia. reflexivity.
  - exists 0%nat. split; [lia |].
    change (0 + S fuel)%nat with (S fuel).
    rewrite loop_round_fade by lia. rewrite Z.add_0_r. reflexivity.
Qed.

(** The loop ends, and it ends with every segment at [fade_result]. *)
Lemma crossfade_loop_converges (ticks : nat) (to : list Z) (rate : Z)
  (k : nat) :
  forall (fuel : nat) (from : list Z) (count ic cycles : Z),
    (10 <= ticks)%nat -> 0 <= rate <= 3 -> 0 <= count <= 3 ->
    length from = 64%nat -> length to = 64%nat ->
    Forall byte_ok from -> Forall byte_ok to ->
    Forall2 (within (Z.of_nat k)) from to ->
    (4 * (k + 1) <= fuel)%nat ->
    exists n,
      crossfade_loop ticks fuel to cycles (loop_state from rate count ic)
      = Some (loop_state (zip_with fade_result from to) rate 0 0, n) /\
      cycles < n <= cycles + 4 * (Z.of_nat k + 1).
Proof.
  induction k as [| k IH];
    intros fuel from count ic cycles Hticks Hr Hc Hlf Hlt Hbf Hbt Hk Hfuel.
  - (* nothing left to fade: the first fading round ends the loop *)
    destruct (fade_segments_facts 64 from to 0 Hlf Hlt Hbf Hbt ltac:(lia)
                ltac:(lia))
      as (from1 & a1 & Hrun & _ & _ & _ & _ & Hfix & _ & Hzero).
    specialize (Hzero Hk). destruct (Hfix Hzero) as (E1 & E2).
    destruct (loop_next_fade ticks 0 to from rate count ic cycles Hticks Hr Hc)
      as (m & Hm & Hround).
    rewrite Hrun, Hzero in Hround. simpl in Hround.
    exists (cycles + Z.of_nat m + 1). split; [| lia].
    apply (crossfade_loop_mono (m + 1) ticks ticks fuel);
      [| lia | lia].
    rewrite Hround, E1, <- E2. reflexivity.
  - destruct (fade_segments_facts 64 from to 0 Hlf Hlt Hbf Hbt ltac:(lia)
                ltac:(lia))
      as (from1 & a1 & Hrun & Hl1 & Hb1 & Hbound & Hzip & Hfix & Hstep & _).
    specialize (Hstep (Z.of_nat k) ltac:(lia)).
    replace (Z.of_nat k + 1) with (Z.of_nat (S k)) in Hstep by lia.
    specialize (Hstep Hk).
    destruct (loop_next_fade ticks (4 * (k + 1)) to from rate count ic cycles
                Hticks Hr Hc) as (m & Hm & Hround).
    rewrite Hrun in Hround.
    destruct (nonzero a1) eqn:Hnz.
    + destruct (IH (4 * (k + 1))%nat from1 0 0 (cycles + Z.of_nat m + 1)
                  Hticks Hr ltac:(lia) Hl1 Hlt Hb1 Hbt Hstep ltac:(lia))
        as (n & Hn & Hnb).
      exists n. split; [| lia].
      apply (crossfade_loop_mono (m + S (4 * (k + 1))) ticks ticks fuel);
        [| lia | lia].
      rewrite Hround, Hn, Hzip. reflexivity.
    + unfold nonzero in Hnz. apply negb_false_iff, Z.eqb_eq in Hnz.
      destruct (Hfix Hnz) as (E1 & E2).
      exists (cycles + Z.of_nat m + 1). split; [| lia].
      apply (crossfade_loop_mono (m + S (4 * (k + 1))) ticks ticks fuel);
        [| lia | lia].
      rewrite Hround, E1, <- E2. reflexivity.
Qed.

Lemma byte_within_255 (from to : list Z) :
  length from = length to -> Forall byte_ok from -> Forall byte_ok to ->
  Forall2 (within 255) from to.
Proof.
  revert to. induction from as [| f fs IH]; intros to Hlen Hf Ht.
  - destruct to; [constructor | discriminate].
  - destruct to as [| t ts]; [discriminate |].
    apply Forall_cons in Hf as [Hf Hfs]. apply Forall_cons in Ht as [Ht Hts].
    constructor; [| apply IH; [simpl in Hlen; lia | assumption | assumption]].
    unfold within, fade_distance, byte_ok in *.
    destruct (nonzero t); [destruct (f <? t) |]; lia.
Qed.

(** [nixie_crossfade] on a running display. *)
Lemma nixie_crossfade_converges (d : display) (to : list Z) (fuel : nat) :
  refresh_enable (nixie_control d) = true ->
  0 <= crossfade_rate (nixie_control d) <= 3 ->
  length (active d) = 64%nat -> length to = 64%nat ->
  Forall byte_ok (active d) -> Forall byte_ok to ->
  (1024 <= fuel)%nat ->
  exists d' cycles,
    nixie_crossfade fuel to d = Some (d', cycles) /\
    active d' = zip_with fade_result (active d) to.
Proof.
  intros Hen Hrate Hlf Hlt Hbf Hbt Hfuel.
  destruct d as [from [rate count done only enable] ic]. simpl in *.
  subst enable.
  destruct (crossfade_loop_converges fuel to rate 255 fuel from 3 ic 0
              ltac:(lia) Hrate ltac:(lia) Hlf Hlt Hbf Hbt
              (byte_within_255 from to ltac:(lia) Hbf Hbt) ltac:(lia))
    as (n & Hn & _).
  unfold nixie_crossfade.
  change (set_crossfade_count 3
            (set_one_cycle_done false
               (set_one_cycle_only true
                  (mk_display from (mk_nixie_control rate count done only true) ic))))
    with (loop_state from rate 3 ic).
  rewrite Hn. eexists _, _. split; reflexivity.
Qed.

Lemma wait_refresh_disabled (ticks : nat) (d : display) :
  refresh_enable (nixie_control d) = false ->
  one_cycle_done (nixie_control d) = false ->
  wait_one_cycle ticks d = None.
Proof.
  intros Hen Hdone. induction ticks as [| t IH]; simpl; rewrite Hdone.
  - reflexivity.
  - unfold nixie_display_refresh. rewrite Hen. simpl. exact IH.
Qed.

(** With refresh disabled the crossfade never returns. *)
Lemma nixie_crossfade_refresh_disabled (fuel : nat) (to : list Z)
  (d : display) :
  refresh_enable (nixie_control d) = false -> nixie_crossfade fuel to d = None.
Proof.
  intros Hen. unfold nixie_crossfade.
  destruct fuel as [| f]; [reflexivity |].
  cbn [crossfade_loop]. rewrite wait_refresh_disabled; [reflexivity | | ].
  - destruct d as [from [rate count done only enable] ic]. exact Hen.
  - reflexivity.
Qed.

(** C4: with a signed plain [char], the byte ['/'] after [*] or [@] is
    taken as the parameter -1: the intensity becomes 255, the next digit
    written stores 255 in the segment buffer, and the cursor becomes 255. *)
Theorem nixie_out_signed_char_escapes_range :
  let fresh := nixie_stream_init (replicate 64 0) in
  intensity (nixie_write true (bytes_of_string "*/") fresh) = 255 /\
  segdata (nixie_write true (bytes_of_string "*/0") fresh) !! 0%nat = Some 255 /\
  cursor (nixie_write true (bytes_of_string "@/") fresh) = 255.
Proof. vm_compute. repeat split. Qed.

(** With an unsigned plain [char] every byte sequence written to a fresh
    stream leaves cursor, intensity and segments in range. *)
Lemma nixie_write_fresh_in_range (buffer bytes : list Z) :
  length buffer = 64%nat ->
  stream_in_range (nixie_write false bytes (nixie_stream_init buffer)).
Proof.
  intros Hlen. apply nixie_write_in_range.
  apply nixie_stream_init_in_range. exact Hlen.
Qed.

(** C9: the bytes form feed, [@3*5A] written to a fresh stream leave the
    cursor at 4 and segments 32 and 33 at intensity 5, all others at 0. *)
Theorem write_formfeed_at3_star5_A (signed_char : bool) (buffer : list Z) :
  length buffer = 64%nat ->
  let p := nixie_write signed_char (12 :: bytes_of_string "@3*5A")
                       (nixie_stream_init buffer) in
  cursor p = 4 /\
  segdata p !! 32%nat = Some 5 /\ segdata p !! 33%nat = Some 5 /\
  length (segdata p) = 64%nat /\
  forall i : nat,
    (i < 64)%nat -> i <> 32%nat -> i <> 33%nat -> segdata p !! i = Some 0.
Proof.
  intros Hlen p. subst p. rewrite nixie_stream_init_eq by exact Hlen.
  assert (E : nixie_write signed_char (12 :: bytes_of_string "@3*5A")
                (mk_stream (replicate 64 0) 0 9 NORMAL_OUTPUT control_clear)
              = mk_stream (<[32%nat := 5]> (<[33%nat := 5]> (replicate 64 0)))
                          4 5 NORMAL_OUTPUT control_clear).
  { destruct signed_char; vm_compute; reflexivity. }
  rewrite E. cbn [cursor segdata].
  repeat split.
  intros i Hi H32 H33.
  rewrite list_lookup_insert_ne by congruence.
  rewrite list_lookup_insert_ne by congruence.
  apply lookup_replicate_2. exact Hi.
Qed.

(** The scenario on a buffer that held sevens before initialisation. *)
Lemma write_formfeed_at3_star5_A_witness :
  length (replicate 64 7) = 64%nat /\
  cursor (nixie_write false (12 :: bytes_of_string "@3*5A")
            (nixie_stream_init (replicate 64 7))) = 4.
Proof.
  split; [reflexivity |].
  apply (write_formfeed_at3_star5_A false (replicate 64 7)). reflexivity.
Defined.

(** C8 as stated fails: at rate 0 the crossfade from all-9 to all-0 waits
    for 10 PWM cycles, one more than I_max * (0 + 1) = 9. *)
Lemma crossfade_rate0_takes_ten_cycles :
  option_map snd (nixie_crossfade 64 (replicate 64 0) (full_display 0 0))
  = Some 10 /\
  ~ (10 <= MAX_NIXIE_INTENSITY * (0 + 1)).
Proof. split; [vm_compute; reflexivity | vm_compute; congruence]. Qed.

(** C8, amended: for every rate r in 0..3, the crossfade from all segments
    at I_max to an all-zero target returns after exactly
    I_max * (r + 1) + 1 PWM cycles, with every active segment at 0. *)
Theorem nixie_crossfade_full_to_empty (d : display) (r : Z) (fuel : nat) :
  0 <= r <= 3 ->
  crossfade_rate (nixie_control d) = r ->
  refresh_enable (nixie_control d) = true ->
  active d = replicate 64 MAX_NIXIE_INTENSITY ->
  (64 <= fuel)%nat ->
  exists d',
    nixie_crossfade fuel (replicate 64 0) d
    = Some (d', MAX_NIXIE_INTENSITY * (r + 1) + 1) /\
    active d' = replicate 64 0.
Proof.
  intros Hr Hrate Hen Hact Hfuel.
  destruct d as [from [rate count done only enable] ic].
  cbn [nixie_control crossfade_rate refresh_enable active] in *.
  subst rate enable from.
  exists (mk_display (replicate 64 0) (mk_nixie_control r 0 false false true) 0).
  split; [| reflexivity].
  apply (nixie_crossfade_mono 64 fuel); [| exact Hfuel].
  unfold nixie_crossfade.
  change (set_crossfade_count 3
            (set_one_cycle_done false
               (set_one_cycle_only true
                  (mk_display (replicate 64 MAX_NIXIE_INTENSITY)
                     (mk_nixie_control r count done only true) ic))))
    with (loop_state (replicate 64 MAX_NIXIE_INTENSITY) r 3 ic).
  change (crossfade_loop 64 64) with (crossfade_loop 64 (S 63)).
  rewrite loop_round_fade by lia.
  assert (Hcases : r = 0 \/ r = 1 \/ r = 2 \/ r = 3) by lia.
  destruct Hcases as [-> | [-> | [-> | ->]]]; vm_compute; reflexivity.
Qed.

(** Rate 2, the refresh routine four sub-cycles into a PWM cycle. *)
Lemma nixie_crossfade_full_to_empty_witness :
  exists d',
    nixie_crossfade 64 (replicate 64 0) (full_display 2 4)
    = Some (d', MAX_NIXIE_INTENSITY * (2 + 1) + 1) /\
    active d' = replicate 64 0.
Proof.
  apply (nixie_crossfade_full_to_empty (full_display 2 4) 2 64);
    [lia | reflexivity | reflexivity | reflexivity | lia].
Defined.

(** C10: whenever [nixie_crossfade] returns, each segment ends at the
    target intensity if that is above where it started, at 0 if the target
    is 0, and where it started if the target is non-zero and not above it;
    on a display that is being refreshed it does return. *)
Theorem nixie_crossfade_final_segments (d : display) (to : list Z) :
  0 <= crossfade_rate (nixie_control d) <= 3 ->
  length (active d) = 64%nat -> length to = 64%nat ->
  Forall byte_ok (active d) -> Forall byte_ok to ->
  (forall (fuel : nat) (d' : display) (cycles : Z),
     nixie_crossfade fuel to d = Some (d', cycles) ->
     length (active d') = 64%nat /\
     forall (i : nat) (a t v : Z),
       active d !! i = Some a -> to !! i = Some t ->
       active d' !! i = Some v ->
       (a < t -> v = t) /\ (t = 0 -> v = 0) /\ (0 < t <= a -> v = a)) /\
  (refresh_enable (nixie_control d) = true ->
   forall fuel : nat, (1024 <= fuel)%nat ->
     exists d' cycles, nixie_crossfade fuel to d = Some (d', cycles)).
Proof.
  intros Hrate Hlf Hlt Hbf Hbt. split.
  - intros fuel d' cycles Hrun.
    destruct (refresh_enable (nixie_control d)) eqn:Hen.
    + destruct (nixie_crossfade_converges d to (Nat.max fuel 1024) Hen Hrate
                  Hlf Hlt Hbf Hbt ltac:(lia)) as (d1 & c1 & Hrun1 & Hact).
      rewrite (nixie_crossfade_mono fuel (Nat.max fuel 1024) to d _ Hrun
                 ltac:(lia)) in Hrun1.
      injection Hrun1 as -> ->. rewrite Hact. split.
      { rewrite length_zip_with. lia. }
      intros i a t v Ha Ht Hv.
      rewrite lookup_zip_with, Ha, Ht in Hv. simpl in Hv.
      injection Hv as <-.
      assert (Hba : byte_ok a) by (exact (Forall_lookup_1 _ _ _ _ Hbf Ha)).
      unfold fade_result, nonzero, byte_ok in *.
      destruct (Z.eqb_spec t 0); simpl; [lia |].
      destruct (Z.ltb_spec a t); lia.
    + rewrite nixie_crossfade_refresh_disabled in Hrun by exact Hen.
      discriminate Hrun.
  - intros Hen fuel Hfuel.
    destruct (nixie_crossfade_converges d to fuel Hen Hrate Hlf Hlt Hbf Hbt
                Hfuel) as (d1 & c1 & Hrun1 & _).
    exists d1, c1. exact Hrun1.
Qed.

(** A segment faded up to its target, one faded down to 0 and one left
    above a lower non-zero target. *)
Lemma nixie_crossfade_final_segments_witness :
  exists d' cycles,
    nixie_crossfade 1024 fade_to fade_display = Some (d', cycles) /\
    active d' !! 0%nat = Some 5 /\
    active d' !! 1%nat = Some 0 /\
    active d' !! 2%nat = Some 7.
Proof.
  assert (Hfrom : Forall byte_ok fade_from).
  { unfold fade_from. apply Forall_app. split.
    - repeat (constructor; [unfold byte_ok; lia |]). constructor.
    - apply Forall_replicate. unfold byte_ok; lia. }
  assert (Hto : Forall byte_ok fade_to).
  { unfold fade_to. apply Forall_app. split.
    - repeat (constructor; [unfold byte_ok; lia |]). constructor.
    - apply Forall_replicate. unfold byte_ok; lia. }
  destruct (nixie_crossfade_final_segments fade_display fade_to
              ltac:(simpl; lia) eq_refl eq_refl Hfrom Hto)
    as [Hreturns Hruns].
  destruct (Hruns eq_refl 1024%nat ltac:(lia)) as (d' & cycles & Hrun).
  destruct (Hreturns _ _ _ Hrun) as [Hlen Hseg].
  exists d', cycles. split; [exact Hrun |].
  destruct (lookup_lt_is_Some_2 (active d') 0) as [v0 Hv0]; [lia |].
  destruct (lookup_lt_is_Some_2 (active d') 1) as [v1 Hv1]; [lia |].
  destruct (lookup_lt_is_Some_2 (active d') 2) as [v2 Hv2]; [lia |].
  rewrite Hv0, Hv1, Hv2.
  destruct (Hseg 0%nat 2 5 v0 eq_refl eq_refl Hv0) as (H0 & _ & _).
  destruct (Hseg 1%nat 7 0 v1 eq_refl eq_refl Hv1) as (_ & H1 & _).
  destruct (Hseg 2%nat 7 3 v2 eq_refl eq_refl Hv2) as (_ & _ & H2).
  rewrite (H0 ltac:(lia)), (H1 eq_refl), (H2 ltac:(lia)).
  repeat split.
Defined.

End NixieSpec.

(** * Properties of the music player *)

Module PlayerSpec.
Import Player.

(** ** More fuel does not change a result *)

Lemma get_number_digits_mono (fuel : nat) :
  forall (fuel' : nat) (p r : player),
    get_number_digits fuel p = Some r -> (fuel <= fuel')%nat ->
    get_number_digits fuel' p = Some r.
Proof.
  induction fuel as [| f IH]; intros fuel' p r H Hle.
  - destruct fuel'; cbn [get_number_digits] in *;
      destruct (is_digit (ch p)); congruence.
  - destruct fuel' as [| f']; [lia |]. cbn [get_number_digits] in *.
    destruct (is_digit (ch p)); [| exact H].
    destruct (next_player_char _) as [c2 p2].
    apply IH; [exact H | lia].
Qed.

Lemma service_step_mono (fuel fuel' : nat) (p : player) (r : player * flow) :
  service_step fuel p = Some r -> (fuel <= fuel')%nat ->
  service_step fuel' p = Some r.
Proof.
  unfold service_step. intros H Hle.
  destruct (_ || _); [exact H |].
  destruct (state p); try exact H.
  unfold state_get_number_2 in *.
  destruct (get_number_digits fuel p) as [p1 |] eqn:Hd; [| discriminate H].
  rewrite (get_number_digits_mono fuel fuel' p p1 Hd Hle). exact H.
Qed.

Lemma service_loop_mono (fuel : nat) :
  forall (fuel' : nat) (p r : player),
    service_loop fuel p = Some r -> (fuel <= fuel')%nat ->
    service_loop fuel' p = Some r.
Proof.
  induction fuel as [| f IH]; intros fuel' p r H Hle.
  - discriminate H.
  - destruct fuel' as [| f']; [lia |]. cbn [service_loop] in *.
    destruct (service_step f p) as [[p1 fl] |] eqn:Hs; [| discriminate H].
    rewrite (service_step_mono f f' p _ Hs ltac:(lia)).
    destruct fl; [| exact H]. apply IH; [exact H | lia].
Qed.

Lemma player_service_mono (fuel fuel' : nat) (p r : player) :
  player_service fuel p = Some r -> (fuel <= fuel')%nat ->
  player_service fuel' p = Some r.
Proof.
  unfold player_service. intros H Hle.
  destruct (player_enable p =? PLAYER_STOP); [exact H |].
  exact (service_loop_mono fuel fuel' _ r H Hle).
Qed.

Lemma player_ticks_mono (ticks : nat) :
  forall (fuel fuel' : nat) (p r : player),
    player_ticks ticks fuel p = Some r -> (fuel <= fuel')%nat ->
    player_ticks ticks fuel' p = Some r.
Proof.
  induction ticks as [| t IH]; intros fuel fuel' p r H Hle.
  - exact H.
  - cbn [player_ticks] in *.
    destruct (player_service fuel p) as [p1 |] eqn:Hs; [| discriminate H].
    rewrite (player_service_mono fuel fuel' p p1 Hs Hle).
    exact (IH fuel fuel' p1 r H Hle).
Qed.

Lemma find_bookmark_digits_mono (fuel : nat) :
  forall (fuel' : nat) (c rep : Z) (p : player) (r : Z * Z * player),
    find_bookmark_digits fuel c rep p = Some r -> (fuel <= fuel')%nat ->
    find_bookmark_digits fuel' c rep p = Some r.
Proof.
  induction fuel as [| f IH]; intros fuel' c rep p r H Hle.
  - destruct fuel'; cbn [find_bookmark_digits] in *;
      destruct (is_digit c); congruence.
  - destruct fuel' as [| f']; [lia |]. cbn [find_bookmark_digits] in *.
    destruct (is_digit c); [| exact H].
    destruct (next_player_char p) as [c2 p1].
    apply IH; [exact H | lia].
Qed.

Lemma find_bookmark_loop_mono (fuel : nat) :
  forall (fuel' : nat) (search found : Z) (p : player) (r : Z * player),
    find_bookmark_loop fuel search found p = Some r -> (fuel <= fuel')%nat ->
    find_bookmark_loop fuel' search found p = Some r.
Proof.
  induction fuel as [| f IH]; intros fuel' search found p r H Hle.
  - discriminate H.
  - destruct fuel' as [| f']; [lia |]. cbn [find_bookmark_loop] in *.
    assert (Hf : (f <= f')%nat) by lia.
    destruct (next_player_char p) as [c p1].
    destruct (is_bookmark c).
    + destruct (next_player_char p1) as [mark p2].
      assert (Hparse : forall mark1,
        (let '(c1, p3) := next_player_char p2 in
         let '(c2, p4) :=
           if is_separator c1 then next_player_char p3 else (c1, p3) in
         match find_bookmark_digits f c2 0 p4 with
         | None => None
         | Some (c3, rep, p5) =>
             let p6 := set_player_ptr (player_ptr p5 - 1) p5 in
             let rep1 := if rep >? 254 then 254 else rep in
             let rep2 := if negb (nonzero rep1) then 255 else rep1 in
             let found0 := if mark1 =? search then 1 else 0 in
             let p7 :=
               if nonzero found0 || (search =? 255)
               then set_bookmark_at mark1
                      (mk_bookmark (Some (player_ptr p6)) (uint8 rep2)) p6
               else p6 in
             if nonzero c3 && negb (nonzero found0)
             then find_bookmark_loop f search found0 p7
             else Some (found0, p7)
         end) = Some r ->
        (let '(c1, p3) := next_player_char p2 in
         let '(c2, p4) :=
           if is_separator c1 then next_player_char p3 else (c1, p3) in
         match find_bookmark_digits f' c2 0 p4 with
         | None => None
         | Some (c3, rep, p5) =>
             let p6 := set_player_ptr (player_ptr p5 - 1) p5 in
             let rep1 := if rep >? 254 then 254 else rep in
             let rep2 := if negb (nonzero rep1) then 255 else rep1 in
             let found0 := if mark1 =? search then 1 else 0 in
             let p7 :=
               if nonzero found0 || (search =? 255)
               then set_bookmark_at mark1
                      (mk_bookmark (Some (player_ptr p6)) (uint8 rep2)) p6
               else p6 in
             if nonzero c3 && negb (nonzero found0)
             then find_bookmark_loop f' search found0 p7
             else Some (found0, p7)
         end) = Some r).
      { clear H. intros mark1. destruct (next_player_char p2) as [c1 p3].
        destruct (if is_separator c1 then next_player_char p3 else (c1, p3))
          as [c2 p4].
        destruct (find_bookmark_digits f c2 0 p4) as [[[c3 rep] p5] |] eqn:Hd;
          [| discriminate].
        rewrite (find_bookmark_digits_mono f f' c2 0 p4 _ Hd Hf).
        cbv zeta. intros H'.
        destruct (nonzero c3 && _); [| exact H'].
        exact (IH f' _ _ _ _ H' Hf). }
      destruct (is_separator mark); [exact (Hparse 0 H) |].
      destruct (is_digit c); [exact (Hparse _ H) |].
      destruct (_ && _); [| exact H]. exact (IH f' _ _ _ _ H Hf).
    + destruct (_ && _); [| exact H]. exact (IH f' _ _ _ _ H Hf).
Qed.

Lemma player_start_mono (fuel fuel' : nat) (str : list Z)
  (mem_space : player_space_t) (p r : player) :
  player_start fuel str mem_space p = Some r -> (fuel <= fuel')%nat ->
  player_start fuel' str mem_space p = Some r.
Proof.
  unfold player_start, find_bookmark. intros H Hle.
  destruct (find_bookmark_loop fuel 255 0 _) as [[found p1] |] eqn:Hl;
    [| discriminate H].
  rewrite (find_bookmark_loop_mono fuel fuel' _ _ _ _ Hl Hle). exact H.
Qed.

(** ** A stopped player stays stopped *)

Lemma player_ticks_stopped (ticks fuel : nat) (p : player) :
  player_is_stopped p = true -> player_ticks ticks fuel p = Some p.
Proof.
  unfold player_is_stopped. intros Hstop.
  induction ticks as [| t IH]; [reflexivity |].
  cbn [player_ticks]. unfold player_service. rewrite Hstop. exact IH.
Qed.

Lemma player_ticks_add (a b fuel : nat) (p : player) :
  player_ticks (a + b) fuel p
  = match player_ticks a fuel p with
    | Some p1 => player_ticks b fuel p1
    | None => None
    end.
Proof.
  revert p. induction a as [| a IH]; intros p; [reflexivity |].
  cbn [Nat.add player_ticks].
  destruct (player_service fuel p) as [p1 |]; [apply IH | reflexivity].
Qed.

(** ** The transposition command *)

(** Whatever the state of the player, reading the command letter P in the
    GET NOTE state leaves the state machine in STOP, the transposition
    untouched. *)
Lemma state_get_note_transpose (p : player) :
  fst (next_player_char p) = chr "P" ->
  state (state_get_note p) = STATE_STOP /\
  transposition (state_get_note p) = transposition p.
Proof.
  unfold state_get_note. intros Hc.
  destruct (next_player_char p) as [c0 p1] eqn:Hn.
  cbn [fst] in Hc. subst c0.
  unfold next_player_char in Hn. injection Hn as _ Hp1. subst p1.
  split; reflexivity.
Qed.

(** C6: on the score [P5:C] the first call of [player_service] reads the
    P command and stops the player: the transposition is still 0, the play
    pointer stands right after the P, and no note has been started. *)
Theorem transpose_command_stops_player :
  exists p0 p1,
    player_start 100 (bytes_of_string "P5:C") PLAYER_MEM_RAM power_up = Some p0 /\
    player_service 100 p0 = Some p1 /\
    player_is_stopped p1 = true /\
    transposition p1 = 0 /\
    player_ptr p1 = 1 /\
    tones p1 = [BeepMute 1; BeepPeriod 255 PRESCALE_STOP;
                BeepPeriod 255 PRESCALE_STOP; BeepMute 0; BeepGain 5;
                BeepMute 1; BeepPeriod 255 PRESCALE_STOP].
Proof.
  eexists _, _.
  split; [vm_compute; reflexivity |].
  split; [vm_compute; reflexivity |].
  vm_compute. repeat split.
Qed.

(** ** Bookmarks *)

(** The score [[0:3:C]0:] run to its end. *)
Lemma loop_score_run :
  exists p0 p1,
    player_start 100 loop_score PLAYER_MEM_RAM power_up = Some p0 /\
    player_ticks 1249 100 p0 = Some p1 /\
    player_is_stopped p1 = true /\
    count_tone note_C (tones p1) = 4%nat /\
    repeat (bookmark_at p1 0) = 0.
Proof.
  eexists _, _.
  split; [vm_compute; reflexivity |].
  split; [vm_compute; reflexivity |].
  vm_compute. repeat split.
Qed.

(** C7 as stated fails: the score [[0:3:C]0:] plays the note C four times
    before the player stops, not three times. *)
Lemma loop_score_plays_four_times :
  (exists p0 p1,
     player_start 100 loop_score PLAYER_MEM_RAM power_up = Some p0 /\
     player_ticks 1249 100 p0 = Some p1 /\
     player_is_stopped p1 = true /\
     count_tone note_C (tones p1) = 4%nat) /\
  4%nat <> 3%nat.
Proof.
  split; [| discriminate].
  destruct loop_score_run as (p0 & p1 & H0 & H1 & H2 & H3 & _).
  exists p0, p1. repeat split; assumption.
Qed.

Lemma bookmark_at_set (p : player) (d : Z) (b : bookmark_t) :
  0 <= d -> (Z.to_nat d < length (bookmark p))%nat ->
  bookmark_at (set_bookmark_at d b p) d = b.
Proof.
  intros Hd Hlen. unfold bookmark_at, set_bookmark_at.
  destruct (Z.ltb_spec d 0); [lia |]. cbn [bookmark set_bookmark].
  rewrite list_lookup_insert_eq by exact Hlen. reflexivity.
Qed.

(** One execution of the GOTO BOOKMARK state on a set bookmark whose
    counter is [r]: it jumps unless [r] is 0, and counts down unless the
    counter is 0 or 255. *)
Lemma state_goto_bookmark_counter (p : player) (d pos r : Z) :
  0 <= d -> (Z.to_nat d < length (bookmark p))%nat ->
  bookmark_at p d = mk_bookmark (Some pos) r -> 0 <= r <= 254 ->
  let q := state_goto_bookmark (set_digit d p) in
  length (bookmark q) = length (bookmark p) /\
  bookmark_at q d = mk_bookmark (Some pos) (if r =? 0 then 0 else r - 1) /\
  (r <> 0 -> player_ptr q = pos) /\
  (r = 0 -> player_ptr q = player_ptr p).
Proof.
  intros Hd Hlen Hb Hr q. subst q. unfold state_goto_bookmark.
  change (digit (set_digit d p)) with d.
  change (bookmark_at (set_digit d p) d) with (bookmark_at p d).
  rewrite Hb. unfold jump_enabled, nonzero. cbn [repeat position].
  destruct (Z.eqb_spec r 0) as [-> | Hnz]; cbn [negb andb].
  - repeat split; try reflexivity; try (intros; congruence).
    exact Hb.
  - destruct (Z.eqb_spec r 255) as [-> | _]; [lia |]. cbn [negb].
    assert (Eu : uint8 (r - 1) = r - 1) by (unfold uint8; apply Z.mod_small; lia).
    rewrite Eu.
    split; [| split; [| split]].
    + unfold set_bookmark_at. destruct (d <? 0); [reflexivity |].
      cbn. apply length_insert.
    + change (bookmark_at
                (set_state STATE_GET_NOTE
                   (set_player_ptr pos
                      (set_bookmark_at d (mk_bookmark (Some pos) (r - 1))
                         (set_digit d p)))) d)
        with (bookmark_at
                (set_bookmark_at d (mk_bookmark (Some pos) (r - 1))
                   (set_digit d p)) d).
      apply bookmark_at_set; [exact Hd | exact Hlen].
    + intros _. reflexivity.
    + intros E. contradiction.
Qed.

(** The jump back to a bookmark with repeat count [r] is taken [r] times
    and no more. *)
Lemma count_jumps_min (n : nat) :
  forall (p : player) (d pos r : Z),
    0 <= d -> (Z.to_nat d < length (bookmark p))%nat ->
    bookmark_at p d = mk_bookmark (Some pos) r -> 0 <= r <= 254 ->
    count_jumps n d p = Nat.min n (Z.to_nat r).
Proof.
  induction n as [| n IH]; intros p d pos r Hd Hlen Hb Hr; [reflexivity |].
  cbn [count_jumps].
  destruct (state_goto_bookmark_counter p d pos r Hd Hlen Hb Hr)
    as (Hlen' & Hb' & _ & _).
  rewrite (IH _ d pos (if r =? 0 then 0 else r - 1) Hd
              ltac:(rewrite Hlen'; exact Hlen) Hb'
              ltac:(destruct (Z.eqb_spec r 0); lia)).
  rewrite Hb. unfold jump_enabled, nonzero. cbn [repeat position].
  destruct (Z.eqb_spec r 0) as [-> | Hnz]; cbn [negb andb]; lia.
Qed.

(** [n] executions of the jump to a bookmark with repeat count [r]: the
    first [r] of them set [player_ptr] to the bookmark's position and
    count the repeat counter down, the others leave [player_ptr] where it
    was. *)
Lemma goto_bookmark_run_spec (n : nat) :
  forall (p : player) (d pos r here : Z),
    0 <= d -> (Z.to_nat d < length (bookmark p))%nat ->
    bookmark_at p d = mk_bookmark (Some pos) r -> 0 <= r <= 254 ->
    fst (goto_bookmark_run n d here p)
    = replicate (Nat.min n (Z.to_nat r)) pos
      ++ replicate (n - Z.to_nat r) here /\
    bookmark_at (snd (goto_bookmark_run n d here p)) d
    = mk_bookmark (Some pos) (Z.of_nat (Z.to_nat r - n)).
Proof.
  induction n as [| n IH]; intros p d pos r here Hd Hlen Hb Hr.
  - cbn [goto_bookmark_run fst snd Nat.min Nat.sub replicate app].
    rewrite Nat.sub_0_r, Z2Nat.id by lia. split; [reflexivity | exact Hb].
  - cbn [goto_bookmark_run].
    destruct (state_goto_bookmark_counter (set_player_ptr here p) d pos r
                Hd Hlen Hb Hr) as (Hlen' & Hb' & Hjump & Hstay).
    cbv zeta in Hlen', Hb', Hjump, Hstay.
    set (q := state_goto_bookmark (set_digit d (set_player_ptr here p))) in *.
    destruct (IH q d pos (if r =? 0 then 0 else r - 1) here Hd
                ltac:(rewrite Hlen'; exact Hlen) Hb'
                ltac:(destruct (Z.eqb_spec r 0); lia)) as (IHl & IHb).
    destruct (goto_bookmark_run n d here q) as [ptrs q'].
    cbn [fst snd] in *. rewrite IHl, IHb.
    destruct (Z.eqb_spec r 0) as [-> | Hnz].
    + rewrite (Hstay eq_refl).
      change (player_ptr (set_player_ptr here p)) with here.
      change (Z.to_nat 0) with 0%nat.
      rewrite !Nat.min_0_r, !Nat.sub_0_r. cbn [replicate app Nat.sub].
      split; reflexivity.
    + rewrite (Hjump Hnz).
      replace (Z.to_nat r) with (S (Z.to_nat (r - 1))) by lia.
      cbn [Nat.min Nat.sub replicate app]. split; reflexivity.
Qed.

(** C7, amended: the score [[0:3:C]0:] plays the note C four times and
    then stops, bookmark 0's repeat counter having reached 0; in general
    the jump back to a bookmark with repeat count r in 1..254 is taken
    exactly r times: of any [n >= r] executions of the jump in a row, the
    first r set [player_ptr] to the position of the bookmark, the
    remaining ones leave [player_ptr] behind the jump command, and the
    repeat counter ends at 0. *)
Theorem bookmark_jump_taken_r_times (fuel ticks : nat) (p : player)
  (d pos r : Z) (n : nat) :
  (100 <= fuel)%nat -> (1249 <= ticks)%nat ->
  0 <= d -> (Z.to_nat d < length (bookmark p))%nat ->
  bookmark_at p d = mk_bookmark (Some pos) r ->
  1 <= r <= 254 -> (Z.to_nat r <= n)%nat ->
  (exists p0 p1,
     player_start fuel loop_score PLAYER_MEM_RAM power_up = Some p0 /\
     player_ticks ticks fuel p0 = Some p1 /\
     player_is_stopped p1 = true /\
     count_tone note_C (tones p1) = 4%nat /\
     repeat (bookmark_at p1 0) = 0) /\
  count_jumps n d p = Z.to_nat r /\
  (forall here : Z,
     fst (goto_bookmark_run n d here p)
     = replicate (Z.to_nat r) pos ++ replicate (n - Z.to_nat r) here /\
     bookmark_at (snd (goto_bookmark_run n d here p)) d
     = mk_bookmark (Some pos) 0).
Proof.
  intros Hfuel Hticks Hd Hlen Hb Hr Hn. split; [| split].
  - destruct loop_score_run as (p0 & p1 & H0 & H1 & H2 & H3 & H4).
    exists p0, p1.
    split; [exact (player_start_mono 100 fuel _ _ _ _ H0 Hfuel) |].
    split; [| repeat split; assumption].
    replace ticks with (1249 + (ticks - 1249))%nat by lia.
    rewrite player_ticks_add.
    rewrite (player_ticks_mono 1249 100 fuel p0 p1 H1 Hfuel).
    apply player_ticks_stopped. exact H2.
  - rewrite (count_jumps_min n p d pos r Hd Hlen Hb ltac:(lia)). lia.
  - intros here.
    destruct (goto_bookmark_run_spec n p d pos r here Hd Hlen Hb
                ltac:(lia)) as (Hl & Hc).
    rewrite Hl, Hc.
    replace (Nat.min n (Z.to_nat r)) with (Z.to_nat r) by lia.
    replace (Z.to_nat r - n)%nat with 0%nat by lia.
    split; reflexivity.
Qed.

(** The score after 2000 ticks, and a bookmark at offset 7 with repeat
    count 12: twelve jumps to 7, then eight executions that go straight
    on. *)
Lemma bookmark_jump_taken_r_times_witness :
  (exists p0 p1,
     player_start 100 loop_score PLAYER_MEM_RAM power_up = Some p0 /\
     player_ticks 2000 100 p0 = Some p1 /\
     player_is_stopped p1 = true /\
     count_tone note_C (tones p1) = 4%nat /\
     repeat (bookmark_at p1 0) = 0) /\
  count_jumps 20 3 marked_player = Z.to_nat 12 /\
  (forall here : Z,
     fst (goto_bookmark_run 20 3 here marked_player)
     = replicate (Z.to_nat 12) 7 ++ replicate (20 - Z.to_nat 12) here /\
     bookmark_at (snd (goto_bookmark_run 20 3 here marked_player)) 3
     = mk_bookmark (Some 7) 0).
Proof.
  apply (bookmark_jump_taken_r_times 100 2000 marked_player 3 7 12 20).
  - lia.
  - lia.
  - lia.
  - vm_compute. lia.
  - reflexivity.
  - lia.
  - vm_compute. lia.
Defined.

End PlayerSpec.

(** * More on the timekeeper *)

Module ClockFacts.
Import Clock.

Ltac mod_lia := Z.div_mod_to_equations; lia.

(** The 12-hour reading of a valid hour is 1..12 with an AM/PM flag, and
    determines the hour: hour_24 = hour_12 mod 12 + 12 * am_pm. *)
Theorem hour_24_to_12_inverse (h : Z) :
  0 <= h < 24 ->
  1 <= fst (hour_24_to_12 h) <= 12 /\
  (snd (hour_24_to_12 h) = 0 \/ snd (hour_24_to_12 h) = 1) /\
  h = fst (hour_24_to_12 h) mod 12 + 12 * snd (hour_24_to_12 h).
Proof.
  intros Hh. unfold hour_24_to_12, uint8. cbn [fst snd].
  destruct (Z.geb_spec h 12); destruct (Z.eqb_spec h 0);
    destruct (Z.gtb_spec h 12); try lia;
    repeat split; try lia; try mod_lia; try (left; reflexivity);
    try (right; reflexivity).
Qed.

(** 17:00 reads as 5 PM. *)
Lemma hour_24_to_12_inverse_witness :
  0 <= 17 < 24 /\ hour_24_to_12 17 = (5, 1) /\
  17 = fst (hour_24_to_12 17) mod 12 + 12 * snd (hour_24_to_12 17).
Proof.
  split; [lia |]. split; [reflexivity |].
  apply (hour_24_to_12_inverse 17). lia.
Defined.

(** Setting the clock with [set_time_12] and reading it back with
    [get_time_12] does not give the time back: the hour comes back one
    lower (12 for 1), with the same AM/PM flag, minute and second. *)
Theorem set_time_12_reads_back_one_hour_early (h12 m s am_pm : Z) (c : clock) :
  1 <= h12 <= 12 -> am_pm = 0 \/ am_pm = 1 ->
  get_time_12 (set_time_12 (mk_time h12 m s) am_pm c)
  = (mk_time (if h12 =? 1 then 12 else h12 - 1) m s, am_pm).
Proof.
  intros Hh Hap.
  assert (Hc : h12 = 1 \/ h12 = 2 \/ h12 = 3 \/ h12 = 4 \/ h12 = 5 \/ h12 = 6 \/
               h12 = 7 \/ h12 = 8 \/ h12 = 9 \/ h12 = 10 \/ h12 = 11 \/ h12 = 12)
    by lia.
  destruct Hap as [-> | ->];
    destruct Hc as [-> | [-> | [-> | [-> | [-> | [-> | [-> | [-> | [-> | [-> | [-> | ->]]]]]]]]]]];
    reflexivity.
Qed.

(** 12 AM set, 11 AM read back. *)
Lemma set_time_12_reads_back_one_hour_early_witness :
  get_time_12 (set_time_12 (mk_time 12 30 0) 0 (time_date_init (mk_clock (mk_time 0 0 0) (mk_date 0 0 0) 1)))
  = (mk_time 11 30 0, 0).
Proof.
  apply (set_time_12_reads_back_one_hour_early 12 30 0 0); [lia | left; reflexivity].
Defined.

(** With the clock running, one update of a valid time gives a valid
    time that is one second later in the day, midnight following
    23:59:59; the date is touched only by the update at 23:59:59. *)
Theorem time_date_update_next_second (c : clock) :
  run c <> 0 -> time_valid (time c) ->
  time_valid (time (time_date_update c)) /\
  second_of_day (time (time_date_update c))
  = (second_of_day (time c) + 1) mod 86400 /\
  (second_of_day (time c) <> 86399 -> date (time_date_update c) = date c) /\
  run (time_date_update c) = run c.
Proof.
  intros Hrun (Hh & Hm & Hs).
  destruct c as [[h m s] d r]. cbn [time hour minute second run] in *.
  unfold time_date_update, nonzero, time_valid, second_of_day, uint8.
  cbn [time hour minute second run date].
  destruct (Z.eqb_spec r 0) as [E | _]; [contradiction |]. cbn [negb].
  rewrite (Z.mod_small (s + 1)) by lia.
  destruct (Z.geb_spec (s + 1) 60) as [Hs1 | Hs1].
  - rewrite (Z.mod_small (m + 1)) by lia.
    destruct (Z.geb_spec (m + 1) 60) as [Hm1 | Hm1].
    + rewrite (Z.mod_small (h + 1)) by lia.
      destruct (Z.geb_spec (h + 1) 24) as [Hh1 | Hh1].
      * repeat match goal with
               | |- context [if ?b then _ else _] => destruct b
               end;
          cbn [time hour minute second run date];
          (repeat split; try lia; try mod_lia).
      * cbn [time hour minute second run date].
        repeat split; try lia; mod_lia.
    + cbn [time hour minute second run date].
      repeat split; try lia; mod_lia.
  - cbn [time hour minute second run date].
    repeat split; try lia; mod_lia.
Qed.

(** 22:59:59 becomes 23:00:00. *)
Lemma time_date_update_next_second_witness :
  second_of_day
    (time (time_date_update (mk_clock (mk_time 22 59 59) (mk_date 2009 3 1) 1)))
  = (second_of_day (mk_time 22 59 59) + 1) mod 86400.
Proof.
  apply (time_date_update_next_second
           (mk_clock (mk_time 22 59 59) (mk_date 2009 3 1) 1)).
  - simpl. lia.
  - unfold time_valid. simpl. lia.
Defined.

End ClockFacts.

(** * More on the event queue *)

Module EventFacts.
Import Event.

Ltac mod_lia := Z.div_mod_to_equations; lia.

Lemma nth_insert_eq {A : Type} (l : list A) (i : nat) (x d : A) :
  (i < length l)%nat -> nth i (<[i := x]> l) d = x.
Proof.
  intros Hlt. rewrite nth_lookup, list_lookup_insert_eq by exact Hlt.
  reflexivity.
Qed.

Lemma nth_insert_ne {A : Type} (l : list A) (i j : nat) (x d : A) :
  i <> j -> nth j (<[i := x]> l) d = nth j l d.
Proof.
  intros Hne. rewrite !nth_lookup, list_lookup_insert_ne by exact Hne.
  reflexivity.
Qed.

Lemma scan_for_events_no_sources (q : queue) :
  scan_for_events no_sources q = q.
Proof. reflexivity. Qed.

(** The queue after [add_event], when it does not overflow. *)
Lemma add_event_no_overflow (ev dat : Z) (q : queue) :
  queue_ok q -> pending_count q < 15 ->
  add_event ev dat q
  = mk_queue ((event_queue_head q + 1) mod 16) (event_queue_tail q)
      (<[Z.to_nat (event_queue_head q) := mk_event ev dat]> (event_queue q)).
Proof.
  intros (Hh & Ht & Hl) Hn. unfold add_event, pending_count, uint8 in *.
  unfold EVENT_QUEUE_SIZE in *.
  rewrite (Z.mod_small (event_queue_head q + 1) 256) by lia.
  destruct (Z.geb_spec (event_queue_head q + 1) 16) as [Hge | Hlt].
  - destruct (Z.eqb_spec 0 (event_queue_tail q)) as [E | E]; [mod_lia |].
    f_equal. mod_lia.
  - destruct (Z.eqb_spec (event_queue_head q + 1) (event_queue_tail q))
      as [E | E]; [mod_lia |].
    f_equal. mod_lia.
Qed.

Lemma add_event_pending (ev dat : Z) (q : queue) :
  queue_ok q -> pending_count q < 15 ->
  queue_ok (add_event ev dat q) /\
  pending (add_event ev dat q) = pending q ++ [mk_event ev dat].
Proof.
  intros Hok Hn. rewrite add_event_no_overflow by assumption.
  destruct Hok as (Hh & Ht & Hl).
  destruct q as [h t slots].
  cbn [event_queue_head event_queue_tail event_queue] in *.
  unfold pending_count, EVENT_QUEUE_SIZE in *.
  cbn [event_queue_head event_queue_tail event_queue] in *.
  split.
  - unfold queue_ok, EVENT_QUEUE_SIZE.
    cbn [event_queue_head event_queue_tail event_queue].
    rewrite length_insert. repeat split; try lia; mod_lia.
  - unfold pending, pending_count, slot_at, EVENT_QUEUE_SIZE.
    cbn [event_queue_head event_queue_tail event_queue].
    replace (Z.to_nat ((((h + 1) mod 16) - t) mod 16))
      with (S (Z.to_nat ((h - t) mod 16))) by mod_lia.
    rewrite seq_S, map_app. cbn [map Nat.add]. f_equal.
    + apply map_ext_in. intros k Hk. apply in_seq in Hk.
      apply nth_insert_ne. mod_lia.
    + f_equal.
      replace (Z.to_nat ((t + Z.of_nat (Z.to_nat ((h - t) mod 16))) mod 16))
        with (Z.to_nat h) by mod_lia.
      apply nth_insert_eq. lia.
Qed.

(** While fewer than 15 events are waiting, [add_event] keeps the indices
    inside the array and puts the new event behind the waiting ones. *)
Theorem add_event_appends (ev dat : Z) (q : queue) :
  queue_ok q -> pending_count q < 15 ->
  queue_ok (add_event ev dat q) /\
  pending (add_event ev dat q) = pending q ++ [mk_event ev dat].
Proof. exact (add_event_pending ev dat q). Qed.

(** An empty queue takes one event. *)
Lemma add_event_appends_witness :
  pending (add_event TIMER_EXPIRED 3 (clear_events (mk_queue 9 4 empty_slots)))
  = pending (clear_events (mk_queue 9 4 empty_slots))
    ++ [mk_event TIMER_EXPIRED 3].
Proof.
  apply (add_event_appends TIMER_EXPIRED 3
           (clear_events (mk_queue 9 4 empty_slots))).
  - unfold queue_ok. simpl. repeat split; lia.
  - vm_compute. reflexivity.
Defined.

(** [add_event] on a queue of 15 waiting events with the tail below the
    last slot: the oldest event goes and the new one comes last. *)
Lemma add_event_full (ev dat : Z) (q : queue) :
  queue_ok q -> pending_count q = 15 -> event_queue_tail q < 15 ->
  queue_ok (add_event ev dat q) /\
  pending (add_event ev dat q) = tl (pending q) ++ [mk_event ev dat].
Proof.
  intros (Hh & Ht & Hl) Hn Ht15.
  destruct q as [h t slots].
  cbn [event_queue_head event_queue_tail event_queue] in *.
  unfold pending_count, EVENT_QUEUE_SIZE in *.
  cbn [event_queue_head event_queue_tail event_queue] in *.
  assert (E : add_event ev dat (mk_queue h t slots)
              = mk_queue t (t + 1) (<[Z.to_nat h := mk_event ev dat]> slots)).
  { unfold add_event, uint8, EVENT_QUEUE_SIZE.
    cbn [event_queue_head event_queue_tail event_queue].
    rewrite (Z.mod_small (h + 1) 256) by lia.
    destruct (Z.geb_spec (h + 1) 16) as [Hge | Hlt].
    - destruct (Z.eqb_spec 0 t) as [E | E]; [| mod_lia].
      subst t. rewrite Z.mod_small by lia. reflexivity.
    - destruct (Z.eqb_spec (h + 1) t) as [E | E]; [| mod_lia].
      rewrite Z.mod_small by lia. f_equal. lia. }
  rewrite E. split.
  - unfold queue_ok, EVENT_QUEUE_SIZE.
    cbn [event_queue_head event_queue_tail event_queue].
    rewrite length_insert. repeat split; lia.
  - unfold pending, pending_count, slot_at, EVENT_QUEUE_SIZE.
    cbn [event_queue_head event_queue_tail event_queue].
    replace (Z.to_nat ((t - (t + 1)) mod 16)) with 15%nat by mod_lia.
    rewrite Hn. change (Z.to_nat 15) with 15%nat.
    change (seq 0 15) with (0%nat :: seq 1 14) at 2.
    cbn [map tl].
    change (seq 0 15) with (seq 0 14 ++ [14%nat]).
    rewrite map_app. cbn [map]. f_equal.
    + rewrite <- seq_shift, map_map.
      apply map_ext_in. intros k Hk. apply in_seq in Hk.
      rewrite nth_insert_ne by mod_lia.
      f_equal. f_equal. mod_lia.
    + f_equal.
      replace (Z.to_nat ((t + 1 + Z.of_nat 14) mod 16)) with (Z.to_nat h)
        by mod_lia.
      apply nth_insert_eq. lia.
Qed.

(** When 15 events are waiting, [add_event] stores the new event and
    moves the tail on to make room.  With the tail below the last slot
    the oldest event is dropped and the others stay in order, the new one
    last.  With the tail at the last slot the tail index becomes 16,
    outside the array: the tail is incremented without the wrap that the
    head gets. *)
Theorem add_event_full_drops_oldest (ev dat : Z) (q : queue) :
  queue_ok q -> pending_count q = 15 ->
  slot_at (add_event ev dat q) (event_queue_head q) = mk_event ev dat /\
  (event_queue_tail q < 15 ->
   queue_ok (add_event ev dat q) /\
   pending (add_event ev dat q) = tl (pending q) ++ [mk_event ev dat]) /\
  (event_queue_tail q = 15 ->
   event_queue_head (add_event ev dat q) = 15 /\
   event_queue_tail (add_event ev dat q) = 16 /\
   ~ queue_ok (add_event ev dat q)).
Proof.
  intros Hok Hn. split; [| split].
  - destruct Hok as (Hh & _ & Hl). unfold slot_at, add_event.
    cbn [event_queue]. apply nth_insert_eq.
    unfold EVENT_QUEUE_SIZE in *. lia.
  - intros Ht. exact (add_event_full ev dat q Hok Hn Ht).
  - intros Ht. destruct Hok as (Hh & _ & _).
    unfold pending_count, EVENT_QUEUE_SIZE in *.
    assert (Eh : event_queue_head q = 14) by mod_lia.
    assert (E : event_queue_head (add_event ev dat q) = 15
                /\ event_queue_tail (add_event ev dat q) = 16).
    { unfold add_event. cbn [event_queue_head event_queue_tail].
      rewrite Eh, Ht. split; reflexivity. }
    destruct E as (E1 & E2). split; [exact E1 |]. split; [exact E2 |].
    intros (_ & Hbad & _). unfold EVENT_QUEUE_SIZE in Hbad. lia.
Qed.

(** A full queue with the tail at slot 2, and one with the tail at the
    last slot. *)
Lemma add_event_full_drops_oldest_witness :
  pending (add_event BUTTON_CHORD 33 (mk_queue 1 2 empty_slots))
  = tl (pending (mk_queue 1 2 empty_slots)) ++ [mk_event BUTTON_CHORD 33] /\
  event_queue_tail (add_event BUTTON_CHORD 33 (mk_queue 14 15 empty_slots))
  = 16.
Proof.
  assert (Hok : forall h t, 0 <= h < 16 -> 0 <= t < 16 ->
                            queue_ok (mk_queue h t empty_slots))
    by (intros h t Hh Ht; unfold queue_ok, EVENT_QUEUE_SIZE; cbn;
        repeat split; lia).
  split.
  - destruct (add_event_full_drops_oldest BUTTON_CHORD 33
                (mk_queue 1 2 empty_slots)
                (Hok 1 2 ltac:(lia) ltac:(lia)) eq_refl) as (_ & Hlow & _).
    exact (proj2 (Hlow ltac:(cbn; lia))).
  - destruct (add_event_full_drops_oldest BUTTON_CHORD 33
                (mk_queue 14 15 empty_slots)
                (Hok 14 15 ltac:(lia) ltac:(lia)) eq_refl) as (_ & _ & Hlast).
    exact (proj1 (proj2 (Hlast eq_refl))).
Defined.

Lemma pending_length (q : queue) :
  Z.of_nat (length (pending q)) = pending_count q.
Proof.
  unfold pending. rewrite length_map, length_seq.
  unfold pending_count, EVENT_QUEUE_SIZE. mod_lia.
Qed.

Lemma read_slot_in_range (q : queue) (i : Z) :
  queue_ok q -> 0 <= i < 16 -> read_slot q i = Slot (slot_at q i).
Proof.
  intros (_ & _ & Hl) Hi. unfold read_slot, slot_at, EVENT_QUEUE_SIZE in *.
  destruct (Z.leb_spec 0 i); [| lia]. destruct (Z.ltb_spec i 16); [| lia].
  cbn [andb]. rewrite nth_lookup.
  destruct (lookup_lt_is_Some_2 (event_queue q) (Z.to_nat i)) as [e He];
    [lia |].
  rewrite He. reflexivity.
Qed.

Lemma get_next_event_pending (q : queue) :
  queue_ok q ->
  (pending q = [] ->
   get_next_event no_sources q = (q, Slot (mk_event NO_EVENT 0))) /\
  (forall e rest,
     pending q = e :: rest ->
     exists q',
       get_next_event no_sources q = (q', Slot e) /\
       queue_ok q' /\ pending q' = rest).
Proof.
  intros Hok. pose proof Hok as (Hh & Ht & Hl).
  pose proof (pending_length q) as Hlen.
  unfold get_next_event. rewrite scan_for_events_no_sources.
  destruct q as [h t slots].
  cbn [event_queue_head event_queue_tail event_queue] in *.
  unfold pending_count, EVENT_QUEUE_SIZE in *.
  cbn [event_queue_head event_queue_tail event_queue] in *.
  split.
  - intros Hp. rewrite Hp in Hlen. cbn [length] in Hlen.
    assert (h = t) by mod_lia. subst t.
    rewrite Z.eqb_refl. reflexivity.
  - intros e rest Hp. rewrite Hp in Hlen. cbn [length] in Hlen.
    destruct (Z.eqb_spec h t) as [E | Hne]; [mod_lia |]. cbn [negb].
    rewrite read_slot_in_range by (exact Hok || lia).
    eexists. split; [| split].
    + f_equal. f_equal.
      unfold pending, pending_count, EVENT_QUEUE_SIZE in Hp.
      cbn [event_queue_head event_queue_tail event_queue] in Hp.
      replace (Z.to_nat ((h - t) mod 16))
        with (S (Z.to_nat ((h - t) mod 16) - 1)) in Hp by mod_lia.
      cbn [seq map] in Hp. injection Hp as He _. rewrite <- He.
      f_equal. mod_lia.
    + unfold queue_ok, uint8, EVENT_QUEUE_SIZE.
      cbn [event_queue_head event_queue_tail event_queue].
      rewrite (Z.mod_small (t + 1) 256) by lia.
      destruct (Z.geb_spec (t + 1) 16); repeat split; lia.
    + unfold pending, pending_count, slot_at, uint8, EVENT_QUEUE_SIZE in *.
      cbn [event_queue_head event_queue_tail event_queue] in *.
      rewrite (Z.mod_small (t + 1) 256) by lia.
      replace (Z.to_nat ((h - t) mod 16))
        with (S (Z.to_nat ((h - t) mod 16) - 1)) in Hp by mod_lia.
      cbn [seq map] in Hp. injection Hp as _ Hrest. rewrite <- Hrest.
      rewrite <- seq_shift, map_map.
      set (t' := if t + 1 >=? 16 then 0 else t + 1).
      assert (Et : t' = (t + 1) mod 16).
      { subst t'. destruct (Z.geb_spec (t + 1) 16); mod_lia. }
      replace (Z.to_nat ((h - t') mod 16))
        with (Z.to_nat ((h - t) mod 16) - 1)%nat by mod_lia.
      apply map_ext_in. intros k Hk. apply in_seq in Hk.
      f_equal. f_equal. rewrite Et. mod_lia.
Qed.

(** With nothing new from the sources, [get_next_event] on an empty
    queue returns NO_EVENT and changes nothing; otherwise it returns the
    oldest waiting event and leaves the others waiting, in order. *)
Theorem get_next_event_takes_oldest (q : queue) :
  queue_ok q ->
  (pending q = [] ->
   get_next_event no_sources q = (q, Slot (mk_event NO_EVENT 0))) /\
  (forall e rest,
     pending q = e :: rest ->
     exists q',
       get_next_event no_sources q = (q', Slot e) /\
       queue_ok q' /\ pending q' = rest).
Proof. exact (get_next_event_pending q). Qed.

(** A queue holding two events gives up the first. *)
Lemma get_next_event_takes_oldest_witness :
  exists q',
    get_next_event no_sources
      (add_events 2 TIMER_EXPIRED 5 (mk_queue 15 15 empty_slots))
    = (q', Slot (mk_event TIMER_EXPIRED 5)) /\
    queue_ok q' /\ pending q' = [mk_event TIMER_EXPIRED 6].
Proof.
  apply (proj2 (get_next_event_takes_oldest
                  (add_events 2 TIMER_EXPIRED 5 (mk_queue 15 15 empty_slots))
                  ltac:(unfold queue_ok; vm_compute; repeat split;
                        congruence))).
  reflexivity.
Defined.

(** [unget_next_event] scans the sources as [get_next_event] does and
    returns the event that [get_next_event] would have returned in its
    place, whatever the scan added; it takes nothing out: the queue is as
    the scan left it, and the next [get_next_event], with nothing new
    latched, returns that same event. *)
Theorem unget_next_event_peeks (s : sources) (q : queue) :
  snd (unget_next_event s q) = snd (get_next_event s q) /\
  fst (unget_next_event s q) = scan_for_events s q /\
  snd (get_next_event no_sources (fst (unget_next_event s q)))
  = snd (unget_next_event s q).
Proof.
  unfold unget_next_event, get_next_event.
  destruct (negb (event_queue_head (scan_for_events s q)
                  =? event_queue_tail (scan_for_events s q))) eqn:E;
    cbn [fst snd]; rewrite scan_for_events_no_sources, E;
    repeat split; reflexivity.
Qed.


Lemma add_event_list_pending (l : list event_t) :
  forall (q : queue),
    queue_ok q -> (length (pending q) + length l <= 15)%nat ->
    queue_ok (add_event_list l q) /\
    pending (add_event_list l q) = pending q ++ l.
Proof.
  induction l as [| e l IH]; intros q Hok Hlen.
  - split; [exact Hok |]. rewrite app_nil_r. reflexivity.
  - cbn [add_event_list fold_left length] in *.
    pose proof (pending_length q) as Hp.
    destruct (add_event_pending (event e) (data e) q Hok ltac:(lia))
      as (Hok1 & Hpend1).
    destruct (IH (add_event (event e) (data e) q) Hok1) as (Hok2 & Hpend2).
    { rewrite Hpend1, length_app. cbn [length]. lia. }
    split; [exact Hok2 |].
    unfold add_event_list in Hpend2. rewrite Hpend2, Hpend1.
    destruct e as [ev dat]. cbn [event data]. rewrite <- app_assoc.
    reflexivity.
Qed.

Lemma get_events_pending (l : list event_t) :
  forall (q : queue),
    queue_ok q -> pending q = l ->
    exists q',
      get_events (length l) q = (map Slot l, q') /\
      queue_ok q' /\ pending q' = [].
Proof.
  induction l as [| e l IH]; intros q Hok Hp.
  - exists q. split; [reflexivity | split; assumption].
  - destruct (get_next_event_pending q Hok) as (_ & Hpop).
    destruct (Hpop e l Hp) as (q1 & Hget & Hok1 & Hp1).
    destruct (IH q1 Hok1 Hp1) as (q2 & Hrun & Hok2 & Hp2).
    exists q2. cbn [get_events length map]. rewrite Hget, Hrun.
    split; [reflexivity | split; assumption].
Qed.

Lemma pending_clear_events (q : queue) : pending (clear_events q) = [].
Proof. reflexivity. Qed.

(** First in, first out: up to 15 events added to a cleared queue come
    back from as many calls of [get_next_event] in the order they were
    added, and the next call returns NO_EVENT. *)
Theorem event_queue_fifo (l : list event_t) (q : queue) :
  length (event_queue q) = 16%nat -> (length l <= 15)%nat ->
  exists q',
    get_events (length l) (add_event_list l (clear_events q))
    = (map Slot l, q') /\
    get_next_event no_sources q' = (q', Slot (mk_event NO_EVENT 0)).
Proof.
  intros Hl Hlen.
  assert (Hok : queue_ok (clear_events q)).
  { unfold queue_ok, EVENT_QUEUE_SIZE. cbn. repeat split; first [lia | exact Hl]. }
  destruct (add_event_list_pending l (clear_events q) Hok) as (Hok1 & Hp1).
  { rewrite pending_clear_events. cbn [length]. lia. }
  rewrite pending_clear_events in Hp1. cbn [app] in Hp1.
  destruct (get_events_pending l _ Hok1 Hp1) as (q' & Hrun & Hok2 & Hp2).
  exists q'. split; [exact Hrun |].
  apply (proj1 (get_next_event_pending q' Hok2)). exact Hp2.
Qed.

(** Three events through a queue that was in use before. *)
Lemma event_queue_fifo_witness :
  exists q',
    get_events 3
      (add_event_list
         [mk_event BUTTON_CHORD 33; mk_event TIMER_EXPIRED 2;
          mk_event LEFT_ROTARY_MOVED 255]
         (clear_events (mk_queue 7 3 empty_slots)))
    = ([Slot (mk_event BUTTON_CHORD 33); Slot (mk_event TIMER_EXPIRED 2);
        Slot (mk_event LEFT_ROTARY_MOVED 255)], q') /\
    get_next_event no_sources q' = (q', Slot (mk_event NO_EVENT 0)).
Proof.
  apply (event_queue_fifo
           [mk_event BUTTON_CHORD 33; mk_event TIMER_EXPIRED 2;
            mk_event LEFT_ROTARY_MOVED 255] (mk_queue 7 3 empty_slots)).
  - reflexivity.
  - simpl. lia.
Defined.

(** The four per-button predicates tell the phases of the events
    4 * button + phase + 1 apart, and all of these are button events; the
    identifier NO_EVENT, which [get_next_event] returns for an empty
    queue, is reported as a long press and as a button event. *)
Theorem button_event_classes (i phase : Z) :
  0 <= i < 8 -> 0 <= phase < 4 ->
  is_button_pressed_event (4 * i + phase + 1) = (phase =? 0) /\
  is_button_released_event (4 * i + phase + 1) = (phase =? 1) /\
  is_button_short_event (4 * i + phase + 1) = (phase =? 2) /\
  is_button_long_event (4 * i + phase + 1) = (phase =? 3) /\
  is_button_event (4 * i + phase + 1) = true /\
  is_button_long_event NO_EVENT = true /\
  is_button_event NO_EVENT = true.
Proof.
  intros Hi Hp.
  assert (Hic : i = 0 \/ i = 1 \/ i = 2 \/ i = 3 \/ i = 4 \/ i = 5 \/ i = 6 \/
                i = 7) by lia.
  assert (Hpc : phase = 0 \/ phase = 1 \/ phase = 2 \/ phase = 3) by lia.
  destruct Hic as [-> | [-> | [-> | [-> | [-> | [-> | [-> | ->]]]]]]];
    destruct Hpc as [-> | [-> | [-> | ->]]]; vm_compute; repeat split.
Qed.

(** BUTTON2_SHORT, event 11. *)
Lemma button_event_classes_witness :
  is_button_short_event (4 * 2 + 2 + 1) = (2 =? 2) /\
  is_button_long_event NO_EVENT = true.
Proof.
  pose proof (button_event_classes 2 2 ltac:(lia) ltac:(lia)) as H.
  split; [apply H |]. apply H.
Defined.

Lemma scan_one_button_latch (i phase deb : Z) (q : queue) :
  0 <= i < 8 -> 0 <= phase < 4 ->
  scan_for_events (one_button_latch i phase deb) q
  = add_event (4 * i + phase + 1) deb q.
Proof.
  intros Hi Hp.
  assert (Hic : i = 0 \/ i = 1 \/ i = 2 \/ i = 3 \/ i = 4 \/ i = 5 \/ i = 6 \/
                i = 7) by lia.
  assert (Hpc : phase = 0 \/ phase = 1 \/ phase = 2 \/ phase = 3) by lia.
  destruct Hic as [-> | [-> | [-> | [-> | [-> | [-> | [-> | ->]]]]]]];
    destruct Hpc as [-> | [-> | [-> | ->]]]; reflexivity.
Qed.

(** A scan that finds one bit set in one button latch adds exactly the
    event 4 * bit + phase + 1, carrying the debounced bitmap. *)
Theorem scan_for_events_one_button (i phase deb : Z) (q : queue) :
  0 <= i < 8 -> 0 <= phase < 4 ->
  scan_for_events (one_button_latch i phase deb) q
  = add_event (4 * i + phase + 1) deb q.
Proof. exact (scan_one_button_latch i phase deb q). Qed.

(** Bit 6 of the pressed latch gives event 25, RIGHT_BUTTON_PRESSED. *)
Lemma scan_for_events_one_button_witness :
  scan_for_events (one_button_latch 6 0 64) (mk_queue 0 0 empty_slots)
  = add_event RIGHT_BUTTON_PRESSED 64 (mk_queue 0 0 empty_slots).
Proof.
  apply (scan_for_events_one_button 6 0 64 (mk_queue 0 0 empty_slots)); lia.
Defined.

End EventFacts.

(** * The quadrature decoder *)

Module RotaryFacts.
Import Rotary.

Lemma sint8_small (x : Z) : int8_ok x -> sint8 x = x.
Proof. unfold int8_ok, sint8. intros H. Z.div_mod_to_equations. lia. Qed.

Lemma sint8_up_down (x : Z) : int8_ok x -> sint8 (sint8 (x + 1) - 1) = x.
Proof. unfold int8_ok, sint8. intros H. Z.div_mod_to_equations. lia. Qed.

Lemma sint8_down_up (x : Z) : int8_ok x -> sint8 (sint8 (x - 1) + 1) = x.
Proof. unfold int8_ok, sint8. intros H. Z.div_mod_to_equations. lia. Qed.

(** A step of an encoder and the step back cancel: when the pins change
    from one reading to another with both A inputs as before and then
    return, both position counters are what they were, also across the
    wrap of the 8-bit counter. *)
Theorem rotary_step_and_back (r : rotary) (reading : rotary_state_t) :
  int8_ok (left_position r) -> int8_ok (right_position r) ->
  left_a reading = left_a (previous r) ->
  right_a reading = right_a (previous r) ->
  left_position (pcint2_run [reading; previous r] r) = left_position r /\
  right_position (pcint2_run [reading; previous r] r) = right_position r /\
  previous (pcint2_run [reading; previous r] r) = previous r.
Proof.
  intros Hl Hr Hla Hra.
  destruct r as [[pla plb pra prb] lp lm rp rm].
  destruct reading as [la lb ra rb].
  cbn [previous left_position right_position left_a right_a] in *.
  subst la ra.
  pose proof (sint8_up_down lp Hl). pose proof (sint8_down_up lp Hl).
  pose proof (sint8_up_down rp Hr). pose proof (sint8_down_up rp Hr).
  destruct pla, plb, pra, prb, lb, rb;
    cbn [pcint2_run fold_left pcint2_isr previous left_position right_position
         left_movement right_movement left_a left_b right_a right_b
         Bool.eqb negb];
    repeat split; assumption.
Qed.

(** The left encoder one step clockwise from the top of the counter and
    back. *)
Lemma rotary_step_and_back_witness :
  left_position
    (pcint2_run
       [mk_rotary_state true true false false;
        mk_rotary_state true false false false]
       (mk_rotary (mk_rotary_state true false false false) 127 0 (-3) 0))
  = 127.
Proof.
  apply (rotary_step_and_back
           (mk_rotary (mk_rotary_state true false false false) 127 0 (-3) 0)
           (mk_rotary_state true true false false)).
  - unfold int8_ok. simpl. lia.
  - unfold int8_ok. simpl. lia.
  - reflexivity.
  - reflexivity.
Defined.

(** Reading an encoder's relative position returns the signed counter,
    for the right encoder too, where it passes through an unsigned byte,
    and zeroes it: the next read returns 0.  The other encoder's counter
    is not touched. *)
Theorem rotary_relative_reads_and_clears (r : rotary) :
  int8_ok (left_position r) -> int8_ok (right_position r) ->
  fst (right_rotary_relative r) = right_position r /\
  fst (right_rotary_relative (snd (right_rotary_relative r))) = 0 /\
  left_rotary_absolute (snd (right_rotary_relative r)) = left_position r /\
  fst (left_rotary_relative r) = left_position r /\
  fst (left_rotary_relative (snd (left_rotary_relative r))) = 0 /\
  right_rotary_absolute (snd (left_rotary_relative r)) = right_position r.
Proof.
  intros Hl Hr. unfold right_rotary_relative, left_rotary_relative.
  cbn [fst snd right_position left_position left_rotary_absolute
       right_rotary_absolute].
  repeat split.
  unfold int8_ok, sint8, uint8 in *. Z.div_mod_to_equations. lia.
Qed.

(** Three counts anticlockwise on the right encoder. *)
Lemma rotary_relative_reads_and_clears_witness :
  fst (right_rotary_relative
         (mk_rotary (mk_rotary_state false false false false) 4 4 (-3) 3))
  = -3.
Proof.
  apply (rotary_relative_reads_and_clears
           (mk_rotary (mk_rotary_state false false false false) 4 4 (-3) 3));
    unfold int8_ok; simpl; lia.
Defined.

End RotaryFacts.

(** * The event timers *)

Module TimerFacts.
Import Timer.

(** A property checked on every number below [n] holds below [n]. *)
Lemma below_forallb (n : nat) (f : Z -> bool) :
  forallb f (map Z.of_nat (seq 0 n)) = true ->
  forall x, 0 <= x < Z.of_nat n -> f x = true.
Proof.
  intros H x Hx. rewrite forallb_forall in H. apply H.
  apply in_map_iff. exists (Z.to_nat x). split; [lia|].
  apply in_seq. lia.
Qed.

(** [flag & ~(1 << i)] clears bit [i] of a byte and nothing else. *)
Lemma clear_bit_byte (f i j : Z) :
  0 <= f < 256 -> 0 <= i < 8 -> 0 <= j < 8 ->
  Z.testbit (Z.land f (uint8 (Z.lnot (Z.shiftl 1 i)))) j
  = Z.testbit f j && negb (j =? i) /\
  0 <= Z.land f (uint8 (Z.lnot (Z.shiftl 1 i))) < 256.
Proof.
  intros Hf Hi Hj.
  pose (check := fun f i j =>
    let v := Z.land f (uint8 (Z.lnot (Z.shiftl 1 i))) in
    Bool.eqb (Z.testbit v j) (Z.testbit f j && negb (j =? i))
    && (0 <=? v) && (v <? 256)).
  assert (Hall : forallb (fun f => forallb (fun i => forallb (check f i)
            (map Z.of_nat (seq 0 8))) (map Z.of_nat (seq 0 8)))
            (map Z.of_nat (seq 0 256)) = true) by (vm_compute; reflexivity).
  pose proof (below_forallb 256 _ Hall f Hf) as H1. cbv beta in H1.
  pose proof (below_forallb 8 _ H1 i Hi) as H2. cbv beta in H2.
  pose proof (below_forallb 8 _ H2 j Hj) as H3.
  unfold check in H3. cbv zeta in H3.
  apply andb_prop in H3. destruct H3 as [H3 Hhi].
  apply andb_prop in H3. destruct H3 as [Hbit Hlo].
  apply Bool.eqb_prop in Hbit. split; [exact Hbit | lia].
Qed.

(** [(1 << i) & flag] is non-zero exactly when bit [i] of the byte is
    set, and clearing it from the byte clears that bit only. *)
Lemma test_bit_byte (f i j : Z) :
  0 <= f < 256 -> 0 <= i < 8 -> 0 <= j < 8 ->
  nonzero (Z.land (uint8 (Z.shiftl 1 i)) f) = Z.testbit f i /\
  Z.testbit
    (Z.land f (uint8 (Z.lnot (Z.land (uint8 (Z.shiftl 1 i)) f)))) j
  = Z.testbit f j && negb (j =? i) /\
  0 <= Z.land f (uint8 (Z.lnot (Z.land (uint8 (Z.shiftl 1 i)) f))) < 256.
Proof.
  intros Hf Hi Hj.
  pose (check := fun f i j =>
    let m := Z.land (uint8 (Z.shiftl 1 i)) f in
    let v := Z.land f (uint8 (Z.lnot m)) in
    Bool.eqb (nonzero m) (Z.testbit f i)
    && Bool.eqb (Z.testbit v j) (Z.testbit f j && negb (j =? i))
    && (0 <=? v) && (v <? 256)).
  assert (Hall : forallb (fun f => forallb (fun i => forallb (check f i)
            (map Z.of_nat (seq 0 8))) (map Z.of_nat (seq 0 8)))
            (map Z.of_nat (seq 0 256)) = true) by (vm_compute; reflexivity).
  pose proof (below_forallb 256 _ Hall f Hf) as H1. cbv beta in H1.
  pose proof (below_forallb 8 _ H1 i Hi) as H2. cbv beta in H2.
  pose proof (below_forallb 8 _ H2 j Hj) as H3.
  unfold check in H3. cbv zeta in H3.
  apply andb_prop in H3. destruct H3 as [H3 Hhi].
  apply andb_prop in H3. destruct H3 as [H3 Hlo].
  apply andb_prop in H3. destruct H3 as [Hnz Hbit].
  apply Bool.eqb_prop in Hnz. apply Bool.eqb_prop in Hbit.
  repeat split; first [assumption | lia].
Qed.

(** [flag | mask] for the mask of slot [k] sets bit [k] of a byte and
    nothing else; the next mask is the next power of two. *)
Lemma set_bit_byte (f k j : Z) :
  0 <= f < 256 -> 0 <= k < 8 -> 0 <= j < 8 ->
  Z.testbit (Z.lor f (2 ^ k)) j = Z.testbit f j || (j =? k) /\
  0 <= Z.lor f (2 ^ k) < 256 /\
  (k < 7 -> uint8 (Z.shiftl (2 ^ k) 1) = 2 ^ (k + 1)).
Proof.
  intros Hf Hk Hj.
  pose (check := fun f k j =>
    let v := Z.lor f (2 ^ k) in
    Bool.eqb (Z.testbit v j) (Z.testbit f j || (j =? k))
    && (0 <=? v) && (v <? 256)
    && ((7 <=? k) || (uint8 (Z.shiftl (2 ^ k) 1) =? 2 ^ (k + 1)))).
  assert (Hall : forallb (fun f => forallb (fun i => forallb (check f i)
            (map Z.of_nat (seq 0 8))) (map Z.of_nat (seq 0 8)))
            (map Z.of_nat (seq 0 256)) = true) by (vm_compute; reflexivity).
  pose proof (below_forallb 256 _ Hall f Hf) as H1. cbv beta in H1.
  pose proof (below_forallb 8 _ H1 k Hk) as H2. cbv beta in H2.
  pose proof (below_forallb 8 _ H2 j Hj) as H3.
  unfold check in H3. cbv zeta in H3.
  apply andb_prop in H3. destruct H3 as [H3 Hnext].
  apply andb_prop in H3. destruct H3 as [H3 Hhi].
  apply andb_prop in H3. destruct H3 as [Hbit Hlo].
  apply Bool.eqb_prop in Hbit.
  repeat split; [exact Hbit | lia | lia |].
  intros Hlt. apply orb_prop in Hnext. destruct Hnext as [Hn | Hn]; lia.
Qed.

Lemma count_at_nth (t : timers) (i : Z) :
  0 <= i -> count_at t i = nth (Z.to_nat i) (timer_count t) 0.
Proof. intros Hi. unfold count_at. destruct (Z.ltb_spec i 0); [lia | reflexivity]. Qed.

Lemma period_at_nth (t : timers) (i : Z) :
  0 <= i -> period_at t i = nth (Z.to_nat i) (timer_period t) 0.
Proof. intros Hi. unfold period_at. destruct (Z.ltb_spec i 0); [lia | reflexivity]. Qed.

Lemma Forall_nth_range (l : list Z) (j : nat) (b : Z) :
  0 < b -> Forall (fun v => 0 <= v < b) l -> 0 <= nth j l 0 < b.
Proof.
  intros Hb Hall. destruct (Nat.lt_ge_cases j (length l)) as [Hlt | Hge].
  - destruct (lookup_lt_is_Some_2 l j Hlt) as [x Hx].
    rewrite (nth_lookup_Some l j 0 x Hx).
    exact (Forall_lookup_1 _ l j x Hall Hx).
  - rewrite nth_overflow by exact Hge. lia.
Qed.

Lemma insert_nth_same (l : list Z) (j : nat) :
  <[j := nth j l 0]> l = l.
Proof.
  destruct (Nat.lt_ge_cases j (length l)) as [Hlt | Hge].
  - destruct (lookup_lt_is_Some_2 l j Hlt) as [x Hx].
    rewrite (nth_lookup_Some l j 0 x Hx). apply list_insert_id. exact Hx.
  - apply list_insert_ge. exact Hge.
Qed.

Lemma count_after_tick_range (c p : Z) :
  0 <= c < 65536 -> 0 <= p < 65536 -> 0 <= count_after_tick c p < 65536.
Proof.
  intros Hc Hp. unfold count_after_tick.
  destruct (Z.eqb_spec c 0); [lia|]. destruct (Z.eqb_spec c 1); lia.
Qed.

(** One round of the loop of [timer_update], written out. *)
Lemma timer_update_slot_eq (index : nat) (mask : Z) (t : timers) :
  0 <= nth index (timer_count t) 0 < 65536 ->
  timer_update_slot index mask t =
  mk_timers (seconds_prescaler t)
    (<[index := count_after_tick (nth index (timer_count t) 0)
                  (nth index (timer_period t) 0)]> (timer_count t))
    (timer_period t)
    (if nth index (timer_count t) 0 =? 1
     then Z.lor (timer_flag t) mask else timer_flag t).
Proof.
  intros Hc. unfold timer_update_slot, count_after_tick, nonzero.
  destruct (Z.eqb_spec (nth index (timer_count t) 0) 0) as [H0 | H0].
  - assert (Hins : <[index := 0]> (timer_count t) = timer_count t)
      by (rewrite <- H0; apply insert_nth_same).
    cbn [negb]. rewrite Hins.
    destruct (Z.eqb_spec (nth index (timer_count t) 0) 1); [lia|].
    destruct t; reflexivity.
  - cbn [negb].
    destruct (Z.eqb_spec (nth index (timer_count t) 0) 1) as [H1 | H1].
    + rewrite H1. cbn. reflexivity.
    + assert (Hu : uint16 (nth index (timer_count t) 0 - 1)
                   = nth index (timer_count t) 0 - 1)
        by (unfold uint16; apply Z.mod_small; lia).
      rewrite Hu.
      destruct (Z.eqb_spec (nth index (timer_count t) 0 - 1) 0); [lia|].
      cbn. reflexivity.
Qed.

(** The loop of [timer_update] from slot [index] on. *)
Lemma timer_update_loop_spec (n : nat) :
  forall (index : nat) (mask : Z) (t : timers),
    (index + n = 8)%nat -> (n <> 0%nat -> mask = 2 ^ Z.of_nat index) ->
    timers_ok t ->
    let t' := timer_update_loop n index mask t in
    timers_ok t' /\
    seconds_prescaler t' = seconds_prescaler t /\
    timer_period t' = timer_period t /\
    (forall j : nat,
       nth j (timer_count t') 0 =
       if (index <=? j)%nat && (j <? 8)%nat
       then count_after_tick (nth j (timer_count t) 0)
              (nth j (timer_period t) 0)
       else nth j (timer_count t) 0) /\
    (forall j : nat,
       (j < 8)%nat ->
       Z.testbit (timer_flag t') (Z.of_nat j) =
       Z.testbit (timer_flag t) (Z.of_nat j)
       || ((index <=? j)%nat && (nth j (timer_count t) 0 =? 1))).
Proof.
  induction n as [|n IH]; intros index mask t Hn Hmask Hok.
  - cbn [timer_update_loop]. cbv zeta. repeat split; try apply Hok.
    + intros j. destruct (Nat.leb_spec index j); [|reflexivity].
      destruct (Nat.ltb_spec j 8); [lia | reflexivity].
    + intros j Hj. destruct (Nat.leb_spec index j); [lia|].
      cbn. rewrite orb_false_r. reflexivity.
  - cbn [timer_update_loop]. cbv zeta.
    destruct Hok as (Hlc & Hlp & Hfc & Hfp & Hflag).
    pose proof (Forall_nth_range _ index 65536 ltac:(lia) Hfc) as Hc.
    pose proof (Forall_nth_range _ index 65536 ltac:(lia) Hfp) as Hp.
    rewrite (timer_update_slot_eq index mask t Hc).
    rewrite (Hmask ltac:(discriminate)).
    set (t1 := mk_timers _ _ _ _).
    assert (Hok1 : timers_ok t1).
    { unfold timers_ok, t1. cbn [timer_count timer_period timer_flag].
      rewrite length_insert. repeat split; try assumption; try lia.
      - apply Forall_insert; [exact Hfc|].
        apply count_after_tick_range; assumption.
      - destruct (nth index (timer_count t) 0 =? 1); [|lia].
        apply (set_bit_byte (timer_flag t) (Z.of_nat index) 0); lia.
      - destruct (nth index (timer_count t) 0 =? 1); [|lia].
        apply (set_bit_byte (timer_flag t) (Z.of_nat index) 0); lia. }
    assert (Hm1 : n <> 0%nat ->
                  uint8 (Z.shiftl (2 ^ Z.of_nat index) 1)
                  = 2 ^ Z.of_nat (S index)).
    { intros Hn0.
      replace (Z.of_nat (S index)) with (Z.of_nat index + 1) by lia.
      apply (set_bit_byte 0 (Z.of_nat index) 0); lia. }
    destruct (IH (S index) _ t1 ltac:(lia) Hm1 Hok1)
      as (Hok' & Hsp & Hper & Hcnt & Hfl).
    split; [exact Hok'|]. split; [exact Hsp|]. split; [exact Hper|].
    split.
    + intros j. rewrite Hcnt. unfold t1.
      cbn [timer_count timer_period].
      destruct (Nat.eq_dec index j) as [-> | Hne].
      * rewrite EventFacts.nth_insert_eq by lia.
        destruct (Nat.leb_spec (S j) j); [lia|].
        destruct (Nat.leb_spec j j); [|lia].
        destruct (Nat.ltb_spec j 8); [|lia]. reflexivity.
      * rewrite EventFacts.nth_insert_ne by exact Hne.
        destruct (Nat.leb_spec (S index) j), (Nat.leb_spec index j);
          try lia; reflexivity.
    + intros j Hj. rewrite (Hfl j Hj). unfold t1.
      cbn [timer_count timer_flag].
      destruct (Nat.eq_dec index j) as [-> | Hne].
      * rewrite EventFacts.nth_insert_eq by lia.
        destruct (Nat.leb_spec (S j) j); [lia|].
        destruct (Nat.leb_spec j j); [|lia]. cbn [andb].
        rewrite orb_false_r.
        destruct (nth j (timer_count t) 0 =? 1).
        -- destruct (set_bit_byte (timer_flag t) (Z.of_nat j) (Z.of_nat j)
                       ltac:(lia) ltac:(lia) ltac:(lia)) as (Hb & _).
           rewrite Hb, Z.eqb_refl. reflexivity.
        -- rewrite orb_false_r. reflexivity.
      * rewrite EventFacts.nth_insert_ne by exact Hne.
        assert (Hbit : Z.testbit
                  (if nth index (timer_count t) 0 =? 1
                   then Z.lor (timer_flag t) (2 ^ Z.of_nat index)
                   else timer_flag t) (Z.of_nat j)
                = Z.testbit (timer_flag t) (Z.of_nat j)).
        { destruct (nth index (timer_count t) 0 =? 1); [|reflexivity].
          destruct (set_bit_byte (timer_flag t) (Z.of_nat index) (Z.of_nat j)
                      ltac:(lia) ltac:(lia) ltac:(lia)) as (Hb & _).
          rewrite Hb. destruct (Z.eqb_spec (Z.of_nat j) (Z.of_nat index));
            [lia|]. apply orb_false_r. }
        rewrite Hbit.
        destruct (Nat.leb_spec (S index) j), (Nat.leb_spec index j);
          try lia; reflexivity.
Qed.

Lemma timer_update_slots (t : timers) (i : Z) :
  timers_ok t -> 0 <= i < 8 ->
  timers_ok (timer_update t) /\
  seconds_prescaler (timer_update t) = seconds_prescaler t /\
  count_at (timer_update t) i
  = count_after_tick (count_at t i) (period_at t i) /\
  period_at (timer_update t) i = period_at t i /\
  flagged (timer_update t) i = flagged t i || (count_at t i =? 1).
Proof.
  intros Hok Hi. unfold timer_update.
  destruct (timer_update_loop_spec 8 0 1 t eq_refl ltac:(reflexivity) Hok)
    as (Hok' & Hsp & Hper & Hcnt & Hfl).
  change (Z.to_nat NUM_EVENT_TIMERS) with 8%nat.
  split; [exact Hok'|]. split; [exact Hsp|].
  rewrite !count_at_nth, !period_at_nth by lia.
  rewrite Hper, Hcnt. unfold flagged.
  pose proof (Hfl (Z.to_nat i) ltac:(lia)) as Hbit.
  rewrite Z2Nat.id in Hbit by lia. rewrite Hbit.
  destruct (Nat.ltb_spec (Z.to_nat i) 8); [|lia].
  cbn [Nat.leb andb]. repeat split.
Qed.

Lemma timer_expired_flagged (t : timers) (i reset : Z) :
  timers_ok t -> 0 <= i < 8 ->
  fst (timer_expired i reset t) = if flagged t i then 1 else 0.
Proof.
  intros Hok Hi. unfold timer_expired, flagged. cbn [fst].
  destruct (test_bit_byte (timer_flag t) i 0 ltac:(apply Hok) Hi ltac:(lia))
    as (Hnz & _).
  rewrite Hnz. reflexivity.
Qed.

(** What [timer_start] and [timer_restart] do to a slot. *)
Lemma arm_slots (t : timers) (i p r j : Z) :
  timers_ok t -> 0 <= i < 8 -> 0 <= p < 65536 -> 0 <= j < 8 ->
  timers_ok (arm i p r t) /\
  count_at (arm i p r t) j = (if j =? i then p else count_at t j) /\
  period_at (arm i p r t) j
  = (if (j =? i) && nonzero r then p else period_at t j) /\
  flagged (arm i p r t) j = flagged t j && negb (j =? i).
Proof.
  intros (Hlc & Hlp & Hfc & Hfp & Hflag) Hi Hp Hj.
  destruct (clear_bit_byte (timer_flag t) i j Hflag Hi Hj) as (Hbit & Hrange).
  rewrite !count_at_nth, !period_at_nth by lia.
  unfold arm, clear_flag, flagged, timers_ok.
  destruct (nonzero r);
    cbn [timer_count timer_period timer_flag set_timer_count
         set_timer_period set_timer_flag];
    rewrite ?length_insert;
    (split; [repeat split; try assumption; try lia;
             apply Forall_insert; assumption |]);
    (destruct (Z.eqb_spec j i) as [-> | Hne];
     [ rewrite ?EventFacts.nth_insert_eq by lia
     | rewrite ?EventFacts.nth_insert_ne by lia ]);
    cbn [andb]; repeat split; exact Hbit.
Qed.

(** The loop of [timer_start] from slot [index] on. *)
Lemma timer_start_loop_spec (n : nat) (p r : Z) (t : timers) :
  forall index : Z,
    ((forall j, index <= j < index + Z.of_nat n -> ~ slot_free t j) ->
     timer_start_loop n index p r t = (255, t)) /\
    (forall i,
       index <= i < index + Z.of_nat n -> slot_free t i ->
       (forall j, index <= j < i -> ~ slot_free t j) ->
       timer_start_loop n index p r t = (i, arm i p r t)).
Proof.
  induction n as [|n IH]; intros index.
  - split; [reflexivity | intros i Hi; lia].
  - cbn [timer_start_loop]. unfold nonzero. rewrite !negb_involutive.
    destruct (Z.eqb_spec (count_at t index) 0) as [Hc | Hc];
      [destruct (Z.eqb_spec (period_at t index) 0) as [Hp | Hp] |];
      cbn [andb].
    + split.
      * intros Hnone. exfalso. apply (Hnone index ltac:(lia)).
        split; assumption.
      * intros i Hi Hfree Hlow.
        destruct (Z.eq_dec i index) as [-> | Hne]; [reflexivity|].
        exfalso. apply (Hlow index ltac:(lia)). split; assumption.
    + split.
      * intros Hnone. apply (proj1 (IH (index + 1))).
        intros j Hj. apply Hnone. lia.
      * intros i Hi Hfree Hlow.
        assert (i <> index) by (intros ->; destruct Hfree; contradiction).
        apply (proj2 (IH (index + 1))); [lia | exact Hfree |].
        intros j Hj. apply Hlow. lia.
    + split.
      * intros Hnone. apply (proj1 (IH (index + 1))).
        intros j Hj. apply Hnone. lia.
      * intros i Hi Hfree Hlow.
        assert (i <> index) by (intros ->; destruct Hfree; contradiction).
        apply (proj2 (IH (index + 1))); [lia | exact Hfree |].
        intros j Hj. apply Hlow. lia.
Qed.

Lemma slot_free_dec (t : timers) (i : Z) : {slot_free t i} + {~ slot_free t i}.
Proof.
  unfold slot_free.
  destruct (Z.eq_dec (count_at t i) 0), (Z.eq_dec (period_at t i) 0);
    [left; split; assumption | right; tauto ..].
Defined.

(** Below a free slot there is a lowest free slot. *)
Lemma lowest_free (t : timers) (n : nat) :
  forall i, 0 <= i < Z.of_nat n -> slot_free t i ->
  exists m, 0 <= m <= i /\ slot_free t m /\
            forall j, 0 <= j < m -> ~ slot_free t j.
Proof.
  induction n as [|n IH]; intros i Hi Hfree; [lia|].
  destruct (Z.eq_dec i (Z.of_nat n)) as [Heq | Hne].
  - assert (Hcase : (exists k, 0 <= k < Z.of_nat n /\ slot_free t k)
                    \/ forall k, 0 <= k < Z.of_nat n -> ~ slot_free t k).
    { clear. induction n as [|n IHn]; [right; intros; lia|].
      destruct IHn as [(k & Hk & Hf) | Hnone].
      - left. exists k. split; [lia | exact Hf].
      - destruct (slot_free_dec t (Z.of_nat n)) as [Hf | Hf].
        + left. exists (Z.of_nat n). split; [lia | exact Hf].
        + right. intros k Hk.
          destruct (Z.eq_dec k (Z.of_nat n)) as [-> | Hkn]; [exact Hf|].
          apply Hnone. lia. }
    destruct Hcase as [(k & Hk & Hf) | Hnone].
    + destruct (IH k Hk Hf) as (m & Hm & Hfm & Hlow).
      exists m. split; [lia|]. split; assumption.
    + exists i. split; [lia|]. split; [exact Hfree|].
      intros j Hj. apply Hnone. lia.
  - destruct (IH i ltac:(lia) Hfree) as (m & Hm & Hfm & Hlow).
    exists m. split; [lia|]. split; assumption.
Qed.

Lemma timer_start_cases (p r : Z) (t : timers) :
  (timer_start p r t = (255, t) /\
   forall j, 0 <= j < 8 -> ~ slot_free t j) \/
  (exists m, 0 <= m < 8 /\ slot_free t m /\
             (forall j, 0 <= j < m -> ~ slot_free t j) /\
             timer_start p r t = (m, arm m p r t)).
Proof.
  unfold timer_start. change (Z.to_nat NUM_EVENT_TIMERS) with 8%nat.
  destruct (timer_start_loop_spec 8 p r t 0) as (Hnone & Hsome).
  assert (Hcase : (exists k, 0 <= k < 8 /\ slot_free t k)
                  \/ forall k, 0 <= k < 8 -> ~ slot_free t k).
  { destruct (slot_free_dec t 0); [left; exists 0; split; [lia | assumption]|].
    destruct (slot_free_dec t 1); [left; exists 1; split; [lia | assumption]|].
    destruct (slot_free_dec t 2); [left; exists 2; split; [lia | assumption]|].
    destruct (slot_free_dec t 3); [left; exists 3; split; [lia | assumption]|].
    destruct (slot_free_dec t 4); [left; exists 4; split; [lia | assumption]|].
    destruct (slot_free_dec t 5); [left; exists 5; split; [lia | assumption]|].
    destruct (slot_free_dec t 6); [left; exists 6; split; [lia | assumption]|].
    destruct (slot_free_dec t 7); [left; exists 7; split; [lia | assumption]|].
    right. intros k Hk.
    assert (k = 0 \/ k = 1 \/ k = 2 \/ k = 3 \/ k = 4 \/ k = 5 \/ k = 6
            \/ k = 7) as Hk8 by lia.
    destruct Hk8 as [-> | [-> | [-> | [-> | [-> | [-> | [-> | ->]]]]]]];
      assumption. }
  destruct Hcase as [(k & Hk & Hf) | Hno].
  - right. destruct (lowest_free t 8 k ltac:(lia) Hf) as (m & Hm & Hfm & Hlow).
    exists m. split; [lia|]. split; [exact Hfm|]. split; [exact Hlow|].
    apply Hsome; [lia | exact Hfm |]. intros j Hj. apply Hlow. lia.
  - left. split; [|exact Hno]. apply Hnone. intros j Hj. apply Hno. lia.
Qed.

(** A running slot counts down to its expiry. *)
Lemma timer_runs_down (i : Z) (t : timers) (c : Z) (k : nat) :
  timers_ok t -> 0 <= i < 8 -> count_at t i = c -> 1 <= c ->
  Z.of_nat k <= c ->
  timers_ok (timer_updates k t) /\
  period_at (timer_updates k t) i = period_at t i /\
  (Z.of_nat k < c ->
   count_at (timer_updates k t) i = c - Z.of_nat k /\
   flagged (timer_updates k t) i = flagged t i) /\
  (Z.of_nat k = c ->
   count_at (timer_updates k t) i = period_at t i /\
   flagged (timer_updates k t) i = true).
Proof.
  intros Hok Hi Hc H1. induction k as [|k IH]; intros Hk.
  - cbn [Nat.iter nat_rect]. split; [exact Hok|]. split; [reflexivity|].
    split; [intros _; split; [lia | reflexivity] | intros; lia].
  - rewrite Nat.iter_succ.
    destruct (IH ltac:(lia)) as (Hokk & Hpk & Hlt & _).
    destruct (Hlt ltac:(lia)) as (Hck & Hfk).
    destruct (timer_update_slots _ i Hokk Hi) as (Hok1 & _ & Hc1 & Hp1 & Hf1).
    rewrite Hck in Hc1, Hf1. rewrite Hpk in Hc1, Hp1. rewrite Hfk in Hf1.
    unfold count_after_tick in Hc1.
    destruct (Z.eqb_spec (c - Z.of_nat k) 0); [lia|].
    split; [exact Hok1|]. split; [exact Hp1|].
    destruct (Z.eqb_spec (c - Z.of_nat k) 1) as [He | Hne].
    + rewrite orb_true_r in Hf1.
      split; [intros; lia | intros _; split; assumption].
    + rewrite orb_false_r in Hf1.
      split; [intros _; split; [lia | exact Hf1] | intros; lia].
Qed.

(** One tick treats every slot on its own: a stopped slot (count 0) stays
    stopped, a running one loses one count, and the slot whose count goes
    from 1 to 0 is reloaded with its period and gets its expired flag
    set.  A tick never clears a flag and never changes a period. *)
Theorem timer_update_per_slot (t : timers) (i : Z) :
  timers_ok t -> 0 <= i < 8 ->
  timers_ok (timer_update t) /\
  count_at (timer_update t) i
  = (if count_at t i =? 0 then 0
     else if count_at t i =? 1 then period_at t i
     else count_at t i - 1) /\
  period_at (timer_update t) i = period_at t i /\
  flagged (timer_update t) i = flagged t i || (count_at t i =? 1).
Proof.
  intros Hok Hi.
  destruct (timer_update_slots t i Hok Hi) as (Hok1 & _ & Hc1 & Hp1 & Hf1).
  repeat split; try apply Hok1; assumption.
Qed.

(** Slot 2 on its last count, with a period of 5. *)
Lemma timer_update_per_slot_witness :
  count_at
    (timer_update
       (mk_timers 625 [0; 7; 1; 0; 0; 0; 0; 0] [0; 0; 5; 0; 0; 0; 0; 0] 0)) 2
  = 5.
Proof.
  apply (timer_update_per_slot
           (mk_timers 625 [0; 7; 1; 0; 0; 0; 0; 0] [0; 0; 5; 0; 0; 0; 0; 0] 0)
           2).
  - unfold timers_ok. cbn. repeat split; try lia; repeat constructor; lia.
  - lia.
Defined.

(** [timer_start] hands out the lowest-numbered free slot (count and
    period both 0), loaded with the period and with its flag clear; it
    returns 255 and changes nothing exactly when no slot is free. *)
Theorem timer_start_lowest_free (p r : Z) (t : timers) :
  timers_ok t -> 0 <= p < 65536 ->
  ((forall j, 0 <= j < 8 -> ~ slot_free t j) ->
   timer_start p r t = (255, t)) /\
  (forall i,
     0 <= i < 8 -> slot_free t i ->
     let id := fst (timer_start p r t) in
     let t' := snd (timer_start p r t) in
     0 <= id <= i /\ slot_free t id /\
     (forall j, 0 <= j < id -> ~ slot_free t j) /\
     timers_ok t' /\
     timer_read id t' = p /\
     fst (timer_expired id 0 t') = 0 /\
     (forall j, 0 <= j < 8 -> j <> id ->
        timer_read j t' = timer_read j t /\
        period_at t' j = period_at t j /\
        fst (timer_expired j 0 t') = fst (timer_expired j 0 t))).
Proof.
  intros Hok Hp. split.
  - intros Hnone.
    destruct (timer_start_cases p r t) as [(Heq & _) | (m & Hm & Hfm & _)];
      [exact Heq | exfalso; exact (Hnone m Hm Hfm)].
  - intros i Hi Hfree. cbv zeta.
    destruct (timer_start_cases p r t)
      as [(_ & Hnone) | (m & Hm & Hfm & Hlow & Heq)];
      [exfalso; exact (Hnone i Hi Hfree)|].
    rewrite Heq. cbn [fst snd].
    assert (Hmi : m <= i).
    { destruct (Z.le_gt_cases m i) as [Hle | Hgt]; [exact Hle|].
      exfalso. apply (Hlow i ltac:(lia)). exact Hfree. }
    destruct (arm_slots t m p r m Hok Hm Hp Hm) as (Hok' & Hc & _ & Hf).
    rewrite Z.eqb_refl in Hc, Hf. rewrite andb_false_r in Hf.
    split; [lia|]. split; [exact Hfm|]. split; [exact Hlow|].
    split; [exact Hok'|]. split; [exact Hc|]. split.
    + rewrite timer_expired_flagged by assumption. rewrite Hf. reflexivity.
    + intros j Hj Hne.
      destruct (arm_slots t m p r j Hok Hm Hp Hj) as (_ & Hcj & Hpj & Hfj).
      destruct (Z.eqb_spec j m); [contradiction|].
      cbn [andb negb] in *. rewrite andb_true_r in Hfj.
      unfold timer_read. rewrite !timer_expired_flagged by assumption.
      rewrite Hfj. repeat split; assumption.
Qed.

(** Slots 0 and 1 are taken, slot 2 is free. *)
Lemma timer_start_lowest_free_witness :
  fst (timer_start 40 0
         (mk_timers 625 [3; 0; 0; 0; 9; 0; 0; 0] [0; 8; 0; 0; 0; 0; 0; 0] 4))
  = 2.
Proof.
  pose (t := mk_timers 625 [3; 0; 0; 0; 9; 0; 0; 0]
                       [0; 8; 0; 0; 0; 0; 0; 0] 4).
  assert (Hok : timers_ok t)
    by (unfold timers_ok; cbn; repeat split; try lia; repeat constructor; lia).
  destruct (proj2 (timer_start_lowest_free 40 0 t Hok ltac:(lia)) 3
              ltac:(lia) ltac:(split; reflexivity))
    as (_ & _ & _ & _ & _ & _ & _).
  reflexivity.
Defined.

(** A timer started with a period of [p] ticks reads [p - k] and is not
    expired after [k < p] ticks, and is expired after exactly [p] ticks;
    it then reads [p] again when recurring and 0 (stopped, slot free
    again) when not. *)
Theorem timer_start_expires_after_period (p r : Z) (t t1 : timers) (id : Z) :
  timers_ok t -> 1 <= p < 65536 ->
  timer_start p r t = (id, t1) -> id <> 255 ->
  (forall k : nat,
     Z.of_nat k < p ->
     timer_read id (timer_updates k t1) = p - Z.of_nat k /\
     fst (timer_expired id 0 (timer_updates k t1)) = 0) /\
  fst (timer_expired id 0 (timer_updates (Z.to_nat p) t1)) = 1 /\
  timer_read id (timer_updates (Z.to_nat p) t1)
  = (if nonzero r then p else 0) /\
  (nonzero r = false -> slot_free (timer_updates (Z.to_nat p) t1) id).
Proof.
  intros Hok Hp Hstart Hid.
  destruct (timer_start_cases p r t)
    as [(Heq & _) | (m & Hm & Hfm & Hlow & Heq)]; [congruence|].
  rewrite Heq in Hstart. injection Hstart as <- <-.
  destruct (arm_slots t m p r m Hok Hm ltac:(lia) Hm)
    as (Hok1 & Hc & Hper & Hf).
  rewrite Z.eqb_refl in Hc, Hf, Hper. rewrite andb_false_r in Hf.
  cbn [andb] in Hper.
  assert (Hper' : period_at (arm m p r t) m = if nonzero r then p else 0).
  { rewrite Hper. destruct (nonzero r); [reflexivity | apply Hfm]. }
  split; [|split; [|split]].
  - intros k Hk.
    destruct (timer_runs_down m (arm m p r t) p k Hok1 Hm Hc ltac:(lia)
                ltac:(lia)) as (Hok' & _ & Hlt & _).
    destruct (Hlt Hk) as (Hcnt & Hfl).
    unfold timer_read. rewrite timer_expired_flagged by assumption.
    rewrite Hfl, Hf. split; [exact Hcnt | reflexivity].
  - destruct (timer_runs_down m (arm m p r t) p (Z.to_nat p) Hok1 Hm Hc
                ltac:(lia) ltac:(lia)) as (Hok' & _ & _ & Heqp).
    destruct (Heqp ltac:(lia)) as (_ & Hfl).
    rewrite timer_expired_flagged by assumption. rewrite Hfl. reflexivity.
  - destruct (timer_runs_down m (arm m p r t) p (Z.to_nat p) Hok1 Hm Hc
                ltac:(lia) ltac:(lia)) as (_ & _ & _ & Heqp).
    destruct (Heqp ltac:(lia)) as (Hcnt & _).
    unfold timer_read. rewrite Hcnt. exact Hper'.
  - intros Hr.
    destruct (timer_runs_down m (arm m p r t) p (Z.to_nat p) Hok1 Hm Hc
                ltac:(lia) ltac:(lia)) as (_ & Hpp & _ & Heqp).
    destruct (Heqp ltac:(lia)) as (Hcnt & _).
    rewrite Hr in Hper'. split; congruence.
Qed.

(** A one-shot timer of three ticks in an idle timer block. *)
Lemma timer_start_expires_after_period_witness :
  fst (timer_expired 0 0
         (timer_updates 3
            (snd (timer_start 3 0
                    (mk_timers 625 (replicate 8 0) (replicate 8 0) 0)))))
  = 1.
Proof.
  pose (t := mk_timers 625 (replicate 8 0) (replicate 8 0) 0).
  assert (Hok : timers_ok t)
    by (unfold timers_ok; cbn; repeat split; try lia; repeat constructor; lia).
  exact (proj1 (proj2 (timer_start_expires_after_period 3 0 t
                         (snd (timer_start 3 0 t)) 0 Hok ltac:(lia)
                         eq_refl ltac:(lia)))).
Defined.

(** [timer_expired] reports the flag of its timer; with [reset] set it
    clears that flag, so that the next call reports 0, and leaves the
    flags of the other timers alone; without [reset] it changes
    nothing. *)
Theorem timer_expired_reads_and_clears (t : timers) (i reset : Z) :
  timers_ok t -> 0 <= i < 8 ->
  fst (timer_expired i reset t) = (if flagged t i then 1 else 0) /\
  (reset = 0 -> snd (timer_expired i reset t) = t) /\
  (reset <> 0 ->
   timers_ok (snd (timer_expired i reset t)) /\
   fst (timer_expired i reset (snd (timer_expired i reset t))) = 0 /\
   timer_count (snd (timer_expired i reset t)) = timer_count t /\
   timer_period (snd (timer_expired i reset t)) = timer_period t /\
   forall j, 0 <= j < 8 -> j <> i ->
     fst (timer_expired j 0 (snd (timer_expired i reset t)))
     = fst (timer_expired j 0 t)).
Proof.
  intros Hok Hi. split; [apply timer_expired_flagged; assumption|].
  split.
  - intros ->. reflexivity.
  - intros Hr.
    assert (Hnz : nonzero reset = true)
      by (unfold nonzero; destruct (Z.eqb_spec reset 0); [contradiction | reflexivity]).
    assert (Hok' : timers_ok (snd (timer_expired i reset t))).
    { unfold timer_expired. rewrite Hnz. cbn [snd].
      destruct Hok as (Hlc & Hlp & Hfc & Hfp & Hflag).
      unfold timers_ok, set_timer_flag.
      cbn [timer_count timer_period timer_flag].
      repeat split; try assumption;
        apply (test_bit_byte (timer_flag t) i 0); assumption || lia. }
    split; [exact Hok'|].
    assert (Hbits : forall j, 0 <= j < 8 ->
              flagged (snd (timer_expired i reset t)) j
              = flagged t j && negb (j =? i)).
    { intros j Hj. unfold timer_expired, flagged. rewrite Hnz.
      cbn [snd set_timer_flag timer_flag].
      apply (test_bit_byte (timer_flag t) i j); try assumption.
      apply Hok. }
    split.
    + rewrite timer_expired_flagged by assumption.
      rewrite (Hbits i Hi), Z.eqb_refl, andb_false_r. reflexivity.
    + split; [unfold timer_expired; rewrite Hnz; reflexivity|].
      split; [unfold timer_expired; rewrite Hnz; reflexivity|].
      intros j Hj Hne. rewrite !timer_expired_flagged by assumption.
      rewrite (Hbits j Hj).
      destruct (Z.eqb_spec j i); [contradiction|].
      rewrite andb_true_r. reflexivity.
Qed.

(** Timers 1 and 6 have expired; timer 1 is read and reset. *)
Lemma timer_expired_reads_and_clears_witness :
  fst (timer_expired 1 1
         (mk_timers 625 (replicate 8 0) (replicate 8 0) 66)) = 1.
Proof.
  pose (t := mk_timers 625 (replicate 8 0) (replicate 8 0) 66).
  assert (Hok : timers_ok t)
    by (unfold timers_ok; cbn; repeat split; try lia; repeat constructor; lia).
  exact (proj1 (timer_expired_reads_and_clears t 1 1 Hok ltac:(lia))).
Defined.

End TimerFacts.

(** * The button scanner *)

Module ButtonFacts.
Import Button.

(** Bit operations of the scan loop on a byte, with the mask of
    button [k]. *)
Lemma mask_byte (f k j : Z) :
  0 <= f < 256 -> 0 <= k < 8 -> 0 <= j < 8 ->
  nonzero (Z.land f (2 ^ k)) = Z.testbit f k /\
  Z.testbit (Z.lor f (2 ^ k)) j = Z.testbit f j || (j =? k) /\
  0 <= Z.lor f (2 ^ k) < 256 /\
  Z.testbit (Z.land f (uint8 (Z.lnot (2 ^ k)))) j
  = Z.testbit f j && negb (j =? k) /\
  0 <= Z.land f (uint8 (Z.lnot (2 ^ k))) < 256 /\
  (k < 7 -> uint8 (Z.shiftl (2 ^ k) 1) = 2 ^ (k + 1)).
Proof.
  intros Hf Hk Hj.
  pose (check := fun f k j =>
    let s := Z.lor f (2 ^ k) in
    let c := Z.land f (uint8 (Z.lnot (2 ^ k))) in
    Bool.eqb (nonzero (Z.land f (2 ^ k))) (Z.testbit f k)
    && Bool.eqb (Z.testbit s j) (Z.testbit f j || (j =? k))
    && ((0 <=? s) && (s <? 256))
    && Bool.eqb (Z.testbit c j) (Z.testbit f j && negb (j =? k))
    && ((0 <=? c) && (c <? 256))
    && ((7 <=? k) || (uint8 (Z.shiftl (2 ^ k) 1) =? 2 ^ (k + 1)))).
  assert (Hall : forallb (fun f => forallb (fun i => forallb (check f i)
            (map Z.of_nat (seq 0 8))) (map Z.of_nat (seq 0 8)))
            (map Z.of_nat (seq 0 256)) = true) by (vm_compute; reflexivity).
  pose proof (TimerFacts.below_forallb 256 _ Hall f Hf) as H1. cbv beta in H1.
  pose proof (TimerFacts.below_forallb 8 _ H1 k Hk) as H2. cbv beta in H2.
  pose proof (TimerFacts.below_forallb 8 _ H2 j Hj) as H3.
  unfold check in H3. cbv zeta in H3.
  apply andb_prop in H3. destruct H3 as [H3 Hnext].
  apply andb_prop in H3. destruct H3 as [H3 Hcr].
  apply andb_prop in H3. destruct H3 as [H3 Hcb].
  apply andb_prop in H3. destruct H3 as [H3 Hsr].
  apply andb_prop in H3. destruct H3 as [Hnz Hsb].
  apply Bool.eqb_prop in Hnz. apply Bool.eqb_prop in Hsb.
  apply Bool.eqb_prop in Hcb.
  apply andb_prop in Hsr. apply andb_prop in Hcr.
  split; [exact Hnz|]. split; [exact Hsb|]. split; [lia|].
  split; [exact Hcb|]. split; [lia|].
  intros Hlt. apply orb_prop in Hnext. destruct Hnext as [Hn | Hn]; lia.
Qed.

(** Reading the pins gives a byte whose bit [k] is set when the pin of
    button [k] reads zero. *)
Lemma read_pins_bits (p : button_pins) :
  0 <= read_pins p < 256 /\
  is_down p 0 = negb (BUTTON0 p) /\ is_down p 1 = negb (BUTTON1 p) /\
  is_down p 2 = negb (BUTTON2 p) /\ is_down p 3 = negb (BUTTON3 p) /\
  is_down p 4 = negb (BUTTON4 p) /\ is_down p 5 = negb (BUTTON5 p) /\
  is_down p 6 = negb (LEFT_BUTTON p) /\ is_down p 7 = negb (RIGHT_BUTTON p).
Proof.
  destruct p as [[] [] [] [] [] [] [] []]; vm_compute;
    repeat split; congruence.
Qed.

Lemma not_saturated (t : Z) :
  0 <= t < 65536 -> nonzero (uint16 (Z.lnot t)) = negb (t =? 65535).
Proof.
  intros Ht. unfold nonzero, uint16, Z.lnot. f_equal.
  destruct (Z.eqb_spec t 65535) as [-> | Hne]; [reflexivity|].
  apply Z.eqb_neq. Z.div_mod_to_equations. lia.
Qed.

Ltac cmp_cases :=
  repeat match goal with
  | H : context [(?a =? ?b)] |- _ => destruct (Z.eqb_spec a b)
  | |- context [(?a =? ?b)] => destruct (Z.eqb_spec a b)
  | |- context [(?a <? ?b)] => destruct (Z.ltb_spec a b)
  | |- context [(?a <=? ?b)] => destruct (Z.leb_spec a b)
  end.

Ltac bits :=
  repeat match goal with
  | |- context [Z.testbit ?a ?b] => destruct (Z.testbit a b)
  end.


Ltac leaf Hbits Hdown Hidx k t :=
    split;
    [ unfold buttons_ok;
      cbn [button_timer button_stable button_debounced button_pressed
           button_released button_short button_long
           set_button_timer set_button_debounced set_button_pressed
           set_button_released set_button_short set_button_long];
      rewrite ?length_insert;
      repeat split; try assumption; try lia;
      apply Forall_insert; [assumption | lia]
    | split;
      [ unfold same_frame; repeat split; reflexivity
      | let j := fresh "j" in
        let Hj := fresh "Hj" in
        let Hne := fresh "Hne" in
        intros j Hj;
        destruct (Hbits j Hj) as (? & ? & ? & ? & ? & ?);
        unfold view, view_step, down_time, has_button;
        cbn [button_timer button_stable button_debounced button_pressed
             button_released button_short button_long
             set_button_timer set_button_debounced set_button_pressed
             set_button_released set_button_short set_button_long
             v_time v_debounced v_pressed v_released v_short v_long];
        change BUTTON_SHORT_DELAY with 31;
        change BUTTON_LONG_DELAY with 625;
        destruct (Z.eqb_spec j k) as [-> | Hne];
        [ subst k; rewrite ?Hidx;
          rewrite ?EventFacts.nth_insert_eq by lia;
          rewrite ?Hdown
        | subst k; rewrite ?EventFacts.nth_insert_ne by lia ];
        subst t;
        repeat match goal with
               | H : Z.testbit _ _ = _ |- _ => rewrite ?H; clear H
               end;
        cmp_cases; try lia; bits; reflexivity ] ].

Lemma scan_one_view (button : Z) (index : nat) (b : buttons) :
  buttons_ok b -> 0 <= button < 256 -> (index < 8)%nat ->
  buttons_ok (scan_one button (2 ^ Z.of_nat index) index b) /\
  same_frame (scan_one button (2 ^ Z.of_nat index) index b) b /\
  forall j,
    0 <= j < 8 ->
    view (scan_one button (2 ^ Z.of_nat index) index b) j
    = if j =? Z.of_nat index
      then view_step (Z.testbit button j) (view b j)
      else view b j.
Proof.
  intros (Hlen & Hall & Hst & Hd & Hp & Hr & Hs & Hl) Hb Hi.
  pose proof (TimerFacts.Forall_nth_range _ index 65536 ltac:(lia) Hall) as Ht.
  assert (Hk : 0 <= Z.of_nat index < 8) by lia.
  unfold scan_one.
  rewrite (proj1 (mask_byte button (Z.of_nat index) 0 Hb Hk ltac:(lia))).
  rewrite (not_saturated _ Ht), Z.geb_leb.
  change BUTTON_SHORT_DELAY with 31. change BUTTON_LONG_DELAY with 625.
  pose proof (Nat2Z.id index) as Hidx.
  set (t := nth index (button_timer b) 0) in Ht.
  set (k := Z.of_nat index) in Hk.
  fold t k.
  pose proof (mask_byte (button_debounced b) k 0 Hd Hk ltac:(lia))
    as (_ & _ & Hd1 & _ & Hd2 & _).
  pose proof (mask_byte (button_pressed b) k 0 Hp Hk ltac:(lia))
    as (_ & _ & Hp1 & _ & _ & _).
  pose proof (mask_byte (button_released b) k 0 Hr Hk ltac:(lia))
    as (_ & _ & Hr1 & _ & _ & _).
  pose proof (mask_byte (button_short b) k 0 Hs Hk ltac:(lia))
    as (_ & _ & Hs1 & _ & _ & _).
  pose proof (mask_byte (button_long b) k 0 Hl Hk ltac:(lia))
    as (_ & _ & Hl1 & _ & _ & _).
  assert (Hbits : forall j, 0 <= j < 8 ->
    (Z.testbit (Z.lor (button_debounced b) (2 ^ k)) j
     = Z.testbit (button_debounced b) j || (j =? k)) /\
    (Z.testbit (Z.land (button_debounced b) (uint8 (Z.lnot (2 ^ k)))) j
     = Z.testbit (button_debounced b) j && negb (j =? k)) /\
    (Z.testbit (Z.lor (button_pressed b) (2 ^ k)) j
     = Z.testbit (button_pressed b) j || (j =? k)) /\
    (Z.testbit (Z.lor (button_released b) (2 ^ k)) j
     = Z.testbit (button_released b) j || (j =? k)) /\
    (Z.testbit (Z.lor (button_short b) (2 ^ k)) j
     = Z.testbit (button_short b) j || (j =? k)) /\
    (Z.testbit (Z.lor (button_long b) (2 ^ k)) j
     = Z.testbit (button_long b) j || (j =? k))).
  { intros j Hj.
    repeat split; apply (mask_byte _ k j); assumption. }
  assert (Hu : t <> 65535 -> uint16 (t + 1) = t + 1)
    by (intros; unfold uint16; apply Z.mod_small; lia).
  assert (Hfin : forall b',
            length (button_timer b') = 8%nat ->
            (forall j, 0 <= j < 8 ->
               view b' j = if j =? k
                           then view_step (Z.testbit button j) (view b j)
                           else view b j) ->
            True) by trivial.
  clear Hfin.
  destruct (Z.testbit button k) eqn:Hdown.
  - destruct (Z.eqb_spec t 65535) as [Hsat | Hsat]; cbn [negb].
    + leaf Hbits Hdown Hidx k t.
    + rewrite (Hu Hsat).
      destruct (Z.eqb_spec (t + 1) 31); [leaf Hbits Hdown Hidx k t|].
      destruct (Z.eqb_spec (t + 1) 625); leaf Hbits Hdown Hidx k t.
  - destruct (Z.leb_spec 31 t); [destruct (Z.ltb_spec t 625)|]; leaf Hbits Hdown Hidx k t.
Qed.

Lemma view_frame (b' b : buttons) (j : Z) :
  button_timer b' = button_timer b ->
  button_debounced b' = button_debounced b ->
  button_pressed b' = button_pressed b ->
  button_released b' = button_released b ->
  button_short b' = button_short b ->
  button_long b' = button_long b ->
  view b' j = view b j.
Proof.
  intros H1 H2 H3 H4 H5 H6. unfold view, down_time.
  rewrite H1, H2, H3, H4, H5, H6. reflexivity.
Qed.

Lemma same_frame_trans (b1 b2 b3 : buttons) :
  same_frame b1 b2 -> same_frame b2 b3 -> same_frame b1 b3.
Proof.
  unfold same_frame. intros (A1 & A2 & A3 & A4 & A5) (B1 & B2 & B3 & B4 & B5).
  repeat split; congruence.
Qed.

(** The loop of [button_scan] from button [index] on. *)
Lemma scan_loop_view (button : Z) (n : nat) :
  forall (index : nat) (mask : Z) (b : buttons),
    (index + n = 8)%nat -> (n <> 0%nat -> mask = 2 ^ Z.of_nat index) ->
    buttons_ok b -> 0 <= button < 256 ->
    buttons_ok (scan_loop n index button mask b) /\
    same_frame (scan_loop n index button mask b) b /\
    forall j,
      0 <= j < 8 ->
      view (scan_loop n index button mask b) j
      = if Z.of_nat index <=? j
        then view_step (Z.testbit button j) (view b j)
        else view b j.
Proof.
  induction n as [|n IH]; intros index mask b Hn Hmask Hok Hb.
  - cbn [scan_loop]. split; [exact Hok|].
    split; [unfold same_frame; repeat split; reflexivity|].
    intros j Hj. destruct (Z.leb_spec (Z.of_nat index) j); [lia | reflexivity].
  - cbn [scan_loop]. rewrite (Hmask ltac:(discriminate)).
    destruct (scan_one_view button index b Hok Hb ltac:(lia))
      as (Hok1 & Hfr1 & Hv1).
    assert (Hm1 : n <> 0%nat ->
                  uint8 (Z.shiftl (2 ^ Z.of_nat index) 1)
                  = 2 ^ Z.of_nat (S index)).
    { intros Hn0.
      replace (Z.of_nat (S index)) with (Z.of_nat index + 1) by lia.
      apply (mask_byte 0 (Z.of_nat index) 0); lia. }
    destruct (IH (S index) _ _ ltac:(lia) Hm1 Hok1 Hb) as (Hok2 & Hfr2 & Hv2).
    split; [exact Hok2|].
    split; [exact (same_frame_trans _ _ _ Hfr2 Hfr1)|].
    intros j Hj. rewrite (Hv2 j Hj), (Hv1 j Hj).
    destruct (Z.eqb_spec j (Z.of_nat index)) as [-> | Hne].
    + destruct (Z.leb_spec (Z.of_nat (S index)) (Z.of_nat index)); [lia|].
      destruct (Z.leb_spec (Z.of_nat index) (Z.of_nat index)); [|lia].
      reflexivity.
    + destruct (Z.leb_spec (Z.of_nat (S index)) j),
               (Z.leb_spec (Z.of_nat index) j); try lia; reflexivity.
Qed.

Lemma scan_chord_facts (button : Z) (b : buttons) :
  buttons_ok b ->
  buttons_ok (scan_chord button b) /\
  button_scan_enable (scan_chord button b) = button_scan_enable b /\
  button_state (scan_chord button b) = button_state b /\
  button_previous (scan_chord button b) = button_previous b /\
  (forall j, view (scan_chord button b) j = view b j) /\
  button_stable (scan_chord button b)
  = (if button =? button_previous b
     then Z.min (button_stable b + 1) 65535 else 0) /\
  button_chord (scan_chord button b)
  = (if (button =? button_previous b)
        && (Z.min (button_stable b + 1) 65535 =? BUTTON_CHORD_DELAY)
     then button else button_chord b).
Proof.
  intros (Hlen & Hall & Hst & Hd & Hp & Hr & Hs & Hl).
  unfold scan_chord. rewrite (not_saturated _ Hst).
  change BUTTON_CHORD_DELAY with 468.
  destruct (Z.eqb_spec button (button_previous b)) as [Heq | Hne].
  - destruct (Z.eqb_spec (button_stable b) 65535) as [Hsat | Hsat];
      cbn [negb andb].
    + rewrite Hsat. cbn.
      repeat split; try assumption; try reflexivity; lia.
    + assert (Hu : uint16 (button_stable b + 1) = button_stable b + 1)
        by (unfold uint16; apply Z.mod_small; lia).
      rewrite Hu. cbn [button_stable set_button_stable].
      rewrite Z.min_l by lia.
      destruct (Z.eqb_spec (button_stable b + 1) 468);
        unfold buttons_ok; cbn; repeat split; try assumption; try lia.
  - cbn [andb]. unfold buttons_ok. cbn.
    repeat split; try assumption; try lia.
Qed.

Lemma button_scan_view (p : button_pins) (b : buttons) :
  buttons_ok b -> button_scan_enable b <> 0 ->
  buttons_ok (button_scan p b) /\
  button_scan_enable (button_scan p b) = button_scan_enable b /\
  button_state (button_scan p b) = read_pins p /\
  button_previous (button_scan p b) = read_pins p /\
  (forall k, 0 <= k < 8 ->
     view (button_scan p b) k = view_step (is_down p k) (view b k)) /\
  button_stable (button_scan p b)
  = (if read_pins p =? button_previous b
     then Z.min (button_stable b + 1) 65535 else 0) /\
  button_chord (button_scan p b)
  = (if (read_pins p =? button_previous b)
        && (Z.min (button_stable b + 1) 65535 =? BUTTON_CHORD_DELAY)
     then read_pins p else button_chord b).
Proof.
  intros Hok Hen. unfold button_scan, nonzero.
  destruct (Z.eqb_spec (button_scan_enable b) 0); [contradiction|].
  cbn [negb]. change (Z.to_nat NUM_BUTTONS) with 8%nat.
  set (b1 := set_button_state (read_pins p) b).
  assert (Hok1 : buttons_ok b1) by exact Hok.
  destruct (scan_chord_facts (read_pins p) b1 Hok1)
    as (Hok2 & Hen2 & Hst2 & Hpr2 & Hv2 & Hstable & Hchord).
  destruct (scan_loop_view (read_pins p) 8 0 1 _ eq_refl ltac:(reflexivity)
              Hok2 (proj1 (read_pins_bits p)))
    as (Hok3 & (Hen3 & Hst3 & Hch3 & Hpr3 & Hsb3) & Hv3).
  split; [exact Hok3|].
  cbn [button_scan_enable button_state button_previous button_stable
       button_chord set_button_previous].
  split; [rewrite Hen3, Hen2; reflexivity|].
  split; [rewrite Hst3, Hst2; reflexivity|].
  split; [reflexivity|].
  split.
  - intros k Hk.
    transitivity (view (scan_loop 8 0 (read_pins p) 1
                          (scan_chord (read_pins p) b1)) k);
      [apply view_frame; reflexivity|].
    rewrite (Hv3 k Hk), (Hv2 k).
    destruct (Z.leb_spec (Z.of_nat 0) k); [|lia].
    unfold is_down. f_equal.
  - rewrite Hsb3, Hch3. split; assumption.
Qed.

Lemma button_scans_snoc (l : list button_pins) (p : button_pins)
  (b : buttons) :
  button_scans (l ++ [p]) b = button_scan p (button_scans l b).
Proof. unfold button_scans. rewrite fold_left_app. reflexivity. Qed.

Lemma button_scans_cons (l : list button_pins) (p : button_pins)
  (b : buttons) :
  button_scans (p :: l) b = button_scans l (button_scan p b).
Proof. reflexivity. Qed.

Lemma button_scans_ok (l : list button_pins) (b : buttons) :
  buttons_ok b -> button_scan_enable b <> 0 ->
  buttons_ok (button_scans l b) /\
  button_scan_enable (button_scans l b) = button_scan_enable b.
Proof.
  intros Hok Hen. induction l as [|p l IH] using rev_ind.
  - split; [exact Hok | reflexivity].
  - rewrite button_scans_snoc. destruct IH as (Hok1 & Hen1).
    destruct (button_scan_view p _ Hok1 ltac:(congruence))
      as (Hok2 & Hen2 & _).
    split; [exact Hok2 | congruence].
Qed.

(** A run of scans as seen by one button that reads the same in all of
    them. *)
Lemma button_scans_const (d : bool) (k : Z) (l : list button_pins)
  (b : buttons) :
  buttons_ok b -> button_scan_enable b <> 0 -> 0 <= k < 8 ->
  Forall (fun p => is_down p k = d) l ->
  view (button_scans l b) k = Nat.iter (length l) (view_step d) (view b k).
Proof.
  intros Hok Hen Hk. induction l as [|p l IH] using rev_ind; intros Hall.
  - reflexivity.
  - apply Forall_app in Hall. destruct Hall as (Hl & Hp).
    apply Forall_inv in Hp.
    rewrite button_scans_snoc, length_app, Nat.add_1_r, Nat.iter_succ.
    destruct (button_scans_ok l b Hok Hen) as (Hok1 & Hen1).
    destruct (button_scan_view p _ Hok1 ltac:(congruence))
      as (_ & _ & _ & _ & Hv & _).
    rewrite (Hv k Hk), Hp, (IH Hl). reflexivity.
Qed.

(** A button that is up and whose timer is 0 is left as it is. *)
Lemma idle_view (n : nat) (v : button_view) :
  v_time v = 0 -> Nat.iter n (view_step false) v = v.
Proof.
  intros Ht. induction n as [|n IH]; [reflexivity|].
  rewrite Nat.iter_succ, IH. unfold view_step. rewrite Ht.
  destruct v as [t d p r s l]. cbn in *. subst t.
  rewrite andb_true_r, !orb_false_r. reflexivity.
Qed.

Lemma held_view (n : nat) (v : button_view) :
  v_time v = 0 ->
  Nat.iter n (view_step true) v
  = mk_view (Z.min (Z.of_nat n) 65535)
      (v_debounced v || (BUTTON_SHORT_DELAY <=? Z.of_nat n))
      (v_pressed v || (BUTTON_SHORT_DELAY <=? Z.of_nat n))
      (v_released v) (v_short v)
      (v_long v || (BUTTON_LONG_DELAY <=? Z.of_nat n)).
Proof.
  change BUTTON_SHORT_DELAY with 31. change BUTTON_LONG_DELAY with 625.
  destruct v as [t d p r s l]. cbn [v_time v_debounced v_pressed v_released
                                     v_short v_long].
  intros ->. induction n as [|n IH].
  - cbn. rewrite !orb_false_r. reflexivity.
  - rewrite Nat.iter_succ, IH. unfold view_step.
    cbn [v_time v_debounced v_pressed v_released v_short v_long].
    change BUTTON_SHORT_DELAY with 31. change BUTTON_LONG_DELAY with 625.
    destruct (Z.eqb_spec (Z.min (Z.of_nat n) 65535) 65535) as [Hsat | Hsat].
    + f_equal; try lia;
        destruct (Z.leb_spec 31 (Z.of_nat n)), (Z.leb_spec 31 (Z.of_nat (S n)));
        destruct (Z.leb_spec 625 (Z.of_nat n)),
                 (Z.leb_spec 625 (Z.of_nat (S n))); try lia; reflexivity.
    + f_equal; try lia;
        destruct (Z.leb_spec 31 (Z.of_nat n)), (Z.leb_spec 31 (Z.of_nat (S n)));
        destruct (Z.leb_spec 625 (Z.of_nat n)),
                 (Z.leb_spec 625 (Z.of_nat (S n)));
        destruct (Z.eqb_spec (Z.min (Z.of_nat n) 65535 + 1) 31);
        destruct (Z.eqb_spec (Z.min (Z.of_nat n) 65535 + 1) 625);
        try lia; destruct d, p, l; reflexivity.
Qed.

(** The chord check over a run of scans that all read the pattern the
    previous scan read. *)
Lemma chord_run (P : Z) (l : list button_pins) (b : buttons) :
  buttons_ok b -> button_scan_enable b <> 0 ->
  button_previous b = P ->
  Forall (fun p => read_pins p = P) l ->
  button_previous (button_scans l b) = P /\
  button_stable (button_scans l b)
  = Z.min (button_stable b + Z.of_nat (length l)) 65535 /\
  button_chord (button_scans l b)
  = if (button_stable b <? BUTTON_CHORD_DELAY)
       && (BUTTON_CHORD_DELAY <=? button_stable b + Z.of_nat (length l))
    then P else button_chord b.
Proof.
  intros Hok Hen Hprev. change BUTTON_CHORD_DELAY with 468.
  assert (Hst : 0 <= button_stable b < 65536) by apply Hok.
  induction l as [|p l IH] using rev_ind; intros Hall.
  - cbn [button_scans fold_left length]. split; [exact Hprev|].
    split; [lia|].
    destruct (Z.ltb_spec (button_stable b) 468),
             (Z.leb_spec 468 (button_stable b + Z.of_nat 0));
      try lia; reflexivity.
  - apply Forall_app in Hall. destruct Hall as (Hl & Hp).
    apply Forall_inv in Hp.
    destruct (IH Hl) as (Hpr & Hsb & Hch).
    destruct (button_scans_ok l b Hok Hen) as (Hok1 & Hen1).
    destruct (button_scan_view p _ Hok1 ltac:(congruence))
      as (_ & _ & _ & Hpr2 & _ & Hsb2 & Hch2).
    rewrite button_scans_snoc, length_app, Nat.add_1_r.
    rewrite Hpr2, Hsb2, Hch2, Hp, Hpr, Hsb, Hch, Z.eqb_refl.
    change BUTTON_CHORD_DELAY with 468.
    split; [reflexivity|]. split; [lia|]. cbn [andb].
    destruct (Z.eqb_spec
                (Z.min (Z.min (button_stable b + Z.of_nat (length l)) 65535
                        + 1) 65535) 468);
      destruct (Z.ltb_spec (button_stable b) 468);
      destruct (Z.leb_spec 468 (button_stable b + Z.of_nat (length l)));
      destruct (Z.leb_spec 468 (button_stable b + Z.of_nat (S (length l))));
      try lia; reflexivity.
Qed.

(** A button that reads down in [n] scans in a row, its timer at 0
    before, has a timer of [n] (the timer stops at 65535); its pressed and
    debounced bits are set from the 31st of these scans on and its long
    bit from the 625th; the released and short bits are not touched.  What
    the other buttons do in these scans makes no difference. *)
Theorem button_held_latches (k : Z) (b : buttons)
  (readings : list button_pins) :
  buttons_ok b -> button_scan_enable b <> 0 -> 0 <= k < 8 ->
  down_time b k = 0 ->
  Forall (fun p => is_down p k = true) readings ->
  view (button_scans readings b) k
  = mk_view (Z.min (Z.of_nat (length readings)) 65535)
      (has_button (button_debounced b) k
       || (BUTTON_SHORT_DELAY <=? Z.of_nat (length readings)))
      (has_button (button_pressed b) k
       || (BUTTON_SHORT_DELAY <=? Z.of_nat (length readings)))
      (has_button (button_released b) k)
      (has_button (button_short b) k)
      (has_button (button_long b) k
       || (BUTTON_LONG_DELAY <=? Z.of_nat (length readings))).
Proof.
  intros Hok Hen Hk Ht Hall.
  rewrite (button_scans_const true k readings b Hok Hen Hk Hall).
  rewrite held_view by exact Ht. reflexivity.
Qed.

(** A button held down for [n] scans and then read up: the release is
    recorded when [n] is at least 31, as a short press when [n] is also
    below 625; a press of fewer than 31 scans leaves no trace in any
    register. *)
Theorem button_press_release_latches (k : Z) (b : buttons)
  (readings : list button_pins) (up : button_pins) :
  buttons_ok b -> button_scan_enable b <> 0 -> 0 <= k < 8 ->
  down_time b k = 0 ->
  Forall (fun p => is_down p k = true) readings ->
  is_down up k = false ->
  view (button_scans (readings ++ [up]) b) k
  = mk_view 0
      (has_button (button_debounced b) k
       && (Z.of_nat (length readings) <? BUTTON_SHORT_DELAY))
      (has_button (button_pressed b) k
       || (BUTTON_SHORT_DELAY <=? Z.of_nat (length readings)))
      (has_button (button_released b) k
       || (BUTTON_SHORT_DELAY <=? Z.of_nat (length readings)))
      (has_button (button_short b) k
       || ((BUTTON_SHORT_DELAY <=? Z.of_nat (length readings))
           && (Z.of_nat (length readings) <? BUTTON_LONG_DELAY)))
      (has_button (button_long b) k
       || (BUTTON_LONG_DELAY <=? Z.of_nat (length readings))).
Proof.
  intros Hok Hen Hk Ht Hall Hup.
  destruct (button_scans_ok readings b Hok Hen) as (Hok1 & Hen1).
  destruct (button_scan_view up _ Hok1 ltac:(congruence))
    as (_ & _ & _ & _ & Hv & _).
  rewrite button_scans_snoc, (Hv k Hk), Hup.
  rewrite (button_scans_const true k readings b Hok Hen Hk Hall).
  rewrite held_view by exact Ht.
  unfold view_step, view.
  cbn [v_time v_debounced v_pressed v_released v_short v_long].
  change BUTTON_SHORT_DELAY with 31. change BUTTON_LONG_DELAY with 625.
  set (n := Z.of_nat (length readings)).
  assert (Hn : 0 <= n) by (unfold n; lia).
  f_equal;
    destruct (Z.leb_spec 31 n), (Z.leb_spec 625 n), (Z.ltb_spec n 31),
             (Z.ltb_spec n 625), (Z.leb_spec 31 (Z.min n 65535)),
             (Z.ltb_spec (Z.min n 65535) 31),
             (Z.ltb_spec (Z.min n 65535) 625); try lia;
    rewrite ?orb_false_r, ?orb_true_r, ?andb_false_r, ?andb_true_r;
    reflexivity.
Qed.

Lemma chord_after_new_pattern (P : Z) (b : buttons)
  (first : button_pins) (readings : list button_pins) :
  buttons_ok b -> button_scan_enable b <> 0 ->
  button_previous b <> P ->
  Forall (fun p => read_pins p = P) (first :: readings) ->
  button_chord (button_scans (first :: readings) b)
  = (if BUTTON_CHORD_DELAY <=? Z.of_nat (length readings)
     then P else button_chord b) /\
  button_stable (button_scans (first :: readings) b)
  = Z.min (Z.of_nat (length readings)) 65535.
Proof.
  intros Hok Hen Hprev Hall.
  pose proof (Forall_inv Hall) as Hfirst. cbv beta in Hfirst.
  pose proof (Forall_inv_tail Hall) as Hrest.
  destruct (button_scan_view first b Hok Hen)
    as (Hok1 & Hen1 & _ & Hpr1 & _ & Hsb1 & Hch1).
  rewrite Hfirst in Hpr1, Hsb1, Hch1.
  destruct (Z.eqb_spec P (button_previous b)) as [Heq | _];
    [symmetry in Heq; contradiction|].
  cbn [andb] in Hch1.
  destruct (chord_run P readings _ Hok1 ltac:(congruence) Hpr1 Hrest)
    as (_ & Hsb & Hch).
  rewrite button_scans_cons, Hsb, Hch, Hsb1, Hch1.
  change BUTTON_CHORD_DELAY with 468. split; [|f_equal; lia].
  destruct (Z.leb_spec 468 (0 + Z.of_nat (length readings))),
           (Z.leb_spec 468 (Z.of_nat (length readings))); try lia;
    reflexivity.
Qed.

(** A pattern of buttons that differs from the one read before becomes
    the chord on the 469th scan in a row that reads it, and not before;
    this holds for the empty pattern too, which then erases a chord that
    was not yet fetched. *)
Theorem button_chord_after_stable_pattern (P : Z) (b : buttons)
  (first : button_pins) (readings : list button_pins) :
  buttons_ok b -> button_scan_enable b <> 0 ->
  button_previous b <> P ->
  Forall (fun p => read_pins p = P) (first :: readings) ->
  button_chord (button_scans (first :: readings) b)
  = (if BUTTON_CHORD_DELAY <=? Z.of_nat (length readings)
     then P else button_chord b) /\
  button_stable (button_scans (first :: readings) b)
  = Z.min (Z.of_nat (length readings)) 65535.
Proof. exact (chord_after_new_pattern P b first readings). Qed.

(** Button 2 held for 31 scans after a reset. *)
Lemma button_held_latches_witness :
  has_button
    (button_pressed
       (button_scans
          (replicate 31 (mk_button_pins true true false true true true
                                        true true))
          (reset_buttons (mk_buttons 0 0 0 0 0 0 0 0 0 0 (replicate 8 0)))))
    2 = true.
Proof.
  pose (b := reset_buttons (mk_buttons 0 0 0 0 0 0 0 0 0 0 (replicate 8 0))).
  pose (p := mk_button_pins true true false true true true true true).
  assert (Hok : buttons_ok b)
    by (unfold buttons_ok; cbn; repeat split; try lia; repeat constructor; lia).
  assert (Hen : button_scan_enable b <> 0) by (cbn; lia).
  assert (Hall : Forall (fun q => is_down q 2 = true) (replicate 31 p))
    by (apply Forall_replicate; reflexivity).
  exact (f_equal v_pressed
           (button_held_latches 2 b (replicate 31 p) Hok Hen ltac:(lia)
              eq_refl Hall)).
Defined.

(** The left button tapped for 40 scans. *)
Lemma button_press_release_latches_witness :
  has_button
    (button_short
       (button_scans
          (replicate 40 (mk_button_pins true true true true true true
                                        false true)
           ++ [mk_button_pins true true true true true true true true])
          (reset_buttons (mk_buttons 0 0 0 0 0 0 0 0 0 0 (replicate 8 0)))))
    6 = true.
Proof.
  pose (b := reset_buttons (mk_buttons 0 0 0 0 0 0 0 0 0 0 (replicate 8 0))).
  pose (p := mk_button_pins true true true true true true false true).
  assert (Hok : buttons_ok b)
    by (unfold buttons_ok; cbn; repeat split; try lia; repeat constructor; lia).
  assert (Hen : button_scan_enable b <> 0) by (cbn; lia).
  assert (Hall : Forall (fun q => is_down q 6 = true) (replicate 40 p))
    by (apply Forall_replicate; reflexivity).
  exact (f_equal v_short
           (button_press_release_latches 6 b (replicate 40 p)
              (mk_button_pins true true true true true true true true)
              Hok Hen ltac:(lia) eq_refl Hall eq_refl)).
Defined.

(** Buttons 0 and 1 held together for 469 scans. *)
Lemma button_chord_after_stable_pattern_witness :
  button_chord
    (button_scans
       (mk_button_pins false false true true true true true true
        :: replicate 468 (mk_button_pins false false true true true true
                                         true true))
       (reset_buttons (mk_buttons 0 0 0 0 0 0 0 0 0 0 (replicate 8 0))))
  = 3.
Proof.
  pose (b := reset_buttons (mk_buttons 0 0 0 0 0 0 0 0 0 0 (replicate 8 0))).
  pose (p := mk_button_pins false false true true true true true true).
  assert (Hok : buttons_ok b)
    by (unfold buttons_ok; cbn; repeat split; try lia; repeat constructor; lia).
  assert (Hen : button_scan_enable b <> 0) by (cbn; lia).
  assert (Hall : Forall (fun q => read_pins q = 3) (p :: replicate 468 p))
    by (constructor; [reflexivity | apply Forall_replicate; reflexivity]).
  exact (proj1 (button_chord_after_stable_pattern 3 b p (replicate 468 p)
                  Hok Hen ltac:(cbn; lia) Hall)).
Defined.

End ButtonFacts.

(** * The tick interrupt and the main loop together *)

Module SystemFacts.
Import System.

Lemma timer0_ticks_snoc (fuel : nat) (l : list Button.button_pins)
  (p : Button.button_pins) (s : system) :
  timer0_ticks fuel (l ++ [p]) s
  = match timer0_ticks fuel l s with
    | Some s1 => timer0_compa_isr fuel p s1
    | None => None
    end.
Proof.
  revert s. induction l as [|q l IH]; intros s.
  - cbn [app timer0_ticks]. destruct (timer0_compa_isr fuel p s); reflexivity.
  - cbn [app timer0_ticks]. destruct (timer0_compa_isr fuel q s); [apply IH|].
    reflexivity.
Qed.

(** One entry of the interrupt while the player is stopped. *)
Lemma timer0_compa_isr_stopped (fuel : nat) (p : Button.button_pins)
  (s : system) :
  Player.player_is_stopped (st_player s) = true ->
  exists s',
    timer0_compa_isr fuel p s = Some s' /\
    st_nixie s' = Nixie.nixie_display_refresh (st_nixie s) /\
    st_button s' = Button.button_scan p (st_button s) /\
    st_rotary s' = st_rotary s /\
    st_player s' = st_player s /\
    (st_timer s', st_clock s', st_event s')
    = Timer.second_divider (Timer.timer_update (st_timer s)) (st_clock s)
        (st_event s).
Proof.
  unfold Player.player_is_stopped. intros Hstop.
  unfold timer0_compa_isr, Player.player_service. rewrite Hstop.
  destruct (Timer.second_divider _ _ _) as [[t1 c1] q1].
  eexists. split; [reflexivity|]. cbn. repeat split.
Qed.

Lemma timer_update_slot_set_prescaler (index : nat) (mask v : Z)
  (t : Timer.timers) :
  Timer.timer_update_slot index mask (Timer.set_seconds_prescaler v t)
  = Timer.set_seconds_prescaler v (Timer.timer_update_slot index mask t).
Proof.
  unfold Timer.timer_update_slot.
  cbn [Timer.timer_count Timer.timer_period Timer.timer_flag
       Timer.set_seconds_prescaler].
  destruct (nonzero (nth index (Timer.timer_count t) 0)); [|reflexivity].
  destruct (negb (nonzero (uint16 (nth index (Timer.timer_count t) 0 - 1))));
    reflexivity.
Qed.

Lemma timer_update_set_prescaler (v : Z) (t : Timer.timers) :
  Timer.timer_update (Timer.set_seconds_prescaler v t)
  = Timer.set_seconds_prescaler v (Timer.timer_update t).
Proof.
  unfold Timer.timer_update.
  generalize (Z.to_nat Timer.NUM_EVENT_TIMERS) 0%nat 1.
  intros n. revert t.
  induction n as [|n IH]; intros t index mask; [reflexivity|].
  cbn [Timer.timer_update_loop].
  rewrite timer_update_slot_set_prescaler. apply IH.
Qed.

Lemma set_prescaler_twice (v w : Z) (t : Timer.timers) :
  Timer.set_seconds_prescaler v (Timer.set_seconds_prescaler w t)
  = Timer.set_seconds_prescaler v t.
Proof. reflexivity. Qed.

Lemma prescaler_of_set (v : Z) (t : Timer.timers) :
  Timer.seconds_prescaler (Timer.set_seconds_prescaler v t) = v.
Proof. reflexivity. Qed.

Lemma set_prescaler_same (t : Timer.timers) :
  Timer.set_seconds_prescaler (Timer.seconds_prescaler t) t = t.
Proof. destruct t; reflexivity. Qed.

(** The interrupt entered for a run of pin readings while the player is
    stopped: every module goes its own way. *)
Lemma timer0_ticks_stopped (fuel : nat) (l : list Button.button_pins)
  (s : system) :
  Player.player_is_stopped (st_player s) = true ->
  Timer.seconds_prescaler (st_timer s) = Timer.TIMER0_FREQUENCY ->
  exists s',
    timer0_ticks fuel l s = Some s' /\
    st_nixie s'
    = Nat.iter (length l) Nixie.nixie_display_refresh (st_nixie s) /\
    st_button s' = Button.button_scans l (st_button s) /\
    st_rotary s' = st_rotary s /\
    st_player s' = st_player s /\
    st_timer s'
    = Timer.set_seconds_prescaler
        (Timer.TIMER0_FREQUENCY
         - Z.of_nat (length l) mod Timer.TIMER0_FREQUENCY)
        (Nat.iter (length l) Timer.timer_update (st_timer s)) /\
    st_clock s'
    = Nat.iter (Z.to_nat (Z.of_nat (length l) / Timer.TIMER0_FREQUENCY))
        Clock.time_date_update (st_clock s) /\
    st_event s'
    = Nat.iter (Z.to_nat (Z.of_nat (length l) / Timer.TIMER0_FREQUENCY))
        (Event.add_event Event.ONE_SECOND_ELAPSED 0) (st_event s).
Proof.
  intros Hstop Hsp. change Timer.TIMER0_FREQUENCY with 625 in *.
  induction l as [|p l IH] using rev_ind.
  - exists s. split; [reflexivity|]. cbn [length Nat.iter nat_rect].
    change (Z.of_nat 0 mod 625) with 0. change (625 - 0) with 625.
    rewrite <- Hsp, set_prescaler_same. repeat split.
  - destruct IH as (s1 & Hrun & Hn & Hb & Hr & Hp & Ht & Hc & He).
    destruct (timer0_compa_isr_stopped fuel p s1 ltac:(congruence))
      as (s2 & Hisr & Hn2 & Hb2 & Hr2 & Hp2 & Hdiv).
    exists s2. rewrite timer0_ticks_snoc, Hrun.
    split; [exact Hisr|].
    rewrite length_app, Nat.add_1_r, !Nat.iter_succ.
    split; [congruence|].
    split; [rewrite ButtonFacts.button_scans_snoc; congruence|].
    split; [congruence|]. split; [congruence|].
    rewrite Ht, timer_update_set_prescaler in Hdiv.
    unfold Timer.second_divider in Hdiv.
    rewrite prescaler_of_set in Hdiv.
    change Timer.TIMER0_FREQUENCY with 625 in Hdiv.
    set (N := Z.of_nat (length l)) in *.
    replace (Z.of_nat (S (length l))) with (N + 1) by (unfold N; lia).
    assert (HN : 0 <= N) by (unfold N; lia).
    assert (Hu : uint16 (625 - N mod 625 - 1) = 625 - N mod 625 - 1)
      by (unfold uint16; Z.div_mod_to_equations; lia).
    rewrite Hu in Hdiv. unfold nonzero in Hdiv.
    destruct (Z.eqb_spec (625 - N mod 625 - 1) 0) as [Hz | Hz];
      cbn [negb] in Hdiv.
    + assert (Hm : (N + 1) mod 625 = 0) by (Z.div_mod_to_equations; lia).
      assert (Hq : Z.to_nat ((N + 1) / 625) = S (Z.to_nat (N / 625)))
        by (Z.div_mod_to_equations; lia).
      rewrite Hz in Hdiv. change (uint16 (0 + 625)) with 625 in Hdiv.
      rewrite set_prescaler_twice in Hdiv.
      injection Hdiv as Ht2 Hc2 He2.
      rewrite Hm, Hq, !Nat.iter_succ, <- Hc, <- He.
      change (625 - 0) with 625. repeat split; assumption.
    + assert (Hm : 625 - (N + 1) mod 625 = 625 - N mod 625 - 1)
        by (Z.div_mod_to_equations; lia).
      assert (Hq : (N + 1) / 625 = N / 625)
        by (Z.div_mod_to_equations; lia).
      rewrite set_prescaler_twice in Hdiv.
      injection Hdiv as Ht2 Hc2 He2.
      rewrite Hm, Hq, <- Hc, <- He. repeat split; assumption.
Qed.

(** A byte is determined by its eight bits. *)
Lemma byte_one_bit (f k : Z) :
  0 <= f < 256 -> 0 <= k < 8 ->
  (forall j, 0 <= j < 8 -> Z.testbit f j = (j =? k)) -> f = 2 ^ k.
Proof.
  intros Hf Hk Hbits.
  pose (js := map Z.of_nat (seq 0 8)).
  pose (check := fun f k =>
    negb (forallb (fun j => Bool.eqb (Z.testbit f j) (j =? k)) js)
    || (f =? 2 ^ k)).
  assert (Hall : forallb (fun f => forallb (check f) js)
                   (map Z.of_nat (seq 0 256)) = true)
    by (vm_compute; reflexivity).
  pose proof (TimerFacts.below_forallb 256 _ Hall f Hf) as H1.
  cbv beta in H1.
  pose proof (TimerFacts.below_forallb 8 _ H1 k Hk) as H2.
  unfold check in H2. apply orb_prop in H2. destruct H2 as [H2 | H2]; [|lia].
  exfalso. apply negb_true_iff in H2.
  assert (Ht : forallb (fun j => Bool.eqb (Z.testbit f j) (j =? k)) js = true).
  { apply forallb_forall. intros j Hj. unfold js in Hj.
    apply in_map_iff in Hj. destruct Hj as (m & <- & Hm).
    apply in_seq in Hm. rewrite Hbits by lia. apply Bool.eqb_reflx. }
  congruence.
Qed.

Lemma byte_no_bit (f : Z) :
  0 <= f < 256 ->
  (forall j, 0 <= j < 8 -> Z.testbit f j = false) -> f = 0.
Proof.
  intros Hf Hbits.
  pose (js := map Z.of_nat (seq 0 8)).
  pose (check := fun f =>
    negb (forallb (fun j => negb (Z.testbit f j)) js) || (f =? 0)).
  assert (Hall : forallb check (map Z.of_nat (seq 0 256)) = true)
    by (vm_compute; reflexivity).
  pose proof (TimerFacts.below_forallb 256 _ Hall f Hf) as H2.
  unfold check in H2. apply orb_prop in H2. destruct H2 as [H2 | H2]; [|lia].
  exfalso. apply negb_true_iff in H2.
  assert (Ht : forallb (fun j => negb (Z.testbit f j)) js = true).
  { apply forallb_forall. intros j Hj. unfold js in Hj.
    apply in_map_iff in Hj. destruct Hj as (m & <- & Hm).
    apply in_seq in Hm. rewrite Hbits by lia. reflexivity. }
  congruence.
Qed.

Lemma reset_buttons_eq (b0 : Button.buttons) :
  length (Button.button_timer b0) = 8%nat ->
  Button.reset_buttons b0
  = Button.mk_buttons 1 0 0 0 0 0 0 0 0 (Button.button_stable b0)
      (replicate 8 0).
Proof.
  intros Hlen. unfold Button.reset_buttons. f_equal.
  destruct (Button.button_timer b0) as [|x0 [|x1 [|x2 [|x3 [|x4 [|x5 [|x6
    [|x7 [|x8 l]]]]]]]]]; try discriminate.
  reflexivity.
Qed.

(** The registers after button [k] alone has been down for between 31
    and 468 scans following a reset. *)
Lemma one_button_pressed (k : Z) (b0 : Button.buttons)
  (readings : list Button.button_pins) :
  0 <= k < 8 ->
  length (Button.button_timer b0) = 8%nat ->
  0 <= Button.button_stable b0 < 65536 ->
  Forall (fun p => only_down p k) readings ->
  31 <= Z.of_nat (length readings) <= 468 ->
  let b := Button.button_scans readings (Button.reset_buttons b0) in
  Button.button_pressed b = 2 ^ k /\
  Button.button_debounced b = 2 ^ k /\
  Button.button_released b = 0 /\
  Button.button_short b = 0 /\
  Button.button_long b = 0 /\
  Button.button_chord b = 0.
Proof.
  intros Hk Hlen Hst Hall Hn. cbv zeta.
  rewrite (reset_buttons_eq b0 Hlen).
  set (b := Button.mk_buttons 1 0 0 0 0 0 0 0 0 _ _).
  assert (Hok : Button.buttons_ok b).
  { unfold Button.buttons_ok, b. cbn.
    repeat split; try lia; repeat constructor; lia. }
  assert (Hen : Button.button_scan_enable b <> 0) by (cbn; lia).
  destruct (ButtonFacts.button_scans_ok readings b Hok Hen) as (Hok' & _).
  destruct Hok' as (_ & _ & _ & Hd & Hp & Hr & Hs & Hl).
  assert (Hview : forall j, 0 <= j < 8 ->
            Button.view (Button.button_scans readings b) j
            = if j =? k
              then Button.mk_view (Z.of_nat (length readings)) true true
                                  false false false
              else Button.mk_view 0 false false false false false).
  { intros j Hj.
    assert (Hdown : Forall (fun p => Button.is_down p j = (j =? k)) readings).
    { eapply Forall_impl; [exact Hall|]. intros p Hp'. unfold only_down in Hp'.
      unfold Button.is_down. rewrite Hp'.
      rewrite Z.pow2_bits_eqb by lia. apply Z.eqb_sym. }
    rewrite (ButtonFacts.button_scans_const (j =? k) j readings b Hok Hen Hj
               Hdown).
    assert (Hv0 : Button.view b j
                  = Button.mk_view 0 false false false false false).
    { unfold Button.view, Button.down_time, Button.has_button, b.
      cbn [Button.button_timer Button.button_debounced Button.button_pressed
           Button.button_released Button.button_short Button.button_long].
      rewrite Z.bits_0. f_equal.
      assert (Hj8 : (Z.to_nat j < 8)%nat) by lia.
      destruct (Z.to_nat j) as [|[|[|[|[|[|[|[|?]]]]]]]]; try reflexivity; lia. }
    rewrite Hv0.
    destruct (Z.eqb_spec j k) as [-> | Hne].
    - rewrite ButtonFacts.held_view by reflexivity.
      cbn [Button.v_time Button.v_debounced Button.v_pressed
           Button.v_released Button.v_short Button.v_long orb].
      change Button.BUTTON_SHORT_DELAY with 31.
      change Button.BUTTON_LONG_DELAY with 625.
      destruct (Z.leb_spec 31 (Z.of_nat (length readings))); [|lia].
      destruct (Z.leb_spec 625 (Z.of_nat (length readings))); [lia|].
      f_equal. lia.
    - apply ButtonFacts.idle_view. reflexivity. }
  assert (Hbit : forall (reg : Button.buttons -> Z)
                        (proj : Button.button_view -> bool),
            (forall b' j, proj (Button.view b' j) = Z.testbit (reg b') j) ->
            forall j, 0 <= j < 8 ->
              Z.testbit (reg (Button.button_scans readings b)) j
              = proj (if j =? k
                      then Button.mk_view (Z.of_nat (length readings)) true
                                          true false false false
                      else Button.mk_view 0 false false false false false)).
  { intros reg proj Hproj j Hj. rewrite <- Hproj, (Hview j Hj). reflexivity. }
  split; [|split; [|split; [|split; [|split]]]].
  - apply byte_one_bit; [exact Hp | exact Hk|]. intros j Hj.
    rewrite (Hbit Button.button_pressed Button.v_pressed) by
      (reflexivity || exact Hj).
    destruct (j =? k); reflexivity.
  - apply byte_one_bit; [exact Hd | exact Hk|]. intros j Hj.
    rewrite (Hbit Button.button_debounced Button.v_debounced) by
      (reflexivity || exact Hj).
    destruct (j =? k); reflexivity.
  - apply byte_no_bit; [exact Hr|]. intros j Hj.
    rewrite (Hbit Button.button_released Button.v_released) by
      (reflexivity || exact Hj).
    destruct (j =? k); reflexivity.
  - apply byte_no_bit; [exact Hs|]. intros j Hj.
    rewrite (Hbit Button.button_short Button.v_short) by
      (reflexivity || exact Hj).
    destruct (j =? k); reflexivity.
  - apply byte_no_bit; [exact Hl|]. intros j Hj.
    rewrite (Hbit Button.button_long Button.v_long) by
      (reflexivity || exact Hj).
    destruct (j =? k); reflexivity.
  - destruct readings as [|first rest]; [cbn in Hn; lia|].
    assert (Hprev : Button.button_previous b <> 2 ^ k).
    { cbn. pose proof (Z.pow_pos_nonneg 2 k ltac:(lia) ltac:(lia)). lia. }
    destruct (ButtonFacts.chord_after_new_pattern (2 ^ k) b first rest Hok Hen
                Hprev Hall) as (Hch & _).
    rewrite Hch. change Button.BUTTON_CHORD_DELAY with 468.
    cbn [length] in Hn.
    destruct (Z.leb_spec 468 (Z.of_nat (length rest))); [lia | reflexivity].
Qed.

Lemma timer_update_idle (t : Timer.timers) :
  Timer.timer_count t = replicate 8 0 -> Timer.timer_update t = t.
Proof.
  intros Hc. destruct t as [sp counts periods flag]. cbn in Hc. subst counts.
  reflexivity.
Qed.

Lemma timer_updates_idle (n : nat) (t : Timer.timers) :
  Timer.timer_count t = replicate 8 0 -> Nat.iter n Timer.timer_update t = t.
Proof.
  intros Hc. induction n as [|n IH]; [reflexivity|].
  rewrite Nat.iter_succ, IH. apply timer_update_idle. exact Hc.
Qed.

(** With every latch empty the scan adds nothing, whatever the debounced
    state. *)
Lemma get_next_event_no_latch (deb : Z) (q : Event.queue) :
  Event.get_next_event (Event.mk_sources 0 0 0 0 deb 0 0 0 0) q
  = Event.get_next_event Event.no_sources q.
Proof. reflexivity. Qed.

Lemma get_next_event_after_scan (src : Event.sources) (q : Event.queue) :
  Event.get_next_event src q
  = Event.get_next_event Event.no_sources (Event.scan_for_events src q).
Proof.
  unfold Event.get_next_event.
  rewrite EventFacts.scan_for_events_no_sources. reflexivity.
Qed.

Lemma pending_nil_count (q : Event.queue) :
  Event.pending q = [] -> Event.pending_count q = 0.
Proof.
  intros Hp. pose proof (EventFacts.pending_length q) as Hlen.
  rewrite Hp in Hlen. cbn in Hlen.
  assert (0 <= Event.pending_count q)
    by (unfold Event.pending_count, Event.EVENT_QUEUE_SIZE;
        Z.div_mod_to_equations; lia).
  lia.
Qed.

Lemma reset_expired_quiet (t : Timer.timers) :
  Timer.timer_flag t = 0 ->
  reset_expired 8 (uint8 (Timer.timer_status t)) 0 t = t.
Proof. unfold Timer.timer_status. intros ->. reflexivity. Qed.

(** A press of one button, from the pins to the main loop: after a reset,
    with nothing else going on, button [k] alone is held down through
    between 31 and 468 entries of the tick interrupt.  The next
    [get_next_event] then returns the pressed event of column [k], whose
    data byte has bit [k] set, and the call after it returns NO_EVENT: the
    press is reported once.  Column 6 is the input LEFT_BUTTON, and its
    event is the one named RIGHT_BUTTON_PRESSED. *)
Theorem button_press_reported_once (fuel : nat) (k : Z) (s : system)
  (readings : list Button.button_pins) :
  quiet s -> 0 <= k < 8 ->
  Forall (fun p => only_down p k) readings ->
  31 <= Z.of_nat (length readings) <= 468 ->
  exists s1 s2 s3,
    timer0_ticks fuel readings s = Some s1 /\
    get_next_event s1
    = (s2, Event.Slot (Event.mk_event (Event.BUTTON0_PRESSED + 4 * k) (2 ^ k)))
    /\ get_next_event s2
       = (s3, Event.Slot (Event.mk_event Event.NO_EVENT 0)).
Proof.
  intros (Hstop & Hsp & Hcnt & Hflag & Hleft & Hright
          & (b0 & Hb0 & Hlen & Hst) & Hqok & Hpend) Hk Hall Hn.
  destruct (timer0_ticks_stopped fuel readings s Hstop Hsp)
    as (s1 & Hrun & _ & Hb & Hr & _ & Ht & _ & He).
  rewrite (timer_updates_idle _ _ Hcnt) in Ht.
  change Timer.TIMER0_FREQUENCY with 625 in *.
  replace (Z.of_nat (length readings) / 625) with 0 in He
    by (Z.div_mod_to_equations; lia).
  change (Z.to_nat 0) with 0%nat in He. cbn [Nat.iter nat_rect] in He.
  rewrite Hb0 in Hb.
  destruct (one_button_pressed k b0 readings Hk Hlen Hst Hall Hn)
    as (Hp & Hd & Hrl & Hsh & Hlg & Hch).
  rewrite <- Hb in Hp, Hd, Hrl, Hsh, Hlg, Hch.
  assert (Hsrc : fst (read_sources s1)
                 = Event.one_button_latch k 0 (2 ^ k)).
  { unfold read_sources, Event.one_button_latch.
    cbn [Button.reset_buttons_pressed Button.reset_buttons_released
         Button.reset_short_buttons Button.reset_long_buttons
         Button.read_button_debounced Button.reset_button_chord
         Rotary.right_rotary_relative Rotary.left_rotary_relative
         Timer.timer_status fst snd
         Button.button_pressed Button.button_released Button.button_short
         Button.button_long Button.button_debounced Button.button_chord
         Button.set_button_pressed Button.set_button_released
         Button.set_button_short Button.set_button_long
         Button.set_button_chord].
    rewrite Hp, Hd, Hrl, Hsh, Hlg, Hch, Hr, Hright, Hleft, Ht.
    unfold Timer.timer_status.
    cbn [Timer.timer_flag Timer.set_seconds_prescaler Rotary.left_position
         Z.eqb].
    rewrite Hflag, Z.shiftl_1_l. reflexivity. }
  assert (Hcount : Event.pending_count (st_event s1) < 15)
    by (rewrite He, (pending_nil_count _ Hpend); lia).
  rewrite <- He in Hqok, Hpend.
  destruct (EventFacts.add_event_pending (4 * k + 0 + 1) (2 ^ k)
              (st_event s1) Hqok Hcount) as (Hok1 & Hp1).
  rewrite Hpend in Hp1. cbn [app] in Hp1.
  destruct (proj2 (EventFacts.get_next_event_pending _ Hok1) _ _ Hp1)
    as (q2 & Hget & Hok2 & Hp2).
  destruct (read_sources s1) as [src s1'] eqn:Hread.
  cbn [fst] in Hsrc. subst src.
  assert (Hs1' : s1' = snd (read_sources s1)) by (rewrite Hread; reflexivity).
  assert (Hev : st_event s1' = st_event s1) by (rewrite Hs1'; reflexivity).
  assert (Hg1 : get_next_event s1
                = (mk_system (st_nixie s1') (st_button s1') (st_rotary s1')
                     (st_timer s1') (st_player s1') (st_clock s1') q2,
                   Event.Slot (Event.mk_event (Event.BUTTON0_PRESSED + 4 * k)
                                              (2 ^ k)))).
  { unfold get_next_event. rewrite Hread.
    rewrite Hev, get_next_event_after_scan.
    rewrite (EventFacts.scan_one_button_latch k 0 (2 ^ k) _ Hk ltac:(lia)).
    rewrite Hget.
    change Event.BUTTON0_PRESSED with 1.
    replace (1 + 4 * k) with (4 * k + 0 + 1) by lia. reflexivity. }
  set (s2 := mk_system (st_nixie s1') (st_button s1') (st_rotary s1')
               (st_timer s1') (st_player s1') (st_clock s1') q2) in *.
  assert (Hg2 : snd (get_next_event s2)
                = Event.Slot (Event.mk_event Event.NO_EVENT 0)).
  { assert (Hflag1 : Timer.timer_flag (st_timer s1) = 0)
      by (rewrite Ht; exact Hflag).
    unfold get_next_event.
    destruct (read_sources s2) as [src2 s2'] eqn:Hread2.
    assert (Hsrc2 : src2
                    = Event.mk_sources 0 0 0 0
                        (Button.button_debounced (st_button s1)) 0 0 0 0
                    /\ st_event s2' = q2).
    { unfold s2 in Hread2. rewrite Hs1' in Hread2.
      unfold read_sources in Hread2.
      cbn [Button.reset_buttons_pressed Button.reset_buttons_released
           Button.reset_short_buttons Button.reset_long_buttons
           Button.read_button_debounced Button.reset_button_chord
           Rotary.right_rotary_relative Rotary.left_rotary_relative
           fst snd
           Button.button_pressed Button.button_released Button.button_short
           Button.button_long Button.button_debounced Button.button_chord
           Button.set_button_pressed Button.set_button_released
           Button.set_button_short Button.set_button_long
           Button.set_button_chord
           st_nixie st_button st_rotary st_timer st_player st_clock st_event
           Rotary.left_position Rotary.right_position] in Hread2.
      rewrite !(reset_expired_quiet _ Hflag1) in Hread2.
      unfold Timer.timer_status in Hread2. rewrite Hflag1 in Hread2.
      injection Hread2 as <- <-. split; reflexivity. }
    destruct Hsrc2 as (-> & ->).
    rewrite get_next_event_no_latch.
    rewrite (proj1 (EventFacts.get_next_event_pending q2 Hok2) Hp2).
    reflexivity. }
  exists s1, s2, (fst (get_next_event s2)).
  split; [exact Hrun|]. split; [exact Hg1|].
  destruct (get_next_event s2) as [s3 r]. cbn [fst snd] in *. subst r.
  reflexivity.
Qed.

(** Button 6, the input LEFT_BUTTON, held through 31 ticks after
    initialisation. *)
Lemma button_press_reported_once_witness :
  exists s1 s2 s3,
    timer0_ticks 1
      (replicate 31 (Button.mk_button_pins true true true true true true
                                           false true))
      initialised = Some s1 /\
    get_next_event s1
    = (s2, Event.Slot (Event.mk_event (Event.BUTTON0_PRESSED + 4 * 6) (2 ^ 6)))
    /\ get_next_event s2
       = (s3, Event.Slot (Event.mk_event Event.NO_EVENT 0)).
Proof.
  apply (button_press_reported_once 1 6 initialised
           (replicate 31 (Button.mk_button_pins true true true true true true
                                                false true))).
  - unfold quiet.
    split; [reflexivity|]. split; [reflexivity|]. split; [reflexivity|].
    split; [reflexivity|]. split; [reflexivity|]. split; [reflexivity|].
    split.
    + exists (Button.mk_buttons 0 0 0 0 0 0 0 0 0 0 (replicate 8 0)).
      split; [reflexivity|]. split; [reflexivity|]. cbn. lia.
    + split; [|reflexivity].
      unfold Event.queue_ok. vm_compute. repeat split; congruence.
  - lia.
  - apply Forall_replicate. reflexivity.
  - rewrite length_replicate. lia.
Defined.

(** While the player is stopped the tick interrupt returns, and after
    [n] entries, counted from the start of a period of the divider, the
    clock has been advanced n / 625 times and as many ONE_SECOND_ELAPSED
    events have been queued, whatever the buttons do. *)
Theorem clock_advances_every_625_ticks (fuel : nat)
  (readings : list Button.button_pins) (s : system) :
  Player.player_is_stopped (st_player s) = true ->
  Timer.seconds_prescaler (st_timer s) = Timer.TIMER0_FREQUENCY ->
  exists s',
    timer0_ticks fuel readings s = Some s' /\
    st_clock s'
    = Nat.iter
        (Z.to_nat (Z.of_nat (length readings) / Timer.TIMER0_FREQUENCY))
        Clock.time_date_update (st_clock s) /\
    st_event s'
    = Nat.iter
        (Z.to_nat (Z.of_nat (length readings) / Timer.TIMER0_FREQUENCY))
        (Event.add_event Event.ONE_SECOND_ELAPSED 0) (st_event s) /\
    Timer.seconds_prescaler (st_timer s')
    = Timer.TIMER0_FREQUENCY
      - Z.of_nat (length readings) mod Timer.TIMER0_FREQUENCY.
Proof.
  intros Hstop Hsp.
  destruct (timer0_ticks_stopped fuel readings s Hstop Hsp)
    as (s' & Hrun & _ & _ & _ & _ & Ht & Hc & He).
  exists s'. split; [exact Hrun|]. split; [exact Hc|]. split; [exact He|].
  rewrite Ht. reflexivity.
Qed.

(** 625 ticks after initialisation, no button touched. *)
Lemma clock_advances_every_625_ticks_witness :
  exists s',
    timer0_ticks 1
      (replicate 625 (Button.mk_button_pins true true true true true true
                                            true true))
      initialised = Some s' /\
    Clock.time (st_clock s') = Clock.mk_time 12 0 1.
Proof.
  destruct (clock_advances_every_625_ticks 1
              (replicate 625 (Button.mk_button_pins true true true true true
                                                    true true true))
              initialised eq_refl eq_refl) as (s' & Hrun & Hc & _).
  exists s'. split; [exact Hrun|]. rewrite Hc. reflexivity.
Defined.

End SystemFacts.

(** * The display: refresh output and stream output *)

Module NixieFacts.
Import Nixie.

(** Eight rounds of the loop, starting on a byte boundary, send one
    byte. *)
Lemma shift_out_byte (n index : nat) (seg : list Z) (count : Z)
  (sent : list Z) :
  shift_out (8 + n) index seg count 0 1 sent
  = shift_out n (8 + index) seg count 0 1
      (sent ++ [pack_bits (map (fun j => nth (index + j) seg 0 >? count)
                             (seq 0 8))]).
Proof.
  cbn [seq map]. rewrite !Nat.add_0_r.
  replace (index + 1)%nat with (S index) by lia.
  replace (index + 2)%nat with (S (S index)) by lia.
  replace (index + 3)%nat with (S (S (S index))) by lia.
  replace (index + 4)%nat with (S (S (S (S index)))) by lia.
  replace (index + 5)%nat with (S (S (S (S (S index))))) by lia.
  replace (index + 6)%nat with (S (S (S (S (S (S index)))))) by lia.
  replace (index + 7)%nat with (S (S (S (S (S (S (S index))))))) by lia.
  change (8 + n)%nat with (S (S (S (S (S (S (S (S n)))))))).
  change (8 + index)%nat with (S (S (S (S (S (S (S (S index)))))))).
  cbn [shift_out].
  generalize (nth index seg 0 >? count) as b0.
  generalize (nth (S index) seg 0 >? count) as b1.
  generalize (nth (S (S index)) seg 0 >? count) as b2.
  generalize (nth (S (S (S index))) seg 0 >? count) as b3.
  generalize (nth (S (S (S (S index)))) seg 0 >? count) as b4.
  generalize (nth (S (S (S (S (S index))))) seg 0 >? count) as b5.
  generalize (nth (S (S (S (S (S (S index)))))) seg 0 >? count) as b6.
  generalize (nth (S (S (S (S (S (S (S index))))))) seg 0 >? count) as b7.
  intros b7 b6 b5 b4 b3 b2 b1 b0.
  destruct b0, b1, b2, b3, b4, b5, b6, b7; reflexivity.
Qed.

Lemma pack_bits_testbit (b0 b1 b2 b3 b4 b5 b6 b7 : bool) :
  let byte := pack_bits [b0; b1; b2; b3; b4; b5; b6; b7] in
  Z.testbit byte 0 = b0 /\ Z.testbit byte 1 = b1 /\ Z.testbit byte 2 = b2 /\
  Z.testbit byte 3 = b3 /\ Z.testbit byte 4 = b4 /\ Z.testbit byte 5 = b5 /\
  Z.testbit byte 6 = b6 /\ Z.testbit byte 7 = b7.
Proof.
  destruct b0, b1, b2, b3, b4, b5, b6, b7; vm_compute; repeat split.
Qed.

Lemma spi_bytes_eq (d : display) :
  refresh_enable (nixie_control d) = true ->
  spi_bytes d
  = map (fun k =>
           pack_bits (map (fun j => nth (8 * k + j) (active d) 0
                                    >? intensity_count d) (seq 0 8)))
        (seq 0 8).
Proof.
  intros Hen. unfold spi_bytes. rewrite Hen. cbn [negb].
  change (Z.to_nat NIXIE_SEGMENTS)
    with (8 + (8 + (8 + (8 + (8 + (8 + (8 + (8 + 0))))))))%nat.
  rewrite !shift_out_byte. reflexivity.
Qed.

Ltac pick_bit :=
  match goal with
  | |- Z.testbit (pack_bits [?b0; ?b1; ?b2; ?b3; ?b4; ?b5; ?b6; ?b7]) _ = _ =>
      let H0 := fresh in let H1 := fresh in let H2 := fresh in
      let H3 := fresh in let H4 := fresh in let H5 := fresh in
      let H6 := fresh in let H7 := fresh in
      destruct (pack_bits_testbit b0 b1 b2 b3 b4 b5 b6 b7)
        as (H0 & H1 & H2 & H3 & H4 & H5 & H6 & H7);
      first [exact H0 | exact H1 | exact H2 | exact H3 | exact H4 | exact H5
            | exact H6 | exact H7]
  end.

(** The bit sent for a segment says whether its intensity is above the
    sub-cycle counter. *)
Lemma segment_on_spec (d : display) (s : nat) :
  refresh_enable (nixie_control d) = true -> (s < 64)%nat ->
  segment_on d s = (nth s (active d) 0 >? intensity_count d).
Proof.
  intros Hen Hs. unfold segment_on. rewrite (spi_bytes_eq d Hen).
  cbn [seq map Nat.mul Nat.add].
  do 64 (destruct s as [|s];
         [cbn [Nat.div Nat.modulo Nat.divmod fst snd Nat.sub nth Z.of_nat
               Pos.of_succ_nat Pos.succ]; pick_bit|]).
  lia.
Qed.

(** The sub-cycle counter goes round 0..8 while the display is refreshed
    continuously; buffer and mode stay as they are. *)
Lemma refresh_counts (d : display) (k : nat) :
  refresh_enable (nixie_control d) = true ->
  one_cycle_only (nixie_control d) = false ->
  0 <= intensity_count d < MAX_NIXIE_INTENSITY ->
  active (Nat.iter k nixie_display_refresh d) = active d /\
  refresh_enable (nixie_control (Nat.iter k nixie_display_refresh d)) = true /\
  one_cycle_only (nixie_control (Nat.iter k nixie_display_refresh d)) = false /\
  intensity_count (Nat.iter k nixie_display_refresh d)
  = (intensity_count d + Z.of_nat k) mod MAX_NIXIE_INTENSITY.
Proof.
  change MAX_NIXIE_INTENSITY with 9. intros Hen Hone Hic.
  induction k as [|k IH].
  - cbn [Nat.iter nat_rect]. repeat split; try assumption.
    rewrite Z.add_0_r, Z.mod_small by lia. reflexivity.
  - rewrite Nat.iter_succ. destruct IH as (Ha & He & Ho & Hc).
    set (dk := Nat.iter k nixie_display_refresh d) in *.
    unfold nixie_display_refresh. rewrite He. cbn [negb].
    change MAX_NIXIE_INTENSITY with 9.
    assert (Hr : 0 <= intensity_count dk < 9)
      by (rewrite Hc; apply Z.mod_pos_bound; lia).
    assert (Hu : uint8 (intensity_count dk + 1) = intensity_count dk + 1)
      by (unfold uint8; apply Z.mod_small; lia).
    rewrite Hu.
    destruct (Z.geb_spec (intensity_count dk + 1) 9) as [Hge | Hlt].
    + destruct dk as [act [rate cnt done only en] ic].
      cbn [active nixie_control intensity_count refresh_enable one_cycle_only
           set_one_cycle_done set_intensity_count set_refresh_enable] in *.
      subst only en. cbn. repeat split; try assumption.
      rewrite Hc in Hge. Z.div_mod_to_equations. lia.
    + cbn [set_intensity_count active nixie_control intensity_count].
      repeat split; try assumption.
      rewrite Hc in Hlt |- *. Z.div_mod_to_equations. lia.
Qed.

(** The bytes [nixie_display_refresh] sends carry one bit per segment,
    segment [8 k + j] in bit [j] of byte [k], and the bit is set exactly
    when the intensity of the segment is above the sub-cycle counter. *)
Theorem refresh_sends_segment_bits (d : display) (s : nat) :
  refresh_enable (nixie_control d) = true -> (s < 64)%nat ->
  length (spi_bytes d) = 8%nat /\
  Z.testbit (nth (s / 8) (spi_bytes d) 0) (Z.of_nat (s mod 8))
  = (nth s (active d) 0 >? intensity_count d).
Proof.
  intros Hen Hs. split.
  - rewrite (spi_bytes_eq d Hen). reflexivity.
  - exact (segment_on_spec d s Hen Hs).
Qed.

(** Pulse-width modulation: while the display is refreshed continuously,
    in any nine entries of the refresh routine in a row a segment of
    intensity [v] is on in exactly [v] of them (in all nine for 9 and
    above, in none for 0), so the period is nine sub-cycles and the duty
    cycle is v / 9. *)
Theorem refresh_duty_cycle (d : display) (s : nat) :
  refresh_enable (nixie_control d) = true ->
  one_cycle_only (nixie_control d) = false ->
  0 <= intensity_count d < MAX_NIXIE_INTENSITY ->
  (s < 64)%nat ->
  lit_subcycles d s 9
  = Z.to_nat (Z.min (nth s (active d) 0) MAX_NIXIE_INTENSITY).
Proof.
  intros Hen Hone Hic Hs.
  assert (Hk : forall k : nat,
            segment_on (Nat.iter k nixie_display_refresh d) s
            = (nth s (active d) 0
               >? (intensity_count d + Z.of_nat k) mod MAX_NIXIE_INTENSITY)).
  { intros k.
    destruct (refresh_counts d k Hen Hone Hic) as (Ha & He & _ & Hc).
    rewrite (segment_on_spec _ s He Hs), Ha, Hc. reflexivity. }
  unfold lit_subcycles. cbn [seq List.filter].
  rewrite !Hk. change MAX_NIXIE_INTENSITY with 9 in *.
  set (v := nth s (active d) 0).
  rewrite !Z.gtb_ltb.
  assert (Hc : intensity_count d = 0 \/ intensity_count d = 1 \/
               intensity_count d = 2 \/ intensity_count d = 3 \/
               intensity_count d = 4 \/ intensity_count d = 5 \/
               intensity_count d = 6 \/ intensity_count d = 7 \/
               intensity_count d = 8) by lia.
  destruct Hc as [-> | [-> | [-> | [-> | [-> | [-> | [-> | [-> | ->]]]]]]]];
    repeat match goal with
           | |- context [(?a + Z.of_nat ?k) mod 9] =>
               let r := eval vm_compute in ((a + Z.of_nat k) mod 9) in
               change ((a + Z.of_nat k) mod 9) with r
           end;
    destruct (Z.ltb_spec 0 v); destruct (Z.ltb_spec 1 v); try lia;
    destruct (Z.ltb_spec 2 v); try lia;
    destruct (Z.ltb_spec 3 v); try lia;
    destruct (Z.ltb_spec 4 v); try lia;
    destruct (Z.ltb_spec 5 v); try lia;
    destruct (Z.ltb_spec 6 v); try lia;
    destruct (Z.ltb_spec 7 v); try lia;
    destruct (Z.ltb_spec 8 v); try lia;
    cbn [length]; lia.
Qed.

(** Segment 10 of a display at full intensity, in sub-cycle 3: bit 2 of
    the second byte. *)
Lemma refresh_sends_segment_bits_witness :
  Z.testbit (nth 1 (spi_bytes (full_display 0 3)) 0) 2 = true.
Proof.
  exact (proj2 (refresh_sends_segment_bits (full_display 0 3) 10 eq_refl
                  ltac:(lia))).
Defined.

(** A segment of intensity 7, the counter standing at 4. *)
Lemma refresh_duty_cycle_witness :
  lit_subcycles
    (mk_display fade_from (mk_nixie_control 0 0 false false true) 4) 1 9
  = 7%nat.
Proof.
  exact (refresh_duty_cycle
           (mk_display fade_from (mk_nixie_control 0 0 false false true) 4)
           1 eq_refl eq_refl ltac:(unfold MAX_NIXIE_INTENSITY; cbn; lia)
           ltac:(lia)).
Defined.

Lemma nth_insert (l : list Z) (k s : nat) (v : Z) :
  nth s (<[k := v]> l) 0
  = if (s =? k)%nat && (k <? length l)%nat then v else nth s l 0.
Proof.
  destruct (Nat.eqb_spec s k) as [-> | Hne]; cbn [andb].
  - destruct (Nat.ltb_spec k (length l)).
    + apply EventFacts.nth_insert_eq. assumption.
    + rewrite list_insert_ge by assumption. reflexivity.
  - apply EventFacts.nth_insert_ne. congruence.
Qed.

Lemma nth_clear_segments (count : nat) :
  forall (pos : nat) (seg : list Z) (s : nat),
    nth s (clear_segments count pos seg) 0
    = if (pos <=? s)%nat && (s <? pos + count)%nat then 0 else nth s seg 0.
Proof.
  induction count as [|count IH]; intros pos seg s.
  - cbn [clear_segments].
    destruct (Nat.leb_spec pos s), (Nat.ltb_spec s (pos + 0)); try lia;
      reflexivity.
  - cbn [clear_segments]. rewrite IH, nth_insert.
    destruct (Nat.leb_spec (S pos) s), (Nat.ltb_spec s (S pos + count)),
             (Nat.leb_spec pos s), (Nat.ltb_spec s (pos + S count)),
             (Nat.eqb_spec s pos); try lia; cbn [andb]; try reflexivity.
    subst s. destruct (Nat.ltb_spec pos (length seg)); [reflexivity|].
    apply nth_overflow. lia.
Qed.

Lemma plain_char_small (signed_char : bool) (x : Z) :
  0 <= x < 128 -> plain_char signed_char x = x.
Proof.
  intros Hx. unfold plain_char, sint8, uint8.
  destruct signed_char; Z.div_mod_to_equations; lia.
Qed.

Lemma segdata_inc_cursor (p : nixie_stream_t) (m : bool) :
  segdata (inc_cursor p m) = segdata p /\
  intensity (inc_cursor p m) = intensity p /\
  state (inc_cursor p m) = state p.
Proof.
  unfold inc_cursor.
  destruct (m && _); [repeat split|].
  destruct (no_cursor_wrap (control p));
    [destruct (_ >? _) | destruct (_ >=? _)]; repeat split.
Qed.

Ltac nat_cases :=
  repeat match goal with
  | |- context [(?a =? ?b)%nat] => destruct (Nat.eqb_spec a b)
  | |- context [(?a <? ?b)%nat] => destruct (Nat.ltb_spec a b)
  | |- context [(?a <=? ?b)%nat] => destruct (Nat.leb_spec a b)
  | |- context [(?a =? ?b)] => destruct (Z.eqb_spec a b)
  | |- context [(?a <? ?b)] => destruct (Z.ltb_spec a b)
  | |- context [(?a <=? ?b)] => destruct (Z.leb_spec a b)
  end.

(** A digit character written in the normal state, not overlaying. *)
Lemma digit_write (signed_char : bool) (p : nixie_stream_t) (c : Z) :
  state p = NORMAL_OUTPUT ->
  0 <= cursor p < NIXIE_DISPLAY_WIDTH -> 0 <= c <= 9 ->
  overlay (control p) = false -> single_overlay (control p) = false ->
  length (segdata p) = 64%nat ->
  length (segdata (nixie_out signed_char (chr "0" + c) p)) = 64%nat /\
  (forall s,
     0 <= s < 64 ->
     segment_at (segdata (nixie_out signed_char (chr "0" + c) p)) s
     = if in_tube (cursor p) s
       then (if s =? digit_offset (cursor p) + c then intensity p else 0)
       else segment_at (segdata p) s) /\
  cursor (nixie_out signed_char (chr "0" + c) p)
  = (if no_cursor_inc (control p) || single_no_inc (control p)
     then cursor p
     else if no_cursor_wrap (control p) then cursor p + 1
     else (cursor p + 1) mod NIXIE_DISPLAY_WIDTH) /\
  intensity (nixie_out signed_char (chr "0" + c) p) = intensity p /\
  state (nixie_out signed_char (chr "0" + c) p) = NORMAL_OUTPUT /\
  control (nixie_out signed_char (chr "0" + c) p)
  = mk_control (no_cursor_inc (control p)) false false false
      (no_cursor_wrap (control p)).
Proof.
  intros Hst Hcur Hc Hov Hsov Hlen.
  change NIXIE_DISPLAY_WIDTH with 6 in *.
  unfold nixie_out. rewrite Hst. change (chr "0") with 48.
  change (chr "9") with 57.
  rewrite (plain_char_small signed_char (48 + c)) by lia.
  destruct (Z.geb_spec (48 + c) 48); [|lia].
  destruct (Z.leb_spec (48 + c) 57); [|lia]. cbn [andb].
  replace (48 + c - 48) with c by lia.
  rewrite (plain_char_small signed_char c) by lia.
  unfold put_displayable. change NIXIE_DISPLAY_WIDTH with 6.
  destruct (Z.ltb_spec (cursor p) 6); [|lia].
  rewrite Hov, Hsov. change (1 =? 2) with false. change (1 =? 3) with false.
  cbn [orb negb].
  assert (Hu : uint8 c = c) by (unfold uint8; apply Z.mod_small; lia).
  rewrite Hu.
  set (seg1 := set_nixie_segment (clear_nixie_digit (segdata p) (cursor p))
                 (cursor p) c (intensity p)).
  assert (Hlen1 : length seg1 = 64%nat).
  { unfold seg1, set_nixie_segment, clear_nixie_digit.
    rewrite length_insert, NixieSpec.clear_segments_length. exact Hlen. }
  destruct (segdata_inc_cursor (set_segdata seg1 p) true) as (Hs & Hi & Hstate).
  cbn [segdata intensity state control cursor set_single_overlay set_control].
  rewrite Hs, Hi, Hstate. cbn [segdata intensity state set_segdata].
  split; [exact Hlen1|]. split; [|split; [|split; [reflexivity|split;
    [exact Hst|]]]].
  - intros s Hs64. unfold segment_at, seg1, set_nixie_segment,
      clear_nixie_digit, in_tube.
    change NIXIE_DISPLAY_WIDTH with 6.
    change NIXIE_SEGMENTS_PER_DIGIT with 10.
    destruct (Z.ltb_spec (cursor p) 6); [|lia].
    change (Z.to_nat 10) with 10%nat.
    rewrite nth_insert, nth_clear_segments, NixieSpec.clear_segments_length,
      Hlen.
    assert (Hcase : cursor p = 0 \/ cursor p = 1 \/ cursor p = 2 \/
                    cursor p = 3 \/ cursor p = 4 \/ cursor p = 5) by lia.
    destruct Hcase as [-> | [-> | [-> | [-> | [-> | ->]]]]];
      repeat match goal with
             | |- context [digit_offset ?k] =>
                 let r := eval vm_compute in (digit_offset k) in
                 change (digit_offset k) with r
             end;
      nat_cases; cbn [andb]; try lia; reflexivity.
  - unfold inc_cursor.
    cbn [control cursor set_segdata set_single_no_inc set_control set_cursor
         andb].
    destruct (no_cursor_inc (control p) || single_no_inc (control p));
      [reflexivity|].
    assert (Hu1 : uint8 (cursor p + 1) = cursor p + 1)
      by (unfold uint8; apply Z.mod_small; lia).
    rewrite Hu1. change NIXIE_DISPLAY_WIDTH with 6.
    destruct (no_cursor_wrap (control p)).
    + destruct (Z.gtb_spec (cursor p + 1) 6); [lia | reflexivity].
    + destruct (Z.geb_spec (cursor p + 1) 6);
        cbn [cursor set_cursor set_segdata]; Z.div_mod_to_equations; lia.
  - clear Hs Hi Hstate Hlen1. clearbody seg1.
    destruct p as [seg cur int st [nci sni ov sov ncw]].
    cbn [control overlay single_overlay] in Hov, Hsov. subst ov sov.
    unfold inc_cursor.
    cbn [control cursor set_segdata set_single_no_inc set_control set_cursor
         no_cursor_inc single_no_inc overlay single_overlay no_cursor_wrap
         segdata intensity state andb].
    destruct nci, sni, ncw; cbn [orb];
      repeat match goal with
             | |- context [if ?b then _ else _] => destruct b
             end; reflexivity.
Qed.

(** A digit character written in the normal state without overlay lights
    one cathode of the tube under the cursor: that cathode gets the
    current intensity, the other nine of the tube are turned off, and no
    other tube, lamp or output changes.  The cursor then moves on, to 0
    after tube 5, unless auto-increment is off. *)
Theorem digit_lights_one_cathode (signed_char : bool) (p : nixie_stream_t)
  (c : Z) :
  state p = NORMAL_OUTPUT ->
  0 <= cursor p < NIXIE_DISPLAY_WIDTH -> 0 <= c <= 9 ->
  overlay (control p) = false -> single_overlay (control p) = false ->
  length (segdata p) = 64%nat ->
  length (segdata (nixie_out signed_char (chr "0" + c) p)) = 64%nat /\
  (forall s,
     0 <= s < 64 ->
     segment_at (segdata (nixie_out signed_char (chr "0" + c) p)) s
     = if in_tube (cursor p) s
       then (if s =? digit_offset (cursor p) + c then intensity p else 0)
       else segment_at (segdata p) s) /\
  cursor (nixie_out signed_char (chr "0" + c) p)
  = (if no_cursor_inc (control p) || single_no_inc (control p)
     then cursor p
     else if no_cursor_wrap (control p) then cursor p + 1
     else (cursor p + 1) mod NIXIE_DISPLAY_WIDTH) /\
  intensity (nixie_out signed_char (chr "0" + c) p) = intensity p /\
  state (nixie_out signed_char (chr "0" + c) p) = NORMAL_OUTPUT.
Proof.
  intros Hst Hcur Hc Hov Hsov Hlen.
  destruct (digit_write signed_char p c Hst Hcur Hc Hov Hsov Hlen)
    as (H1 & H2 & H3 & H4 & H5 & _).
  repeat split; assumption.
Qed.

(** The digit 7 written to tube 3 of a cleared display. *)
Lemma digit_lights_one_cathode_witness :
  segment_at
    (segdata
       (nixie_out true (chr "0" + 7)
          (mk_stream (replicate 64 0) 3 9 NORMAL_OUTPUT control_clear)))
    39 = 9.
Proof.
  exact (proj1 (proj2 (digit_lights_one_cathode true
                         (mk_stream (replicate 64 0) 3 9 NORMAL_OUTPUT
                                    control_clear)
                         7 eq_refl ltac:(unfold NIXIE_DISPLAY_WIDTH; cbn; lia)
                         ltac:(lia) eq_refl eq_refl
                         eq_refl))
           39 ltac:(lia)).
Defined.

Ltac offsets :=
  change (digit_offset 0) with 0 in *; change (digit_offset 1) with 10 in *;
  change (digit_offset 2) with 21 in *; change (digit_offset 3) with 32 in *;
  change (digit_offset 4) with 43 in *; change (digit_offset 5) with 53 in *;
  change (digit_offset 6) with 20 in *; change (digit_offset 7) with 42 in *;
  change (digit_offset 8) with 31 in *; change (digit_offset 9) with 63 in *.

(** Six digits written from the left with the default settings show on
    the six tubes: in tube [i] the cathode of the i-th digit is lit with
    the current intensity and the other nine are off; the lamps and the
    auxiliary outputs are not touched and the cursor is back at the
    left. *)
Theorem six_digits_shown (signed_char : bool) (p : nixie_stream_t)
  (d0 d1 d2 d3 d4 d5 : Z) :
  state p = NORMAL_OUTPUT -> cursor p = 0 -> control p = control_clear ->
  length (segdata p) = 64%nat ->
  Forall (fun d => 0 <= d <= 9) [d0; d1; d2; d3; d4; d5] ->
  let p' :=
    nixie_write signed_char
      (map (fun d => chr "0" + d) [d0; d1; d2; d3; d4; d5]) p in
  cursor p' = 0 /\ control p' = control_clear /\
  state p' = NORMAL_OUTPUT /\ intensity p' = intensity p /\
  (forall i c,
     0 <= i < 6 -> 0 <= c <= 9 ->
     segment_at (segdata p') (digit_offset i + c)
     = if c =? nth (Z.to_nat i) [d0; d1; d2; d3; d4; d5] 0
       then intensity p else 0) /\
  (forall lamp,
     6 <= lamp <= 9 ->
     segment_at (segdata p') (digit_offset lamp)
     = segment_at (segdata p) (digit_offset lamp)).
Proof.
  intros Hst Hcur Hctl Hlen Hds. cbv zeta.
  assert (H0 : 0 <= d0 <= 9) by (exact (Forall_inv Hds)).
  apply Forall_inv_tail in Hds.
  assert (H1 : 0 <= d1 <= 9) by (exact (Forall_inv Hds)).
  apply Forall_inv_tail in Hds.
  assert (H2 : 0 <= d2 <= 9) by (exact (Forall_inv Hds)).
  apply Forall_inv_tail in Hds.
  assert (H3 : 0 <= d3 <= 9) by (exact (Forall_inv Hds)).
  apply Forall_inv_tail in Hds.
  assert (H4 : 0 <= d4 <= 9) by (exact (Forall_inv Hds)).
  apply Forall_inv_tail in Hds.
  assert (H5 : 0 <= d5 <= 9) by (exact (Forall_inv Hds)).
  clear Hds.
  unfold nixie_write. cbn [map fold_left].
  set (p1 := nixie_out signed_char (chr "0" + d0) p).
  set (p2 := nixie_out signed_char (chr "0" + d1) p1).
  set (p3 := nixie_out signed_char (chr "0" + d2) p2).
  set (p4 := nixie_out signed_char (chr "0" + d3) p3).
  set (p5 := nixie_out signed_char (chr "0" + d4) p4).
  set (p6 := nixie_out signed_char (chr "0" + d5) p5).
  assert (Hstep : forall q d k,
            state q = NORMAL_OUTPUT -> cursor q = k -> 0 <= k < 6 ->
            control q = control_clear -> length (segdata q) = 64%nat ->
            0 <= d <= 9 ->
            let q' := nixie_out signed_char (chr "0" + d) q in
            state q' = NORMAL_OUTPUT /\ cursor q' = (k + 1) mod 6 /\
            control q' = control_clear /\ length (segdata q') = 64%nat /\
            intensity q' = intensity q /\
            forall s, 0 <= s < 64 ->
              segment_at (segdata q') s
              = if in_tube k s
                then (if s =? digit_offset k + d then intensity q else 0)
                else segment_at (segdata q) s).
  { intros q d k Hq1 Hq2 Hk Hq3 Hq4 Hd. cbv zeta.
    destruct (digit_write signed_char q d Hq1 ltac:(rewrite Hq2; exact Hk) Hd
                ltac:(rewrite Hq3; reflexivity)
                ltac:(rewrite Hq3; reflexivity) Hq4)
      as (A1 & A2 & A3 & A4 & A5 & A6).
    rewrite Hq3 in A3, A6. rewrite Hq2 in A2, A3.
    cbn [control_clear no_cursor_inc single_no_inc no_cursor_wrap orb] in A3.
    repeat split; assumption. }
  destruct (Hstep p d0 0 Hst Hcur ltac:(lia) Hctl Hlen H0)
    as (S1 & C1 & K1 & L1 & I1 & N1).
  destruct (Hstep p1 d1 1 S1 C1 ltac:(lia) K1 L1 H1)
    as (S2 & C2 & K2 & L2 & I2 & N2).
  destruct (Hstep p2 d2 2 S2 C2 ltac:(lia) K2 L2 H2)
    as (S3 & C3 & K3 & L3 & I3 & N3).
  destruct (Hstep p3 d3 3 S3 C3 ltac:(lia) K3 L3 H3)
    as (S4 & C4 & K4 & L4 & I4 & N4).
  destruct (Hstep p4 d4 4 S4 C4 ltac:(lia) K4 L4 H4)
    as (S5 & C5 & K5 & L5 & I5 & N5).
  destruct (Hstep p5 d5 5 S5 C5 ltac:(lia) K5 L5 H5)
    as (S6 & C6 & K6 & L6 & I6 & N6).
  fold p1 in N1. fold p2 in N2. fold p3 in N3. fold p4 in N4. fold p5 in N5.
  fold p6 in N6, S6, C6, K6, L6, I6.
  assert (Hint : intensity p5 = intensity p /\ intensity p4 = intensity p /\
                 intensity p3 = intensity p /\ intensity p2 = intensity p /\
                 intensity p1 = intensity p).
  { unfold p5, p4, p3, p2, p1 in *. repeat split; congruence. }
  destruct Hint as (J5 & J4 & J3 & J2 & J1).
  assert (Hall : forall s, 0 <= s < 64 ->
            segment_at (segdata p6) s
            = if in_tube 5 s
              then (if s =? digit_offset 5 + d5 then intensity p else 0)
              else if in_tube 4 s
              then (if s =? digit_offset 4 + d4 then intensity p else 0)
              else if in_tube 3 s
              then (if s =? digit_offset 3 + d3 then intensity p else 0)
              else if in_tube 2 s
              then (if s =? digit_offset 2 + d2 then intensity p else 0)
              else if in_tube 1 s
              then (if s =? digit_offset 1 + d1 then intensity p else 0)
              else if in_tube 0 s
              then (if s =? digit_offset 0 + d0 then intensity p else 0)
              else segment_at (segdata p) s).
  { intros s Hs.
    rewrite (N6 s Hs), (N5 s Hs), (N4 s Hs), (N3 s Hs), (N2 s Hs), (N1 s Hs).
    rewrite J5, J4, J3, J2, J1. reflexivity. }
  split; [exact C6|]. split; [exact K6|]. split; [exact S6|].
  split; [unfold p6, p5, p4, p3, p2, p1 in *; congruence|].
  clear Hstep N1 N2 N3 N4 N5 N6. unfold in_tube in Hall.
  change NIXIE_SEGMENTS_PER_DIGIT with 10 in Hall. offsets.
  split.
  - intros i c Hi Hc.
    assert (Hic : i = 0 \/ i = 1 \/ i = 2 \/ i = 3 \/ i = 4 \/ i = 5) by lia.
    destruct Hic as [-> | [-> | [-> | [-> | [-> | ->]]]]]; offsets;
      rewrite Hall by lia;
      match goal with
      | |- context [nth ?k ?l 0] =>
          let r := eval vm_compute in k in change k with r
      end;
      cbn [nth];
      repeat (match goal with
              | |- context [(?a =? ?b)] => destruct (Z.eqb_spec a b)
              | |- context [(?a <? ?b)] => destruct (Z.ltb_spec a b)
              | |- context [(?a <=? ?b)] => destruct (Z.leb_spec a b)
              end; try (exfalso; lia); cbn [andb]);
      reflexivity.
  - intros lamp Hl.
    assert (Hlc : lamp = 6 \/ lamp = 7 \/ lamp = 8 \/ lamp = 9) by lia.
    destruct Hlc as [-> | [-> | [-> | ->]]]; offsets;
      rewrite Hall by lia; reflexivity.
Qed.

(** The time 12:34:56 written to a fresh stream: cathode 3 of tube 2. *)
Lemma six_digits_shown_witness :
  segment_at
    (segdata
       (nixie_write true (map (fun d => chr "0" + d) [1; 2; 3; 4; 5; 6])
          (nixie_stream_init (replicate 64 0))))
    24 = 9.
Proof.
  assert (Hds : Forall (fun d => 0 <= d <= 9) [1; 2; 3; 4; 5; 6])
    by (repeat constructor; lia).
  exact (proj1 (proj2 (proj2 (proj2 (proj2
           (six_digits_shown true (nixie_stream_init (replicate 64 0))
              1 2 3 4 5 6 eq_refl eq_refl eq_refl eq_refl Hds)))))
           2 3 ltac:(lia) ltac:(lia)).
Defined.

(** Cursor right then cursor left leaves a stream whose cursor is on a
    tube exactly as it was, with or without wrap-around; cursor left then
    right does so only with wrap-around on: with it off, the cursor at the
    left edge stays there on the way left and ends on tube 1. *)
Theorem cursor_right_left_round_trip (signed_char : bool)
  (p : nixie_stream_t) :
  state p = NORMAL_OUTPUT -> 0 <= cursor p < NIXIE_DISPLAY_WIDTH ->
  nixie_write signed_char [9; 8] p = p /\
  (no_cursor_wrap (control p) = false ->
   nixie_write signed_char [8; 9] p = p) /\
  (no_cursor_wrap (control p) = true -> cursor p = 0 ->
   cursor (nixie_write signed_char [8; 9] p) = 1).
Proof.
  intros Hst Hcur. change NIXIE_DISPLAY_WIDTH with 6 in Hcur.
  destruct p as [seg cur int st [nci sni ov sov ncw]].
  cbn [state cursor control no_cursor_wrap] in *. subst st.
  assert (Hc : cur = 0 \/ cur = 1 \/ cur = 2 \/ cur = 3 \/ cur = 4 \/ cur = 5)
    by lia.
  split; [|split].
  - destruct Hc as [-> | [-> | [-> | [-> | [-> | ->]]]]];
      destruct signed_char, ncw; reflexivity.
  - intros ->.
    destruct Hc as [-> | [-> | [-> | [-> | [-> | ->]]]]];
      destruct signed_char; reflexivity.
  - intros -> ->. destruct signed_char; reflexivity.
Qed.

(** The cursor on the last tube, wrap-around on. *)
Lemma cursor_right_left_round_trip_witness :
  nixie_write true [9; 8]
    (mk_stream (replicate 64 0) 5 9 NORMAL_OUTPUT control_clear)
  = mk_stream (replicate 64 0) 5 9 NORMAL_OUTPUT control_clear.
Proof.
  exact (proj1 (cursor_right_left_round_trip true
                  (mk_stream (replicate 64 0) 5 9 NORMAL_OUTPUT control_clear)
                  eq_refl ltac:(unfold NIXIE_DISPLAY_WIDTH; cbn; lia))).
Defined.

(** [nixie_crossfade] waits for the refresh routine to report a finished
    PWM cycle; called while display refresh is disabled it never
    returns. *)
Theorem nixie_crossfade_hangs_without_refresh (to : list Z) (d : display) :
  refresh_enable (nixie_control d) = false ->
  forall fuel : nat, nixie_crossfade fuel to d = None.
Proof.
  intros Hen fuel. apply NixieSpec.nixie_crossfade_refresh_disabled.
  exact Hen.
Qed.

(** A display switched off with [nixie_display_enable(0)]. *)
Lemma nixie_crossfade_hangs_without_refresh_witness :
  nixie_crossfade 1000 (replicate 64 0)
    (nixie_display_enable 0 (full_display 0 0)) = None.
Proof.
  exact (nixie_crossfade_hangs_without_refresh (replicate 64 0)
           (nixie_display_enable 0 (full_display 0 0)) eq_refl 1000%nat).
Defined.

End NixieFacts.

(** * The music player: rests, bookmarks and jumps *)

Module PlayerFacts.
Import Player.

(** A rest in the play string is not played as silence.  [R] (or [,])
    stores the note number 0xFF in an [int8_t], where it is -1, and the
    START NOTE state compares that variable with 0xFF: the comparison
    never holds, for no value the variable can have, so the state always
    programs the tone generator and goes on to WAIT NOTE.  With a natural
    accidental and no transposition the rest sounds as the B below the
    current octave. *)
Theorem rest_is_played_as_a_tone (p q : player) :
  is_rest (fst (next_player_char p)) = true ->
  -128 <= note q <= 127 ->
  (note (state_get_note p) = -1 /\
   state (state_get_note p) = STATE_GET_MODIFIER /\
   next_state (state_get_note p) = STATE_START_NOTE) /\
  state (state_start_note q) = STATE_WAIT_NOTE /\
  (note q = -1 -> accidental q = ACCIDENTAL_NATURAL -> transposition q = 0 ->
   0 <= octave q < OCTAVES ->
   let n := note_at (Z.max 0 (octave q - 1)) 11 in
   tones (state_start_note q)
   = tones q ++ [BeepPeriod (period n) (prescale n)] /\
   prescale n <> PRESCALE_STOP).
Proof.
  intros Hrest Hnote. split; [|split].
  - unfold state_get_note.
    destruct (next_player_char p) as [c0 p1]. cbn [fst] in Hrest.
    unfold is_rest in Hrest.
    assert (Hc : c0 = chr "R" \/ c0 = chr ",") by lia.
    destruct Hc as [-> | ->]; repeat split.
  - unfold state_start_note.
    cbn [note set_rest_period].
    destruct (Z.eqb_spec (note q) NOTE_IS_REST) as [He | _];
      [unfold NOTE_IS_REST in He; lia|].
    destruct (if _ <? 0 then _ else _) as [d2 c2]. reflexivity.
  - intros Hn Ha Ht Ho. cbv zeta. unfold state_start_note.
    cbn [note accidental transposition octave size_modifier note_rest_ratio
         set_rest_period set_note_period].
    rewrite Hn, Ha, Ht. change (-1 =? NOTE_IS_REST) with false. cbv iota.
    change (sint8 (-1 + ACCIDENTAL_NATURAL + 0)) with (-1).
    change (-1 <? 0) with true. cbv iota.
    change (sint8 (-1 + NOTES_PER_OCTAVE)) with 11.
    unfold OCTAVES in *.
    assert (Hoc : octave q = 0 \/ octave q = 1 \/ octave q = 2 \/
                  octave q = 3 \/ octave q = 4 \/ octave q = 5 \/
                  octave q = 6 \/ octave q = 7 \/ octave q = 8 \/
                  octave q = 9) by lia.
    destruct Hoc as [-> | [-> | [-> | [-> | [-> | [-> | [-> | [-> | [-> | ->
      ]]]]]]]]]; (split; [reflexivity | vm_compute; congruence]).
Qed.

(** A play string that is a single rest, and the state a rest leaves for
    the START NOTE state in the default octave. *)
Lemma rest_is_played_as_a_tone_witness :
  state
    (state_start_note
       (power_up <| set_note := -1 |> <| set_octave := 4 |>
                 <| set_whole_note_period := 1250 |> <| set_note_size := 4 |>))
  = STATE_WAIT_NOTE.
Proof.
  exact (proj1 (proj2
           (rest_is_played_as_a_tone
              (power_up <| set_score := [chr "R"] |>)
              (power_up <| set_note := -1 |> <| set_octave := 4 |>
                        <| set_whole_note_period := 1250 |>
                        <| set_note_size := 4 |>)
              eq_refl ltac:(cbn; lia)))).
Defined.

Lemma next_player_char_eq (p : player) :
  next_player_char p
  = (fst (next_player_char p), p <| set_player_ptr := player_ptr p + 1 |>).
Proof. reflexivity. Qed.

(** With the pointer inside the play string or at its terminator, a
    character other than the terminator comes from inside the string. *)
Lemma next_player_char_inside (p : player) :
  0 <= player_ptr p <= Z.of_nat (length (score p)) ->
  fst (next_player_char p) <> 0 ->
  player_ptr p < Z.of_nat (length (score p)).
Proof.
  intros [H0 Hle] Hc.
  destruct (Z.eq_dec (player_ptr p) (Z.of_nat (length (score p))))
    as [E | E]; [| lia].
  exfalso. apply Hc. unfold next_player_char, read_byte. cbn [fst].
  rewrite E, Z.ltb_irrefl, andb_false_r, Z.eqb_refl.
  destruct (player_mem_space p); reflexivity.
Qed.

(** Folding to upper case makes no letter a ['[']. *)
Lemma fold_not_bookmark (d : Z) :
  97 <= d <= 122 -> Z.land d 223 <> 91.
Proof.
  intros Hd.
  assert (H : forallb (fun k => negb (Z.land (Z.of_nat k) 223 =? 91))
                (seq 97 26) = true) by (vm_compute; reflexivity).
  rewrite forallb_forall in H.
  specialize (H (Z.to_nat d) ltac:(apply in_seq; lia)).
  rewrite Z2Nat.id in H by lia.
  destruct (Z.eqb_spec (Z.land d 223) 91); [discriminate | assumption].
Qed.

(** A bookmark lead-in that is fetched with the pointer inside the play
    string or at its terminator is a ['['] of the string. *)
Lemma next_player_char_bookmark (p : player) :
  0 <= player_ptr p <= Z.of_nat (length (score p)) ->
  is_bookmark (fst (next_player_char p)) = true ->
  player_ptr p < Z.of_nat (length (score p)) /\
  score p !! Z.to_nat (player_ptr p) = Some (chr "[").
Proof.
  intros Hin Hbm.
  assert (Hc : fst (next_player_char p) = 91)
    by (unfold is_bookmark in Hbm; apply Z.eqb_eq in Hbm; exact Hbm).
  assert (Hlt : player_ptr p < Z.of_nat (length (score p)))
    by (apply next_player_char_inside; [exact Hin | rewrite Hc; discriminate]).
  split; [exact Hlt |].
  unfold next_player_char, read_byte in Hc. cbn [fst] in Hc.
  destruct (Z.leb_spec 0 (player_ptr p)); [| lia].
  destruct (Z.ltb_spec (player_ptr p) (Z.of_nat (length (score p)))); [| lia].
  cbn [andb] in Hc.
  destruct (lookup_lt_is_Some_2 (score p) (Z.to_nat (player_ptr p))
              ltac:(lia)) as [x Hx].
  rewrite Hx. f_equal.
  rewrite (nth_lookup_Some _ _ 0 _ Hx) in Hc.
  change (chr "a") with 97 in Hc. change (chr "z") with 122 in Hc.
  change (chr "[") with 91.
  assert (Hfold : (if (x >=? 97) && (x <=? 122) then Z.land x 223 else x)
                  = 91)
    by (destruct (player_mem_space p); first [exact Hc | discriminate Hc]).
  destruct (Z.geb_spec x 97); destruct (Z.leb_spec x 122);
    cbn [andb] in Hfold; try exact Hfold.
  exfalso. exact (fold_not_bookmark x ltac:(lia) Hfold).
Qed.

Lemma is_digit_nonzero (c : Z) : is_digit c = true -> c <> 0.
Proof.
  unfold is_digit. change (chr "0") with 48. change (chr "9") with 57.
  intros H. apply andb_prop in H. destruct H as [H _]. lia.
Qed.

(** The digit loop of [find_bookmark], entered with the character [c]
    that was fetched last: it returns when it has a unit of fuel for
    every character left in the play string, moves the pointer forward
    only, and fetches nothing behind the terminator. *)
Lemma find_bookmark_digits_returns (fuel : nat) :
  forall (c rep : Z) (p : player),
    0 <= player_ptr p ->
    (c <> 0 -> player_ptr p <= Z.of_nat (length (score p))) ->
    (is_digit c = true -> chars_left p + 1 <= Z.of_nat fuel) ->
    exists c' rep' p',
      find_bookmark_digits fuel c rep p = Some (c', rep', p') /\
      score p' = score p /\ bookmark p' = bookmark p /\
      player_ptr p <= player_ptr p' /\
      (c' <> 0 -> player_ptr p' <= Z.of_nat (length (score p))).
Proof.
  induction fuel as [|fuel IH]; intros c rep p H0 Hin Hfuel.
  - cbn [find_bookmark_digits]. destruct (is_digit c) eqn:Hd.
    + specialize (Hfuel eq_refl). unfold chars_left in Hfuel. lia.
    + exists c, rep, p. repeat split; first [lia | exact Hin].
  - cbn [find_bookmark_digits]. destruct (is_digit c) eqn:Hd.
    + specialize (Hfuel eq_refl).
      specialize (Hin (is_digit_nonzero c Hd)).
      rewrite next_player_char_eq.
      set (p1 := p <| set_player_ptr := player_ptr p + 1 |>).
      destruct (IH (fst (next_player_char p))
                  (uint16 (rep * 10 + uint8 (c - chr "0"))) p1)
        as (c' & rep' & p' & Hrun & Hs & Hb & Hp & Hin').
      { cbn [p1 player_ptr set_player_ptr]. lia. }
      { intros Hc2. apply next_player_char_inside in Hc2; [| lia].
        cbn [p1 score player_ptr set_player_ptr]. lia. }
      { intros Hd2. apply is_digit_nonzero in Hd2.
        apply next_player_char_inside in Hd2; [| lia].
        unfold chars_left in *. cbn [p1 score player_ptr set_player_ptr].
        lia. }
      exists c', rep', p'. split; [exact Hrun|].
      split; [exact Hs|]. split; [exact Hb|].
      cbn [p1 player_ptr set_player_ptr score] in Hp, Hin'.
      split; [lia | exact Hin'].
    + exists c, rep, p. repeat split; first [lia | exact Hin].
Qed.

Lemma bookmark_at_other (p : player) (b : bookmark_t) (m : Z) :
  m <> 0 -> bookmark_at (set_bookmark_at 0 b p) m = bookmark_at p m.
Proof.
  intros Hm. unfold bookmark_at, set_bookmark_at.
  cbn [Z.ltb Z.compare bookmark set_bookmark Z.to_nat].
  destruct (Z.ltb_spec m 0); [reflexivity|].
  rewrite list_lookup_insert_ne by lia. reflexivity.
Qed.

Lemma is_bookmark_char (c : Z) :
  is_bookmark c = true -> c <> 0 /\ is_digit c = false.
Proof.
  unfold is_bookmark. intros H. apply Z.eqb_eq in H. subst c.
  split; [discriminate | reflexivity].
Qed.

(** The scanning loop of [find_bookmark] on a play string that does not
    end in ['[']: started inside the string, it returns when it has a unit
    of fuel for every character left, and whatever the string holds it
    writes to no bookmark but number 0 and finds no other. *)
Lemma find_bookmark_loop_returns (fuel : nat) :
  forall (search_mark found : Z) (p : player),
    0 <= player_ptr p <= Z.of_nat (length (score p)) ->
    last (score p) <> Some (chr "[") ->
    chars_left p + 1 <= Z.of_nat fuel ->
    exists found' p',
      find_bookmark_loop fuel search_mark found p = Some (found', p') /\
      score p' = score p /\
      (forall m, m <> 0 -> bookmark_at p' m = bookmark_at p m) /\
      (search_mark <> 0 -> found = 0 -> found' = 0).
Proof.
  induction fuel as [|fuel IH]; intros sm found p Hin Hlast Hfuel.
  - unfold chars_left in Hfuel. lia.
  - cbn [find_bookmark_loop]. rewrite (next_player_char_eq p).
    set (c := fst (next_player_char p)).
    set (p1 := p <| set_player_ptr := player_ptr p + 1 |>).
    assert (Hleft : chars_left p
                    = Z.of_nat (length (score p)) - player_ptr p)
      by (unfold chars_left; lia).
    assert (Hnz : c <> 0 -> player_ptr p < Z.of_nat (length (score p)))
      by (intros Hc; apply next_player_char_inside; assumption).
    assert (Hagain : forall (cx fx : Z) (q : player),
              (cx <> 0 ->
               player_ptr p < player_ptr q <= Z.of_nat (length (score p))) ->
              score q = score p ->
              (forall m, m <> 0 -> bookmark_at q m = bookmark_at p m) ->
              (sm <> 0 -> found = 0 -> fx = 0) ->
              exists found' p',
                (if nonzero cx && negb (nonzero fx)
                 then find_bookmark_loop fuel sm fx q
                 else Some (fx, q)) = Some (found', p') /\
                score p' = score p /\
                (forall m, m <> 0 -> bookmark_at p' m = bookmark_at p m) /\
                (sm <> 0 -> found = 0 -> found' = 0)).
    { intros cx fx q Hq Hs Hb Hf.
      destruct (nonzero cx && negb (nonzero fx)) eqn:Hcond.
      - apply andb_prop in Hcond. destruct Hcond as [Hcx Hfx].
        unfold nonzero in Hcx, Hfx.
        destruct (Z.eqb_spec cx 0); [discriminate|].
        destruct (Z.eqb_spec fx 0); [|discriminate].
        specialize (Hq ltac:(assumption)).
        destruct (IH sm fx q)
          as (f' & p' & Hrun & Hs' & Hb' & Hf').
        { rewrite Hs. lia. }
        { rewrite Hs. exact Hlast. }
        { unfold chars_left. rewrite Hs. lia. }
        exists f', p'. split; [exact Hrun|]. split; [congruence|].
        split; [intros m Hm; rewrite (Hb' m Hm); apply Hb; exact Hm|].
        intros Hsm _. apply Hf'; assumption.
      - exists fx, q. repeat split; assumption. }
    destruct (is_bookmark c) eqn:Hbm.
    + destruct (is_bookmark_char c Hbm) as (Hc0 & Hnd).
      destruct (next_player_char_bookmark p Hin Hbm) as (Hlt & Hat).
      assert (Hlt2 : player_ptr p + 1 < Z.of_nat (length (score p))).
      { destruct (Z.eq_dec (player_ptr p + 1) (Z.of_nat (length (score p))))
          as [E | E]; [| lia].
        exfalso. apply Hlast. rewrite last_lookup, <- Hat. f_equal. lia. }
      rewrite (next_player_char_eq p1).
      set (mark := fst (next_player_char p1)).
      set (p2 := p1 <| set_player_ptr := player_ptr p1 + 1 |>).
      destruct (is_separator mark) eqn:Hsep.
      * rewrite (next_player_char_eq p2).
        set (c1 := fst (next_player_char p2)).
        set (p3 := p2 <| set_player_ptr := player_ptr p2 + 1 |>).
        assert (Hc1 : c1 <> 0 ->
                      player_ptr p + 2 < Z.of_nat (length (score p))).
        { intros Hc. apply next_player_char_inside in Hc;
            cbn [score player_ptr set_player_ptr p2 p1] in *; lia. }
        assert (Hp4 : exists c2 p4,
                  (if is_separator c1 then next_player_char p3 else (c1, p3))
                  = (c2, p4) /\ score p4 = score p /\
                  bookmark p4 = bookmark p /\
                  player_ptr p + 3 <= player_ptr p4 /\
                  (c2 <> 0 -> player_ptr p4 <= Z.of_nat (length (score p)))).
        { destruct (is_separator c1) eqn:Hsep1.
          - assert (Hc1nz : c1 <> 0).
            { intros E. rewrite E in Hsep1. discriminate Hsep1. }
            specialize (Hc1 Hc1nz).
            rewrite (next_player_char_eq p3).
            eexists _, _. split; [reflexivity|].
            cbn [score bookmark player_ptr set_player_ptr p3 p2 p1].
            repeat split; try lia.
            intros Hc2. apply next_player_char_inside in Hc2;
              cbn [score player_ptr set_player_ptr p3 p2 p1] in *; lia.
          - exists c1, p3. split; [reflexivity|].
            cbn [score bookmark player_ptr set_player_ptr p3 p2 p1].
            repeat split; lia. }
        destruct Hp4 as (c2 & p4 & -> & Hs4 & Hb4 & Hptr4 & Hin4).
        destruct (find_bookmark_digits_returns fuel c2 0 p4)
          as (c3 & rep & p5 & Hrun5 & Hs5 & Hb5 & Hptr5 & Hin5).
        { lia. }
        { rewrite Hs4. exact Hin4. }
        { intros Hd. apply is_digit_nonzero in Hd. specialize (Hin4 Hd).
          unfold chars_left. rewrite Hs4. lia. }
        rewrite Hrun5. rewrite Hs4 in Hin5.
        apply Hagain.
        -- intros Hc3. specialize (Hin5 Hc3).
           match goal with
           | |- context [player_ptr ?q] =>
               assert (Hpc : player_ptr q = player_ptr p5 - 1)
                 by (destruct (nonzero _ || _); reflexivity)
           end.
           rewrite Hpc. lia.
        -- destruct (nonzero _ || _); cbn; congruence.
        -- intros m Hm.
           destruct (nonzero _ || _).
           ++ rewrite bookmark_at_other by exact Hm.
              unfold bookmark_at. cbn [bookmark set_player_ptr].
              rewrite Hb5, Hb4. reflexivity.
           ++ unfold bookmark_at. cbn [bookmark set_player_ptr].
              rewrite Hb5, Hb4. reflexivity.
        -- intros Hsm _. destruct (Z.eqb_spec 0 sm); [congruence | reflexivity].
      * rewrite Hnd. apply Hagain.
        -- intros _. cbn [p2 p1 score player_ptr set_player_ptr]. lia.
        -- reflexivity.
        -- intros m Hm. reflexivity.
        -- intros _ Hf. exact Hf.
    + apply Hagain.
      * intros Hc. specialize (Hnz Hc).
        cbn [p1 score player_ptr set_player_ptr]. lia.
      * reflexivity.
      * intros m Hm. reflexivity.
      * intros _ Hf. exact Hf.
Qed.

(** On a play string that ends in ['['] the terminator does not stop the
    scan: the loop takes it for the bookmark number, finds it invalid and
    goes on with the byte behind the terminator. *)
Lemma find_bookmark_loop_runs_on (f : nat) (search_mark : Z) (q : player) :
  player_mem_space q <> PLAYER_MEM_UNKNOWN ->
  last (score q) = Some (chr "[") ->
  player_ptr q = Z.of_nat (length (score q)) - 1 ->
  find_bookmark_loop (S f) search_mark 0 q
  = find_bookmark_loop f search_mark 0
      (q <| set_player_ptr := Z.of_nat (length (score q)) + 1 |>).
Proof.
  intros Hmem Hlast Hptr.
  assert (Hlen : (0 < length (score q))%nat)
    by (destruct (score q); [discriminate Hlast | cbn; lia]).
  rewrite last_lookup in Hlast.
  assert (Hc : fst (next_player_char q) = chr "[").
  { unfold next_player_char, read_byte. cbn [fst]. rewrite Hptr.
    destruct (Z.leb_spec 0 (Z.of_nat (length (score q)) - 1)); [| lia].
    destruct (Z.ltb_spec (Z.of_nat (length (score q)) - 1)
                (Z.of_nat (length (score q)))); [| lia].
    cbn [andb].
    replace (Z.to_nat (Z.of_nat (length (score q)) - 1))
      with (pred (length (score q))) by lia.
    rewrite (nth_lookup_Some _ _ 0 _ Hlast).
    destruct (player_mem_space q); first [reflexivity | congruence]. }
  assert (Hm : fst (next_player_char
                      (q <| set_player_ptr := player_ptr q + 1 |>)) = 0).
  { unfold next_player_char, read_byte.
    cbn [fst score behind player_ptr player_mem_space set_player_ptr].
    replace (player_ptr q + 1) with (Z.of_nat (length (score q))) by lia.
    rewrite Z.ltb_irrefl, andb_false_r, Z.eqb_refl.
    destruct (player_mem_space q); reflexivity. }
  cbn [find_bookmark_loop].
  rewrite (next_player_char_eq q), Hc.
  change (is_bookmark (chr "[")) with true. cbv iota.
  rewrite (next_player_char_eq (q <| set_player_ptr := player_ptr q + 1 |>)),
    Hm.
  change (is_separator 0) with false.
  change (is_digit (chr "[")) with false.
  change (nonzero (chr "[") && negb (nonzero 0)) with true. cbv iota.
  f_equal. unfold set_player_ptr at 1.
  cbn [player_timer player_ptr player_mem_space player_enable bookmark state
       next_state note octave accidental transposition note_size
       size_modifier note_rest_ratio whole_note_period note_period
       rest_period scale ch digit number score tones behind set_player_ptr].
  unfold set_player_ptr. f_equal. lia.
Qed.

(** On a play string that does not end in ['['], whatever the memory
    around the string holds, [find_bookmark] returns, and whatever the
    string holds it records a position for no bookmark but number 0: the
    test that lets a bookmark number through looks at the lead-in
    character [[], not at the number, so only a bookmark written without a
    number is taken.  A search for any other bookmark returns the null
    pointer, and the scan [player_start] makes of a new play string leaves
    bookmarks 1 to 9 unset.  On a play string that ends in ['['] the scan
    that has come to this last character goes on behind the terminator,
    at the offset that follows it. *)
Theorem find_bookmark_knows_only_bookmark_zero (fuel : nat)
  (search_mark : Z) (p : player) :
  0 <= player_ptr p <= Z.of_nat (length (score p)) ->
  last (score p) <> Some (chr "[") ->
  chars_left p + 1 <= Z.of_nat fuel ->
  (exists r p',
     find_bookmark fuel search_mark p = Some (r, p') /\
     player_ptr p' = player_ptr p /\
     (forall m, m <> 0 -> bookmark_at p' m = bookmark_at p m) /\
     (search_mark <> 0 -> r = None)) /\
  (forall str mem_space,
     last str <> Some (chr "[") ->
     Z.of_nat (length str) + 1 <= Z.of_nat fuel ->
     exists p',
       player_start fuel str mem_space p = Some p' /\
       player_enable p' = PLAYER_INIT /\
       forall m, m <> 0 -> bookmark_at p' m = mk_bookmark None 0) /\
  (forall (q : player) (f : nat),
     player_mem_space q <> PLAYER_MEM_UNKNOWN ->
     last (score q) = Some (chr "[") ->
     player_ptr q = Z.of_nat (length (score q)) - 1 ->
     find_bookmark_loop (S f) search_mark 0 q
     = find_bookmark_loop f search_mark 0
         (q <| set_player_ptr := Z.of_nat (length (score q)) + 1 |>)).
Proof.
  intros Hin Hlast Hfuel. split; [| split].
  - destruct (find_bookmark_loop_returns fuel search_mark 0 p Hin Hlast
                Hfuel) as (found' & p' & Hrun & Hs & Hb & Hf).
    unfold find_bookmark. rewrite Hrun.
    eexists _, _. split; [reflexivity|]. split; [reflexivity|].
    split.
    + intros m Hm. rewrite <- (Hb m Hm). reflexivity.
    + intros Hsm. rewrite (Hf Hsm eq_refl). reflexivity.
  - clear Hin Hlast Hfuel. intros str mem_space Hlast Hfuel.
    unfold player_start.
    set (p3 := _ <| set_bookmark := _ |>).
    assert (Hs3 : score p3 = str /\ player_ptr p3 = 0) by (split; reflexivity).
    destruct Hs3 as (Hs3 & Hp3).
    destruct (find_bookmark_loop_returns fuel 255 0 p3)
      as (found' & p' & Hrun & Hs & Hb & Hf).
    { rewrite Hs3, Hp3. lia. }
    { rewrite Hs3. exact Hlast. }
    { unfold chars_left. rewrite Hs3, Hp3. lia. }
    unfold find_bookmark. rewrite Hrun.
    eexists. split; [reflexivity|]. split; [reflexivity|].
    intros m Hm.
    transitivity (bookmark_at p' m); [reflexivity|].
    rewrite (Hb m Hm). unfold bookmark_at.
    destruct (Z.ltb_spec m 0); [reflexivity|].
    cbn [p3 bookmark set_bookmark].
    destruct (replicate (Z.to_nat NUM_BOOKMARKS) (mk_bookmark None 0)
                !! Z.to_nat m) as [b|] eqn:Hl; [|reflexivity].
    apply lookup_replicate in Hl. apply Hl.
  - intros q f. exact (find_bookmark_loop_runs_on f search_mark q).
Qed.

(** A search for bookmark 3 in a play string that defines it, with a
    memory full of ['['] around the string. *)
Lemma find_bookmark_knows_only_bookmark_zero_witness :
  exists r p',
    find_bookmark 20 3
      (power_up <| set_score := bytes_of_string "[3:2CDE]3" |>
                <| set_behind := fun _ => chr "[" |>)
    = Some (r, p') /\
    player_ptr p' = 0 /\
    (forall m, m <> 0 ->
       bookmark_at p' m
       = bookmark_at (power_up <| set_score := bytes_of_string "[3:2CDE]3" |>
                               <| set_behind := fun _ => chr "[" |>)
           m) /\
    (3 <> 0 -> r = None).
Proof.
  exact (proj1 (find_bookmark_knows_only_bookmark_zero 20 3
                  (power_up <| set_score := bytes_of_string "[3:2CDE]3" |>
                            <| set_behind := fun _ => chr "[" |>)
                  ltac:(cbn; lia) ltac:(vm_compute; discriminate)
                  ltac:(unfold chars_left; cbn; lia))).
Defined.

(** One round of the jump: three states later the player is where it
    was. *)
Lemma self_jump_round (p : player) (d : Z) :
  self_jump p d ->
  exists q1 q2 p',
    self_jump p' d /\
    (forall f, service_step f p = Some (q1, Continue)) /\
    (forall f, service_step f q1 = Some (q2, Continue)) /\
    (forall f, service_step f q2 = Some (p', Continue)).
Proof.
  intros (Hen & Hst & Hd & Hc & Hc1 & Hb).
  assert (E1 : state_get_note p
               = p <| set_player_ptr := player_ptr p + 1 |>
                   <| set_ch := chr "]" |>
                   <| set_state := STATE_GET_DIGIT |>
                   <| set_next_state := STATE_GOTO_BOOKMARK |>).
  { unfold state_get_note. rewrite (next_player_char_eq p), Hc.
    reflexivity. }
  set (q1 := p <| set_player_ptr := player_ptr p + 1 |>
                <| set_ch := chr "]" |>
                <| set_state := STATE_GET_DIGIT |>
                <| set_next_state := STATE_GOTO_BOOKMARK |>) in *.
  assert (E2 : state_get_digit q1
               = q1 <| set_state := STATE_GOTO_BOOKMARK |>
                    <| set_player_ptr := player_ptr p + 2 |>
                    <| set_digit := d |>).
  { unfold state_get_digit.
    rewrite (next_player_char_eq (q1 <| set_state := _ |>)).
    change (fst (next_player_char (q1 <| set_state := next_state q1 |>)))
      with (fst (next_player_char (p <| set_player_ptr := player_ptr p + 1 |>))).
    rewrite Hc1.
    replace (player_ptr p + 2) with (player_ptr p + 1 + 1) by lia.
    assert (Hdc : d = 0 \/ d = 1 \/ d = 2 \/ d = 3 \/ d = 4 \/ d = 5 \/
                  d = 6 \/ d = 7 \/ d = 8 \/ d = 9) by lia.
    destruct Hdc as [-> | [-> | [-> | [-> | [-> | [-> | [-> | [-> | [-> | ->
      ]]]]]]]]]; reflexivity. }
  set (q2 := q1 <| set_state := STATE_GOTO_BOOKMARK |>
                <| set_player_ptr := player_ptr p + 2 |>
                <| set_digit := d |>) in *.
  assert (E3 : state_goto_bookmark q2
               = q2 <| set_player_ptr := player_ptr p |>
                    <| set_state := STATE_GET_NOTE |>).
  { unfold state_goto_bookmark.
    change (digit q2) with d.
    change (bookmark_at q2 d) with (bookmark_at p d).
    rewrite Hb. reflexivity. }
  set (q3 := q2 <| set_player_ptr := player_ptr p |>
                <| set_state := STATE_GET_NOTE |>) in *.
  exists q1, q2, q3. split; [|split; [|split]].
  - unfold self_jump.
    split; [exact Hen|]. split; [reflexivity|]. split; [exact Hd|].
    split; [exact Hc|]. split; [exact Hc1|]. exact Hb.
  - intros f. unfold service_step. rewrite Hst, Hen, <- E1. reflexivity.
  - intros f. unfold service_step.
    change (state q1) with STATE_GET_DIGIT.
    change (player_enable q1) with (player_enable p).
    rewrite Hen, <- E2. reflexivity.
  - intros f. unfold service_step.
    change (state q2) with STATE_GOTO_BOOKMARK.
    change (player_enable q2) with (player_enable p).
    rewrite Hen, <- E3. reflexivity.
Qed.

(** From a jump onto itself the loop of [player_service] does not come
    out. *)
Lemma self_jump_loops (d : Z) (fuel : nat) :
  forall q, self_jump q d -> service_loop fuel q = None.
Proof.
  assert (Hloop : forall n fuel' q,
            (fuel' <= n)%nat -> self_jump q d -> service_loop fuel' q = None).
  { induction n as [|n IH]; intros fuel' q Hle Hq.
    - assert (fuel' = 0%nat) by lia. subst. reflexivity.
    - destruct (self_jump_round q d Hq) as (q1 & q2 & q' & Hq' & S1 & S2 & S3).
      destruct fuel' as [|f1]; [reflexivity|].
      cbn [service_loop]. rewrite S1.
      destruct f1 as [|f2]; [reflexivity|].
      cbn [service_loop]. rewrite S2.
      destruct f2 as [|f3]; [reflexivity|].
      cbn [service_loop]. rewrite S3.
      apply IH; [lia | exact Hq']. }
  intros q. apply (Hloop fuel). lia.
Qed.

(** The play string ["[:]0"], once [player_start] has recorded its
    bookmark, takes the player to such a jump in seven states. *)
Lemma start_self_jump (tm : Z) (st nst : player_state_t)
  (nt oc ac tr ns sm nrr wnp np rp : Z) (sc : list Z) (c dg nb : Z)
  (tn : list tone_event) (unknown : Z -> Z) (fuel : nat) :
  player_service fuel
    (mk_player tm 0 PLAYER_MEM_RAM PLAYER_INIT
       (<[0%nat := mk_bookmark (Some 2) 255]>
          (replicate 10 (mk_bookmark None 0)))
       st nst nt oc ac tr ns sm nrr wnp np rp sc c dg nb
       (bytes_of_string "[:]0") tn unknown) = None.
Proof.
  unfold player_service.
  cbv [player_enable set_player_timer set_ch set_digit set_number
       player_timer player_ptr player_mem_space bookmark state next_state
       note octave accidental transposition note_size size_modifier
       note_rest_ratio whole_note_period note_period rest_period scale ch
       digit number score tones behind].
  change (PLAYER_INIT =? PLAYER_STOP) with false. cbv iota.
  generalize (uint16 (tm + 1)). clear tm. intros tm.
  destruct fuel as [|fuel]; [reflexivity|]. cbn [service_loop].
  match goal with
  | |- context [service_step ?f ?q] =>
      replace (service_step f q) with (Some (state_reset q, Continue))
        by (unfold service_step; cbn [state player_enable];
            change (PLAYER_INIT =? PLAYER_INIT) with true;
            rewrite orb_true_r; reflexivity);
      let r := eval vm_compute in (state_reset q) in
      change (state_reset q) with r
  end.
  cbv iota beta.
  destruct fuel as [|fuel]; [reflexivity|].
  do 6 (cbn [service_loop];
        destruct fuel as [|fuel]; [vm_compute; reflexivity|];
        match goal with
        | |- context [service_step ?f ?q] =>
            let r := eval vm_compute in (service_step f q) in
            change (service_step f q) with r
        end; cbv iota beta).
  apply (self_jump_loops 0 (S fuel)).
  unfold self_jump. repeat split; try reflexivity; lia.
Qed.

(** A jump to a bookmark that stands on the jump itself and repeats for
    ever keeps [player_service] in its loop: the call, made from the tick
    interrupt, does not return.  The play string ["[:]0"] brings the
    player there from any state: [player_start] gives its bookmark 0 the
    position of the [']'] and the repeat count 0, which means "for ever",
    and the first call of [player_service] after it never returns. *)
Theorem player_service_never_returns_from_self_jump (p : player) (d : Z) :
  self_jump p d ->
  (forall fuel : nat, player_service fuel p = None) /\
  (forall (p' : player) (fuel : nat),
     exists p0,
       player_start (10 + fuel) (bytes_of_string "[:]0") PLAYER_MEM_RAM p'
       = Some p0 /\
       player_service fuel p0 = None).
Proof.
  intros Hsj. split.
  - intros fuel. unfold player_service.
    destruct Hsj as (Hen & Hst & Hd & Hc & Hc1 & Hb).
    rewrite Hen. change (PLAYER_RUN =? PLAYER_STOP) with false. cbv iota.
    apply (self_jump_loops d fuel).
    unfold self_jump. split; [exact Hen|]. split; [exact Hst|].
    split; [exact Hd|]. split; [exact Hc|]. split; [exact Hc1|]. exact Hb.
  - clear Hsj p d. intros p fuel.
    destruct p as [tm ptr mem en bm st nst nt oc ac tr ns sm nrr wnp np rp
                   sc c dg nb sco tn unknown].
    match goal with
    | |- exists p0, ?X = Some p0 /\ _ =>
        let r := eval vm_compute in X in
        lazymatch r with
        | Some ?q => exists q; split; [vm_compute; reflexivity|]
        end
    end.
    apply start_self_jump.
Qed.

(** The state the play string ["[:]0"] leads to. *)
Lemma player_service_never_returns_from_self_jump_witness :
  player_service 5
    (power_up <| set_score := bytes_of_string "[:]0" |>
              <| set_player_ptr := 2 |>
              <| set_player_enable := PLAYER_RUN |>
              <| set_state := STATE_GET_NOTE |>
              <| set_bookmark :=
                   <[0%nat := mk_bookmark (Some 2) 255]>
                     (replicate 10 (mk_bookmark None 0)) |>)
  = None.
Proof.
  refine (proj1 (player_service_never_returns_from_self_jump _ 0 _) 5%nat).
  unfold self_jump. repeat split; try reflexivity; lia.
Defined.

(** ** The memory around the play string

    The two scores run above end at their terminator or before it, so
    what they do is the same whatever the memory around them holds. *)

Lemma transpose_score_any_memory (unknown : Z -> Z) :
  exists p0 p1,
    player_start 100 (bytes_of_string "P5:C") PLAYER_MEM_RAM
      (power_up <| set_behind := unknown |>) = Some p0 /\
    player_service 100 p0 = Some p1 /\
    player_is_stopped p1 = true /\
    transposition p1 = 0 /\
    player_ptr p1 = 1 /\
    tones p1 = [BeepMute 1; BeepPeriod 255 PRESCALE_STOP;
                BeepPeriod 255 PRESCALE_STOP; BeepMute 0; BeepGain 5;
                BeepMute 1; BeepPeriod 255 PRESCALE_STOP].
Proof.
  eexists _, _.
  split; [vm_compute; reflexivity |].
  split; [vm_compute; reflexivity |].
  vm_compute. repeat split.
Qed.

Lemma loop_score_any_memory (unknown : Z -> Z) :
  exists p0 p1,
    player_start 100 loop_score PLAYER_MEM_RAM
      (power_up <| set_behind := unknown |>) = Some p0 /\
    player_ticks 1249 100 p0 = Some p1 /\
    player_is_stopped p1 = true /\
    count_tone note_C (tones p1) = 4%nat /\
    repeat (bookmark_at p1 0) = 0.
Proof.
  eexists _, _.
  split; [vm_compute; reflexivity |].
  split; [vm_compute; reflexivity |].
  vm_compute. repeat split.
Qed.

End PlayerFacts.
